(** * Scenario creation orchestration of the Rural Road Accessibility backend

    A shallow embedding of [app/routes/scenarios--create.js] and of the
    scenario route of [app/config/offline.js]: the relational store the
    routes query, the Operation handle they drive, the promise chains of
    the route handlers written in a state-and-error monad, and the
    completion signal of a service runner as a later event. *)

From Stdlib Require Import ZArith String List Bool Lia Sorted.
From stdpp Require Import base option list strings pretty gmap.
From stdpp Require Import sorting.

Local Open Scope string_scope.
Local Open Scope list_scope.
Local Open Scope Z_scope.

(** ** JavaScript values that occur in rows, payloads and log data *)

Inductive jsval :=
| JUndefined
| JNum (z : Z)
| JStr (s : string).

(** A flat object literal such as [{message: 'Operation started'}]. *)
Definition jsobj := list (string * jsval).

(** [s.match(/pat/)] for a pattern without metacharacters: true iff [pat]
    occurs somewhere in [s]. *)
Fixpoint includes (pat s : string) : bool :=
  String.prefix pat s ||
  match s with
  | EmptyString => false
  | String _ s' => includes pat s'
  end.

(** ** Errors

    The error classes that the routes import from [app/utils/errors] and
    throw, the TypeError of the language, and any other error (a failure
    of the store or of the storage service, for instance).  An error
    carries its message and, when it comes from the store, the name of the
    constraint that was violated. *)

Inductive ErrorClass :=
| ProjectNotFoundError
| ScenarioNotFoundError
| DataConflictError
| DataValidationError
| NotFoundError
| TypeError
| OtherError.

Record Err := mkErr {
  err_class : ErrorClass;
  message : string;
  constraint : option string
}.

(** ** The relational store *)

Record Project := mkProject {
  p_id : Z;
  p_status : string
}.

Record Scenario := mkScenario {
  sc_id : Z;
  sc_name : string;
  sc_description : option string;
  sc_status : string;
  sc_master : bool;
  sc_project_id : Z;
  sc_created_at : Z;
  sc_updated_at : Z
}.

Record Setting := mkSetting {
  set_scenario_id : Z;
  set_key : string;
  set_value : jsval;
  set_created_at : Z;
  set_updated_at : Z
}.

Record OperationRow := mkOperationRow {
  or_id : Z;
  or_type : string;
  or_project_id : Z;
  or_scenario_id : Z;
  or_created_at : Z
}.

Record LogEntry := mkLogEntry {
  operation_id : Z;
  event : string;
  data : jsobj;
  created_at : Z
}.

Record Db := mkDb {
  projects : list Project;
  scenarios : list Scenario;
  scenarios_id_seq : Z;
  scenarios_settings : list Setting;
  operations : list OperationRow;
  operations_id_seq : Z;
  operations_logs : list LogEntry;
  clock : Z
}.

Definition set_scenarios (f : list Scenario → list Scenario) (seq : Z) (d : Db) : Db :=
  mkDb (projects d) (f (scenarios d)) seq (scenarios_settings d)
       (operations d) (operations_id_seq d) (operations_logs d) (clock d).

Definition set_settings (f : list Setting → list Setting) (d : Db) : Db :=
  mkDb (projects d) (scenarios d) (scenarios_id_seq d) (f (scenarios_settings d))
       (operations d) (operations_id_seq d) (operations_logs d) (clock d).

(** [db('projects').select('status').where('id', projId)] *)
Definition select_project_status (d : Db) (projId : Z) : list string :=
  p_status <$> filter (λ p, p_id p = projId) (projects d).

(** [db('scenarios').select(..).where('id', scId).where('project_id', projId)] *)
Definition select_scenario (d : Db) (scId projId : Z) : list Scenario :=
  filter (λ s, sc_id s = scId ∧ sc_project_id s = projId) (scenarios d).

(** [db('scenarios').select('id').where('project_id', projId).where('name', n)] *)
Definition select_scenario_named (d : Db) (projId : Z) (n : string) : list Scenario :=
  filter (λ s, sc_project_id s = projId ∧ sc_name s = n) (scenarios d).

(** The [scenarios_project_id_name_unique] constraint of the scenarios
    table, whose violation the routes look for in [err.constraint]. *)
Definition unique_violation : Err :=
  mkErr OtherError
        "duplicate key value violates unique constraint scenarios_project_id_name_unique"
        (Some "scenarios_project_id_name_unique").

(** [db('scenarios').returning('*').insert(info)] for one row: the row
    gets the next id of the sequence and is returned; a row with the same
    project and name is refused. *)
Definition insert_scenario (d : Db) (name : string) (description : option string)
    (status : string) (master : bool) (projId created updated : Z)
  : Err + (Scenario * Db) :=
  match select_scenario_named d projId name with
  | _ :: _ => inl unique_violation
  | [] =>
      let row := mkScenario (scenarios_id_seq d) name description status master
                            projId created updated in
      inr (row, set_scenarios (λ l, l ++ [row]) (scenarios_id_seq d + 1) d)
  end.

(** [db.batchInsert('scenarios_settings', rows)] *)
Definition batchInsert_settings (d : Db) (rows : list Setting) : Db :=
  set_settings (λ l, l ++ rows) d.

(** ** The Operation handle

    The Operation class ([app/utils/operation]) is imported by both route
    files and is not among the sources; the definitions of this part
    follow the specification of the component.  [new Operation(db)] is
    always followed at once by a load or a start, which are therefore
    functions of the store. *)

(** Modelled from the spec: the handle of a loaded or started operation of
    the missing Operation class: its identity ([id], [type],
    [project_id], [scenario_id]) and its log entries, as they were when the
    handle was loaded plus what was appended through it ("status ... is
    computed by inspecting the log sequence"). *)
Record Operation := mkOperation {
  op_id : Z;
  op_type : string;
  op_project_id : Z;
  op_scenario_id : Z;
  op_entries : list LogEntry
}.

(** Modelled from the spec: the [start] event of the log of the missing
    Operation class. *)
Definition is_start (e : LogEntry) : bool := String.eqb (event e) "start".

(** Modelled from the spec: a terminal event of the missing Operation
    class, "a log entry (finish or error) after which an Operation is
    considered closed". *)
Definition is_terminal (e : LogEntry) : bool :=
  String.eqb (event e) "finish" || String.eqb (event e) "error".

(** Modelled from the spec: [isStarted()] of the missing Operation class,
    "true if the loaded operation's log contains a start event and no
    terminal event yet". *)
Definition isStarted (op : Operation) : bool :=
  existsb is_start (op_entries op) && negb (existsb is_terminal (op_entries op)).

(** Modelled from the spec: [isCompleted()] of the missing Operation class,
    "true if a terminal event (success or error) has been logged". *)
Definition isCompleted (op : Operation) : bool :=
  existsb is_terminal (op_entries op).

(** Modelled from the spec: [getId()] of the missing Operation class,
    "returns the operation's identity". *)
Definition getId (op : Operation) : Z := op_id op.

(** The log entries of the operation [id], in the order of the log. *)
Definition entries_of (d : Db) (id : Z) : list LogEntry :=
  filter (λ e, operation_id e = id) (operations_logs d).

Definition load_row (d : Db) (r : OperationRow) : Operation :=
  mkOperation (or_id r) (or_type r) (or_project_id r) (or_scenario_id r)
              (entries_of d (or_id r)).

(** Modelled from the spec: the "most recent" row of a lookup of the
    missing Operation class, the first of the rows "ordered descending by
    creation time". *)
Definition most_recent (rows : list OperationRow) : option OperationRow :=
  foldl (λ acc r,
           match acc with
           | None => Some r
           | Some a => if or_created_at a <=? or_created_at r then Some r else Some a
           end) None rows.

(** Appending a row to the log or to the operations; the store stamps the
    row with its clock, which is "monotonically increasing". *)
Definition append_log (e : LogEntry) (d : Db) : Db :=
  mkDb (projects d) (scenarios d) (scenarios_id_seq d) (scenarios_settings d)
       (operations d) (operations_id_seq d) (operations_logs d ++ [e]) (clock d + 1).

Definition append_operation (r : OperationRow) (d : Db) : Db :=
  mkDb (projects d) (scenarios d) (scenarios_id_seq d) (scenarios_settings d)
       (operations d ++ [r]) (operations_id_seq d + 1) (operations_logs d) (clock d + 1).

Section OperationModel.

(** The message an error class of [app/utils/errors] carries when it is
    constructed without one; the module is not among the sources, so the
    texts are a parameter. *)
Variable default_message : ErrorClass → string.

(** [new C(msg)] and [new C()] for an error class [C]. *)
Definition new_error (c : ErrorClass) (msg : option string) : Err :=
  mkErr c (default (default_message c) msg) None.

(** Modelled from the spec: [loadById(id)] of the missing Operation class,
    "fetches an Operation by identity. Fails with NotFoundError if
    absent". *)
Definition loadById (d : Db) (id : Z) : Err + Operation :=
  match filter (λ r, or_id r = id) (operations d) with
  | [] => inl (new_error NotFoundError None)
  | r :: _ => inr (load_row d r)
  end.

(** Modelled from the spec: [loadByData(type, projectId, scenarioId)] of
    the missing Operation class, "finds the most recent Operation matching
    the triple. Fails with NotFoundError if none exists". *)
Definition loadByData (d : Db) (type : string) (projId scId : Z) : Err + Operation :=
  match most_recent (filter (λ r, or_type r = type ∧ or_project_id r = projId
                                  ∧ or_scenario_id r = scId) (operations d)) with
  | None => inl (new_error NotFoundError None)
  | Some r => inr (load_row d r)
  end.

End OperationModel.

(** Modelled from the spec: [start(type, projectId, scenarioId)] of the
    missing Operation class, "creates a new persisted identity plus a
    start log entry" ("writes identity row + first log entry, id
    assigned"). *)
Definition start (d : Db) (type : string) (projId scId : Z) : Operation * Db :=
  let id := operations_id_seq d in
  let d1 := append_operation (mkOperationRow id type projId scId (clock d)) d in
  let e := mkLogEntry id "start" [] (clock d1) in
  (mkOperation id type projId scId [e], append_log e d1).

(** Modelled from the spec: [log(event, data)] of the missing Operation
    class, "appends a log entry to the currently loaded operation. Returns
    the operation (chainable)". *)
Definition log (d : Db) (op : Operation) (ev : string) (dat : jsobj) : Operation * Db :=
  let e := mkLogEntry (op_id op) ev dat (clock d) in
  (mkOperation (op_id op) (op_type op) (op_project_id op) (op_scenario_id op)
               (op_entries op ++ [e]),
   append_log e d).

(** Modelled from the spec: [finish()] of the missing Operation class,
    "appends the terminal entry; after this, isCompleted() becomes true";
    the routes call it as [finish('error', data)] and as [finish()]. *)
Definition finish (d : Db) (op : Operation) (ev : option string) (dat : jsobj)
  : Operation * Db :=
  log d op (default "finish" ev) dat.

(** ** Promise chains: a state-and-error monad

    A promise that resolves is [inr], one that rejects is [inl]; the state
    is what the chain has written so far.  A rejection skips the [then]
    steps that follow and keeps the writes already made: nothing in the
    routes rolls back. *)

Definition M (S A : Type) : Type := S → (Err + A) * S.

Definition ret {S A} (a : A) : M S A := λ s, (inr a, s).

Definition throw {S A} (e : Err) : M S A := λ s, (inl e, s).

Definition bind {S A B} (m : M S A) (k : A → M S B) : M S B :=
  λ s, match m s with
       | (inl e, s') => (inl e, s')
       | (inr a, s') => k a s'
       end.

(** [m.catch(h)] *)
Definition catch {S A} (m : M S A) (h : Err → M S A) : M S A :=
  λ s, match m s with
       | (inl e, s') => h e s'
       | (inr a, s') => (inr a, s')
       end.

Declare Scope promise_scope.
Delimit Scope promise_scope with promise.
Notation "'let*' x ':=' m 'in' k" := (bind m (λ x, k))
  (at level 10, x name, m at level 100, k at level 200) : promise_scope.
Notation "m '>>' k" := (bind m (λ _, k))
  (at level 100, k at level 200, right associativity) : promise_scope.

(** [Object.assign(target, src)]: the keys of [src] win. *)
Definition object_assign (target src : gmap string jsval) : gmap string jsval :=
  src ∪ target.

Definition of_opt_num (o : option Z) : jsval :=
  match o with Some z => JNum z | None => JUndefined end.

Definition of_opt_str (o : option string) : jsval :=
  match o with Some s => JStr s | None => JUndefined end.

(** What a route handler passes to [reply]. *)
Record ScenarioObj := mkScenarioObj {
  row : Scenario;
  sc_data : option jsobj;
  sc_admin_areas : option (list Z);
  roadNetworkUpload : option jsobj
}.

Inductive Reply :=
| ReplyScenario (s : ScenarioObj)      (* reply(scenario) *)
| ReplyBadRequest (msg : string)       (* reply(Boom.badRequest(msg)) *)
| ReplyNotFound (msg : string)         (* reply(Boom.notFound(msg)) *)
| ReplyConflict (msg : string)         (* reply(Boom.conflict(msg)) *)
| ReplyBadImplementation (e : Err)     (* reply(Boom.badImplementation(err)) *)
| ReplyErrorResponse (e : Err).        (* reply(getBoomResponseForError(err)) *)

Record File := mkFile { path : string }.

Record Params := mkParams {
  projId : Z;
  scId : option Z
}.

(** Modelled from the spec: the ServiceRunner class
    ([app/utils/service-runner], imported by both route files) is not
    among the sources.  Construction takes the task name and the payload,
    [on('complete', handler)] registers the completion handler, [start()]
    triggers the job and returns at once; the completion signal, with an
    error or without, is an event of its own that runs the handler.  A
    value of this type is a runner that was constructed and started. *)
Record ServiceRunner := mkServiceRunner {
  task_name : string;
  service_data : gmap string jsval;
  on_complete : option Err → Db → Db
}.

(** ** [app/routes/scenarios--create.js] *)

Module Routes.

Record Payload := mkPayload {
  name : string;
  description : option string;
  roadNetworkSource : string;
  roadNetworkSourceScenario : option Z;
  roadNetworkSourceWbCatalogOption : option string;
  roadNetworkFile : option File;
  poiSource : string;
  poiSourceScenario : option Z
}.

(** What a request finds outside the store: the environment variable, the
    clock read by [new Date()] and by [Date.now()], and whether the
    scenario insert or the upload to the object storage fails for a reason
    of their own. *)
Record Env := mkEnv {
  DS_ENV : option string;
  now : Z;
  date_now : Z;
  insert_failure : option Err;
  putFile_failure : option Err
}.

Record State := mkState {
  db : Db;
  services : list ServiceRunner;
  s3 : list (string * string);
  removed_local : list string
}.

Definition with_db (f : Db → Db) (st : State) : State :=
  mkState (f (db st)) (services st) (s3 st) (removed_local st).

(** Runs a chain over the store inside a chain over the whole state. *)
Definition lift_db {A} (m : M Db A) : M State A :=
  λ st, let '(r, d) := m (db st) in (r, with_db (λ _, d) st).

Definition putFileToS3 (env : Env) (filePath localPath : string) : M State unit :=
  λ st, match putFile_failure env with
        | Some e => (inl e, st)
        | None => (inr tt, mkState (db st) (services st)
                                    (s3 st ++ [(filePath, localPath)]) (removed_local st))
        end.

Definition removeLocalFile (p : string) : M State unit :=
  λ st, (inr tt, mkState (db st) (services st) (s3 st) (removed_local st ++ [p])).

Section Orchestrator.

Variable default_message : ErrorClass → string.

Local Open Scope promise_scope.

(** The two handlers of [op.loadByData(..).then(onLoaded, onError)]. *)
Definition conflict_check (loaded : Err + Operation) : M Db unit :=
  match loaded with
  | inr op =>
      if isStarted op
      then throw (new_error default_message DataConflictError
                            (Some "Scenario creation already in progress"))
      else ret tt
  | inl err =>
      (* In this case if the operation doesn't exist is not a problem. *)
      if includes "not exist" (message err) then ret tt else throw err
  end.

(** [startOperation] from the result of the load on. *)
Definition startOperation_loaded (loaded : Err + Operation) (projId scId : Z)
  : M Db Operation :=
  conflict_check loaded >>
  let* op := (λ d, let '(op, d') := start d "scenario-create" projId scId in (inr op, d')) in
  (λ d, let '(op', d') := log d op "start" [("message", JStr "Operation started")] in
        (inr op', d')).

Definition startOperation (projId scId : Z) : M Db Operation :=
  λ d, startOperation_loaded (loadByData default_message d "scenario-create" projId scId)
                             projId scId d.

(** The handler that [createScenario] registers with
    [service.on('complete', ..)]. *)
Definition createScenario_complete (opId : Z) (err : option Err) (d : Db) : Db :=
  match err with
  | None => d
  | Some e =>
      match loadById default_message d opId with
      | inl _ => d
      | inr op =>
          if negb (isCompleted op)
          then snd (finish d op (Some "error") [("error", JStr (message e))])
          else d
      end
  end.

(** [createScenario]: the runner is constructed and started in a callback
    of the resolved promise that is returned, so it runs before the
    caller's next step and the caller does not wait for the job. *)
Definition createScenario (env : Env) (projId scId opId : Z) (dat : gmap string jsval)
  : M State unit :=
  if decide (DS_ENV env = Some "test") then ret tt
  else
    let serviceData :=
      object_assign
        (object_assign ∅ (<["projId" := JNum projId]>
                           (<["scId" := JNum scId]> {["opId" := JNum opId]})))
        dat in
    λ st, (inr tt,
           mkState (db st)
                   (services st ++ [mkServiceRunner "scenario-create" serviceData
                                                    (createScenario_complete opId)])
                   (s3 st) (removed_local st)).

(** Upload the file to S3. *)
Definition handleRoadNetworkUpload (env : Env) (scenario : ScenarioObj) (opId : Z)
    (source : string) (roadNetworkFile : option File) : M State (gmap string jsval) :=
  let type := "road-network" in
  let fileName := type +:+ "_" +:+ pretty (date_now env) in
  let filePath := "scenario-" +:+ pretty (sc_id (row scenario)) +:+ "/" +:+ fileName in
  match roadNetworkFile with
  | None => throw (mkErr TypeError "Cannot read property 'path' of undefined" None)
  | Some f =>
      putFileToS3 env filePath (path f) >>
      removeLocalFile (path f) >>
      ret {["roadNetworkFile" := JStr fileName]}
  end.

(** [db('scenarios').returning('*').insert(info)] as the request sees
    it: refused by the store, or failing for a reason of its own. *)
Definition insert_info (env : Env) (name : string) (description : option string)
    (status : string) (master : bool) (projId now : Z) : M State Scenario :=
  λ st, match insert_failure env with
        | Some e => (inl e, st)
        | None =>
            match insert_scenario (db st) name description status master projId
                                  now now with
            | inl e => (inl e, st)
            | inr (scenario, d) => (inr scenario, with_db (λ _, d) st)
            end
        end.

(** The promise chain of [handler], up to the [reply(scenario)] step. *)
Definition handler_chain (env : Env) (params : Params) (payload : Payload)
  : M State ScenarioObj :=
  let now := now env in
  let name := name payload in
  let description := description payload in
  let rnSource := roadNetworkSource payload in
  let rnSourceScenarioId := roadNetworkSourceScenario payload in
  let rnSourceWbCatalogOption := roadNetworkSourceWbCatalogOption payload in
  let roadNetworkFile := roadNetworkFile payload in
  let poiSource := poiSource payload in
  let poiSourceScenarioId := poiSourceScenario payload in
  (λ st,
     match select_project_status (db st) (projId params) with
     | [] => throw (new_error default_message ProjectNotFoundError None) st
     | status :: _ =>
         (* It's not possible to create scenarios for pending projects. *)
         if String.eqb status "pending"
         then throw (new_error default_message DataConflictError
                               (Some "Project setup not completed")) st
         else ret tt st
     end) >>
  (* If we're cloning from a different scenario, make sure it exists. *)
  (if String.eqb rnSource "clone"
   then λ st,
       match from_option (λ src, select_scenario (db st) src (projId params)) []
                         rnSourceScenarioId with
       | [] => throw (new_error default_message ScenarioNotFoundError
                                (Some "Source scenario for cloning not found")) st
       | _ :: _ => ret tt st
       end
   else ret tt) >>
  (* Create the scenario base to be able to start an operation for it. *)
  let* scenario :=
    (let* scenario :=
       catch (insert_info env name (Some (default "" description)) "pending" false
                          (projId params) now)
             (λ err,
                if decide (constraint err = Some "scenarios_project_id_name_unique")
                then throw (new_error default_message DataConflictError
                              (Some ("Scenario name already in use for this project: "
                                     +:+ name)))
                else throw err) in
     (λ st, (inr tt,
             with_db (λ d, batchInsert_settings d
                        [ mkSetting (sc_id scenario) "res_gen_at" (JNum 0) now now;
                          mkSetting (sc_id scenario) "rn_updated_at" (JNum 0) now now;
                          mkSetting (sc_id scenario) "admin_areas" (JStr "[]") now now ])
                     st)) >>
     ret (mkScenarioObj scenario
                        (Some [("res_gen_at", JNum 0); ("rn_updated_at", JNum 0)])
                        (Some []) None)) in
  (* Start operation and return data to continue. *)
  let* op := lift_db (startOperation (projId params) (sc_id (row scenario))) in
  let action : M State (gmap string jsval) :=
    ret (<["rnSource" := JStr rnSource]> {["poiSource" := JStr poiSource]}) in
  let action :=
    if String.eqb rnSource "new" then
      (* Upload and process file. Add the filename to the data object. *)
      let* dat := action in
      let* res := handleRoadNetworkUpload env scenario (getId op) rnSource
                                          roadNetworkFile in
      ret (object_assign (object_assign ∅ dat) res)
    else if String.eqb rnSource "clone" then
      (* Add the rn source id to the data object. *)
      let* dat := action in
      ret (object_assign (object_assign ∅ dat)
                         {["rnSourceScenarioId" := of_opt_num rnSourceScenarioId]})
    else if String.eqb rnSource "wbcatalog" then
      (* Add the catalog option to the data object. *)
      let* dat := action in
      ret (object_assign (object_assign ∅ dat)
             {["rnSourceWbCatalogOption" := of_opt_str rnSourceWbCatalogOption]})
    else action in
  let action :=
    if String.eqb poiSource "clone" then
      (* Add the poi source id to the data object. *)
      let* dat := action in
      ret (object_assign (object_assign ∅ dat)
                         {["poiSourceScenarioId" := of_opt_num poiSourceScenarioId]})
    else action in
  let* dat := action in
  createScenario env (projId params) (sc_id (row scenario)) (getId op) dat >>
  ret scenario.

(** The steps of the chain of [handler], one definition per [then]
    callback, for the proofs; [handler_chain] is their composition. *)
Definition check_project (params : Params) : M State unit :=
  λ st,
    match select_project_status (db st) (projId params) with
    | [] => throw (new_error default_message ProjectNotFoundError None) st
    | status :: _ =>
        if String.eqb status "pending"
        then throw (new_error default_message DataConflictError
                              (Some "Project setup not completed")) st
        else ret tt st
    end.

Definition check_source (params : Params) (payload : Payload) : M State unit :=
  if String.eqb (roadNetworkSource payload) "clone"
  then λ st,
      match from_option (λ src, select_scenario (db st) src (projId params)) []
                        (roadNetworkSourceScenario payload) with
      | [] => throw (new_error default_message ScenarioNotFoundError
                               (Some "Source scenario for cloning not found")) st
      | _ :: _ => ret tt st
      end
  else ret tt.

Definition create_base (env : Env) (params : Params) (payload : Payload)
  : M State ScenarioObj :=
  let* scenario :=
    catch (insert_info env (name payload) (Some (default "" (description payload)))
                       "pending" false (projId params) (now env))
          (λ err,
             if decide (constraint err = Some "scenarios_project_id_name_unique")
             then throw (new_error default_message DataConflictError
                           (Some ("Scenario name already in use for this project: "
                                  +:+ name payload)))
             else throw err) in
  (λ st, (inr tt,
          with_db (λ d, batchInsert_settings d
                     [ mkSetting (sc_id scenario) "res_gen_at" (JNum 0) (now env) (now env);
                       mkSetting (sc_id scenario) "rn_updated_at" (JNum 0) (now env)
                                 (now env);
                       mkSetting (sc_id scenario) "admin_areas" (JStr "[]") (now env)
                                 (now env) ])
                  st)) >>
  ret (mkScenarioObj scenario
                     (Some [("res_gen_at", JNum 0); ("rn_updated_at", JNum 0)])
                     (Some []) None).

Definition build_data (env : Env) (payload : Payload) (scenario : ScenarioObj)
    (op : Operation) : M State (gmap string jsval) :=
  let rnSource := roadNetworkSource payload in
  let action : M State (gmap string jsval) :=
    ret (<["rnSource" := JStr rnSource]> {["poiSource" := JStr (poiSource payload)]}) in
  let action :=
    if String.eqb rnSource "new" then
      let* dat := action in
      let* res := handleRoadNetworkUpload env scenario (getId op) rnSource
                                          (roadNetworkFile payload) in
      ret (object_assign (object_assign ∅ dat) res)
    else if String.eqb rnSource "clone" then
      let* dat := action in
      ret (object_assign (object_assign ∅ dat)
             {["rnSourceScenarioId" := of_opt_num (roadNetworkSourceScenario payload)]})
    else if String.eqb rnSource "wbcatalog" then
      let* dat := action in
      ret (object_assign (object_assign ∅ dat)
             {["rnSourceWbCatalogOption" :=
                 of_opt_str (roadNetworkSourceWbCatalogOption payload)]})
    else action in
  if String.eqb (poiSource payload) "clone" then
    let* dat := action in
    ret (object_assign (object_assign ∅ dat)
           {["poiSourceScenarioId" := of_opt_num (poiSourceScenario payload)]})
  else action.

(** [handler]: the chain, [reply(scenario)] when it resolves, and the
    three [catch] steps when it rejects. *)
Definition handler (env : Env) (params : Params) (payload : Payload) (st : State)
  : Reply * State :=
  match handler_chain env params payload st with
  | (inr scenario, st') => (ReplyScenario scenario, st')
  | (inl err, st') =>
      (* Delete temp file in case of error. Re-throw error to continue. *)
      let st'' := match roadNetworkFile payload with
                  | Some f => snd (removeLocalFile (path f) st')
                  | None => st'
                  end in
      (* Specific override *)
      if includes "Source scenario for cloning not found" (message err)
      then (ReplyBadRequest (message err), st'')
      else (ReplyErrorResponse err, st'')
  end.

(** Recursively search for an available name by appending a (n) suffix
    to the input value.  [fn] calls itself once per name that is taken;
    [fuel] bounds the number of calls. *)
Fixpoint fn (d : Db) (projId : Z) (name : string) (fuel : nat) (no : N)
  : option string :=
  match fuel with
  | O => None
  | S fuel' =>
      let n := name +:+ " (" +:+ pretty no +:+ ")" in
      match head (select_scenario_named d projId n) with
      | Some _ => fn d projId name fuel' (no + 1)%N
      | None => Some n
      end
  end.

Definition findName (d : Db) (projId : Z) (name : string) : option string :=
  fn d projId name (S (length (scenarios d))) 2%N.

(** The handler of [POST /projects/{projId}/scenarios/{scId}/duplicate];
    [None] would be a search for a name that never ends. *)
Definition duplicate (env : Env) (projId scId : Z) (st : State)
  : option (Reply * State) :=
  match head (select_scenario (db st) scId projId) with
  | None => Some (ReplyErrorResponse (new_error default_message ScenarioNotFoundError None),
                  st)
  | Some scenario =>
      (* Find next available name. *)
      match findName (db st) projId (sc_name scenario) with
      | None => None
      | Some name =>
          let payload :=
            mkPayload name (sc_description scenario) "clone" (Some scId) None None
                      "clone" (Some scId) in
          Some (handler env (mkParams projId (Some scId)) payload st)
      end
  end.

(** What happens to the server, one event after the other: a request to
    one of the two routes, or the completion signal of a runner that was
    started ([i] counts the runners in the order they were started). *)
Inductive Event :=
| Create (env : Env) (params : Params) (payload : Payload)
| Duplicate (env : Env) (projId scId : Z)
| Complete (i : nat) (err : option Err).

Definition step (st : State) (ev : Event) : State :=
  match ev with
  | Create env params payload => snd (handler env params payload st)
  | Duplicate env projId scId =>
      match duplicate env projId scId st with
      | Some (_, st') => st'
      | None => st
      end
  | Complete i err =>
      match services st !! i with
      | Some service => with_db (on_complete service err) st
      | None => st
      end
  end.

Definition run (st : State) (evs : list Event) : State := foldl step st evs.

(** What the callers are replied, in the order of the requests. *)
Definition step_reply (st : State) (ev : Event) : option Reply :=
  match ev with
  | Create env params payload => Some (handler env params payload st).1
  | Duplicate env projId scId => fst <$> duplicate env projId scId st
  | Complete _ _ => None
  end.

Fixpoint replies (st : State) (evs : list Event) : list Reply :=
  match evs with
  | [] => []
  | ev :: evs' => option_list (step_reply st ev) ++ replies (step st ev) evs'
  end.

End Orchestrator.

End Routes.

(** ** The scenario route of [app/config/offline.js] *)

Module Offline.

Record Payload := mkPayload {
  name : string;
  description : option string;
  roadNetworkSource : string;
  roadNetworkSourceScenario : option Z
}.

(** What a request finds outside the store: the environment variable, the
    clock at the two [new Date()] and at [Date.now()], and the outcome of
    the scenario insert, of [closeDatabase] and of [getPresignedUrl]. *)
Record Env := mkEnv {
  DS_ENV : option string;
  created_now : Z;
  updated_now : Z;
  date_now : Z;
  insert_failure : option Err;
  closeDatabase_failure : option Err;
  presignedUrl : Err + string
}.

(** A pending [listenForFile(filePath)] with what its continuation calls
    [createScenario] on. *)
Record Listener := mkListener {
  l_filePath : string;
  l_project_id : Z;
  l_scenario_id : Z;
  l_opId : Z;
  l_source : string;
  l_fileName : string
}.

Record State := mkState {
  db : Db;
  services : list ServiceRunner;
  closed_databases : list (Z * jsval);
  listeners : list Listener
}.

Definition with_db (f : Db → Db) (st : State) : State :=
  mkState (f (db st)) (services st) (closed_databases st) (listeners st).

Definition lift_db {A} (m : M Db A) : M State A :=
  λ st, let '(r, d) := m (db st) in (r, with_db (λ _, d) st).

Section Orchestrator.

Variable default_message : ErrorClass → string.

Local Open Scope promise_scope.

Definition conflict_check (loaded : Err + Operation) : M Db unit :=
  match loaded with
  | inr op =>
      if isStarted op
      then throw (new_error default_message DataConflictError
                            (Some "Scenario creation already in progress"))
      else ret tt
  | inl err =>
      (* In this case if the operation doesn't exist is not a problem. *)
      if includes "not exist" (message err) then ret tt else throw err
  end.

Definition startOperation_loaded (loaded : Err + Operation) (projId scId : Z)
  : M Db Operation :=
  conflict_check loaded >>
  let* op := (λ d, let '(op, d') := start d "scenario-create" projId scId in (inr op, d')) in
  (λ d, let '(op', d') := log d op "start" [("message", JStr "Operation started")] in
        (inr op', d')).

Definition startOperation (projId scId : Z) : M Db Operation :=
  λ d, startOperation_loaded (loadByData default_message d "scenario-create" projId scId)
                             projId scId d.

(** The completion handler of this file logs the error and then
    finishes the operation. *)
Definition createScenario_complete (opId : Z) (err : option Err) (d : Db) : Db :=
  match err with
  | None => d
  | Some e =>
      match loadById default_message d opId with
      | inl _ => d
      | inr op =>
          if negb (isCompleted op)
          then let '(op', d') := log d op "error" [("error", JStr (message e))] in
               snd (finish d' op' None [])
          else d
      end
  end.

(** [closeDatabase(projId, scId)] of [app/services/rra-osm-p2p]. *)
Definition closeDatabase (env : Env) (projId : Z) (scId : jsval) : M State unit :=
  λ st, match closeDatabase_failure env with
        | Some e => (inl e, st)
        | None => (inr tt, mkState (db st) (services st)
                                    (closed_databases st ++ [(projId, scId)]) (listeners st))
        end.

Definition createScenario (env : Env) (projId scId opId : Z) (source : string)
    (dat : gmap string jsval) : M State unit :=
  let action : M State unit := ret tt in
  if decide (DS_ENV env = Some "test") then action
  else
    let action :=
      if String.eqb source "clone"
      then closeDatabase env projId (default JUndefined (dat !! "sourceScenarioId"))
      else action in
    let serviceData :=
      object_assign
        (object_assign ∅ (<["projId" := JNum projId]>
                           (<["scId" := JNum scId]>
                              (<["opId" := JNum opId]> {["source" := JStr source]}))))
        dat in
    action >>
    λ st, (inr tt,
           mkState (db st)
                   (services st ++ [mkServiceRunner "scenario-create" serviceData
                                                    (createScenario_complete opId)])
                   (closed_databases st) (listeners st)).

(** Get the presigned url for file upload and send it to the client.
    Listen for file changes to update the database.  The chain replies
    itself; the continuation of [listenForFile] is the event
    [FileUploaded] below. *)
Definition handleRoadNetworkUpload (env : Env) (scenario : ScenarioObj) (opId : Z)
    (source : string) : M State (option Reply) :=
  let type := "road-network" in
  let fileName := type +:+ "_" +:+ pretty (date_now env) in
  let filePath := "scenario-" +:+ pretty (sc_id (row scenario)) +:+ "/" +:+ fileName in
  match presignedUrl env with
  | inl e => throw e
  | inr url =>
      let scenario' :=
        mkScenarioObj (row scenario) (sc_data scenario) (sc_admin_areas scenario)
                      (Some [("fileName", JStr fileName); ("presignedUrl", JStr url)]) in
      λ st, (inr (Some (ReplyScenario scenario')),
             mkState (db st) (services st) (closed_databases st)
                     (listeners st ++ [mkListener filePath (sc_project_id (row scenario))
                                                  (sc_id (row scenario)) opId source
                                                  fileName]))
  end.

Definition insert_info (env : Env) (name : string) (description : option string)
    (status : string) (master : bool) (projId : Z) : M State Scenario :=
  λ st, match insert_failure env with
        | Some e => (inl e, st)
        | None =>
            match insert_scenario (db st) name description status master projId
                                  (created_now env) (updated_now env) with
            | inl e => (inl e, st)
            | inr (scenario, d) => (inr scenario, with_db (λ _, d) st)
            end
        end.

(** The promise chain of the route handler; its value is what was
    replied, if anything was. *)
Definition handler_chain (env : Env) (params : Params) (payload : Payload)
  : M State (option Reply) :=
  let source := roadNetworkSource payload in
  let sourceScenarioId := roadNetworkSourceScenario payload in
  (λ st,
     match select_project_status (db st) (projId params) with
     | [] => throw (new_error default_message ProjectNotFoundError None) st
     | status :: _ =>
         (* It's not possible to create scenarios for pending projects. *)
         if String.eqb status "pending"
         then throw (new_error default_message DataConflictError
                               (Some "Project setup not completed")) st
         else ret tt st
     end) >>
  (* If we're cloning from a different scenario, make sure it exists. *)
  (if String.eqb source "clone"
   then λ st,
       match from_option (λ src, select_scenario (db st) src (projId params)) []
                         sourceScenarioId with
       | [] => throw (new_error default_message ScenarioNotFoundError None) st
       | _ :: _ => ret tt st
       end
   else ret tt) >>
  (* Create the scenario base to be able to start an operation for it. *)
  let* scenario :=
    catch (insert_info env (name payload) (Some (default "" (description payload)))
                       "pending" false (projId params))
          (λ err,
             if decide (constraint err = Some "scenarios_project_id_name_unique")
             then throw (new_error default_message DataConflictError
                           (Some ("Scenario name already in use for this project: "
                                  +:+ name payload)))
             else throw err) in
  (* Start operation and return data to continue. *)
  let* op := lift_db (startOperation (projId params) (sc_id scenario)) in
  let scenario := mkScenarioObj scenario None None None in
  if String.eqb source "clone" then
    createScenario env (projId params) (sc_id (row scenario)) (getId op) source
                   {["sourceScenarioId" := of_opt_num sourceScenarioId]} >>
    ret (Some (ReplyScenario scenario))
  else if String.eqb source "new" then
    handleRoadNetworkUpload env scenario (getId op) source
  else ret None.

(** The steps of the chain, one definition per [then] callback, for the
    proofs; [handler_chain] is their composition. *)
Definition check_project (params : Params) : M State unit :=
  λ st,
    match select_project_status (db st) (projId params) with
    | [] => throw (new_error default_message ProjectNotFoundError None) st
    | status :: _ =>
        if String.eqb status "pending"
        then throw (new_error default_message DataConflictError
                              (Some "Project setup not completed")) st
        else ret tt st
    end.

Definition check_source (params : Params) (payload : Payload) : M State unit :=
  if String.eqb (roadNetworkSource payload) "clone"
  then λ st,
      match from_option (λ src, select_scenario (db st) src (projId params)) []
                        (roadNetworkSourceScenario payload) with
      | [] => throw (new_error default_message ScenarioNotFoundError None) st
      | _ :: _ => ret tt st
      end
  else ret tt.

Definition create_base (env : Env) (params : Params) (payload : Payload)
  : M State Scenario :=
  catch (insert_info env (name payload) (Some (default "" (description payload)))
                     "pending" false (projId params))
        (λ err,
           if decide (constraint err = Some "scenarios_project_id_name_unique")
           then throw (new_error default_message DataConflictError
                         (Some ("Scenario name already in use for this project: "
                                +:+ name payload)))
           else throw err).

Definition dispatch (env : Env) (params : Params) (payload : Payload)
    (op : Operation) (scenario : ScenarioObj) : M State (option Reply) :=
  let source := roadNetworkSource payload in
  if String.eqb source "clone" then
    createScenario env (projId params) (sc_id (row scenario)) (getId op) source
                   {["sourceScenarioId" := of_opt_num (roadNetworkSourceScenario payload)]} >>
    ret (Some (ReplyScenario scenario))
  else if String.eqb source "new" then
    handleRoadNetworkUpload env scenario (getId op) source
  else ret None.

(** The route handler: the chain and its four [catch] steps. *)
Definition handler (env : Env) (params : Params) (payload : Payload) (st : State)
  : option Reply * State :=
  match handler_chain env params payload st with
  | (inr replied, st') => (replied, st')
  | (inl e, st') =>
      (match err_class e with
       | ProjectNotFoundError => Some (ReplyNotFound (message e))
       | ScenarioNotFoundError =>
           Some (ReplyBadRequest "Source scenario for cloning not found")
       | DataConflictError => Some (ReplyConflict (message e))
       | _ => Some (ReplyBadImplementation e)
       end, st')
  end.

Inductive Event :=
| Create (env : Env) (params : Params) (payload : Payload)
| FileUploaded (env : Env) (i : nat)
| Complete (i : nat) (err : option Err).

Definition step (st : State) (ev : Event) : State :=
  match ev with
  | Create env params payload => snd (handler env params payload st)
  | FileUploaded env i =>
      match listeners st !! i with
      | Some l =>
          snd (createScenario env (l_project_id l) (l_scenario_id l) (l_opId l)
                              (l_source l) {["roadNetworkFile" := JStr (l_fileName l)]} st)
      | None => st
      end
  | Complete i err =>
      match services st !! i with
      | Some service => with_db (on_complete service err) st
      | None => st
      end
  end.

Definition run (st : State) (evs : list Event) : State := foldl step st evs.

End Orchestrator.

End Offline.

(** ** Properties of stores and logs used in the statements *)

(** The store hands out identities and timestamps in increasing order:
    every operation row and log entry was written before [clock] and under
    an identity below the sequence. *)
Record Db_wf (d : Db) : Prop := mkDb_wf {
  wf_op_ids : Forall (λ r, or_id r < operations_id_seq d) (operations d);
  wf_op_time : Forall (λ r, or_created_at r < clock d) (operations d);
  wf_log_ids : Forall (λ e, operation_id e < operations_id_seq d) (operations_logs d);
  wf_log_time : Forall (λ e, created_at e < clock d) (operations_logs d)
}.

(** A terminal entry, if there is one, is the last entry. *)
Fixpoint terminal_last (l : list LogEntry) : bool :=
  match l with
  | [] => true
  | e :: l' =>
      match l' with
      | [] => true
      | _ :: _ => negb (is_terminal e) && terminal_last l'
      end
  end.

(** From the first terminal entry on, every entry is terminal. *)
Fixpoint terminal_suffix (l : list LogEntry) : bool :=
  match l with
  | [] => true
  | e :: l' => if is_terminal e then forallb is_terminal l' else terminal_suffix l'
  end.

(** The first entry is the [start] event. *)
Definition starts_with_start (l : list LogEntry) : bool :=
  match l with
  | [] => false
  | e :: _ => is_start e
  end.

(** Entries are in the order of their creation time. *)
Definition time_ordered (l : list LogEntry) : Prop :=
  StronglySorted (λ a b, created_at a < created_at b) l.

Definition is_error_reply (r : Reply) : bool :=
  match r with
  | ReplyScenario _ => false
  | _ => true
  end.

(** The error of the conflict check of [startOperation]. *)
Definition conflict_error : Err :=
  mkErr DataConflictError "Scenario creation already in progress" None.

(** What [startOperation] writes once the conflict check has passed:
    [op.start(..)] followed by [op.log('start', ..)]. *)
Definition start_and_log (d : Db) (projId scId : Z) : Operation * Db :=
  let '(op, d0) := start d "scenario-create" projId scId in
  log d0 op "start" [("message", JStr "Operation started")].

(** The entry the completion handlers write for the error [e]. *)
Definition error_entry (opId : Z) (e : Err) (t : Z) : LogEntry :=
  mkLogEntry opId "error" [("error", JStr (message e))] t.

(** The three settings rows of a new scenario. *)
Definition initial_settings (scId now : Z) : list Setting :=
  [ mkSetting scId "res_gen_at" (JNum 0) now now;
    mkSetting scId "rn_updated_at" (JNum 0) now now;
    mkSetting scId "admin_areas" (JStr "[]") now now ].

(** The checks that come before the insert pass: the project exists and is
    not pending, and the source scenario of a clone is in the project. *)
Definition validated (d : Db) (projId : Z) (source : string) (sourceScenario : option Z)
  : Prop :=
  (∃ status rest, select_project_status d projId = status :: rest ∧ status ≠ "pending")
  ∧ (source = "clone" →
     ∃ src, sourceScenario = Some src ∧ select_scenario d src projId ≠ []).

(** The error of the create handlers for a name that is taken. *)
Definition name_conflict_error (name : string) : Err :=
  mkErr DataConflictError ("Scenario name already in use for this project: " +:+ name) None.

(** Two stores hold the same operations and log. *)
Definition same_operations (d d' : Db) : Prop :=
  operations d = operations d' ∧ operations_id_seq d = operations_id_seq d'
  ∧ operations_logs d = operations_logs d' ∧ clock d = clock d'.

(** The invariant of the log: identities and timestamps are handed out in
    order, the log is in the order of creation, and the entries of every
    operation begin with the [start] event and hold a terminal entry only
    as their last one. *)
Definition log_invariant (d : Db) : Prop :=
  Db_wf d ∧ time_ordered (operations_logs d)
  ∧ ∀ r, r ∈ operations d →
         starts_with_start (entries_of d (or_id r)) = true
         ∧ terminal_last (entries_of d (or_id r)) = true.

(** The same with the weaker clause on terminal entries: a terminal entry
    is followed by terminal entries only. *)
Definition closing_invariant (d : Db) : Prop :=
  Db_wf d ∧ time_ordered (operations_logs d)
  ∧ ∀ r, r ∈ operations d →
         starts_with_start (entries_of d (or_id r)) = true
         ∧ terminal_suffix (entries_of d (or_id r)) = true.

(** The invariant of the server of [routes/scenarios--create.js]: the log
    invariant, and every runner that was started carries the completion
    handler of [createScenario]. *)
Definition routes_invariant (dm : ErrorClass → string) (st : Routes.State) : Prop :=
  log_invariant (Routes.db st)
  ∧ Forall (λ sv, ∃ opId, on_complete sv = Routes.createScenario_complete dm opId)
           (Routes.services st).

Definition offline_invariant (dm : ErrorClass → string) (st : Offline.State) : Prop :=
  closing_invariant (Offline.db st)
  ∧ Forall (λ sv, ∃ opId, on_complete sv = Offline.createScenario_complete dm opId)
           (Offline.services st).

(** The candidate name that [fn] tries at number [no]. *)
Definition candidate (name : string) (no : N) : string :=
  name +:+ " (" +:+ pretty no +:+ ")".

(** ** A small server, for the examples

    Project 1 is set up and has the scenario 1, 'Main scenario'; project 2
    is pending; there is no project 7.  No operation has run yet. *)

Definition ex_dm (c : ErrorClass) : string :=
  match c with
  | ProjectNotFoundError => "Project not found"
  | ScenarioNotFoundError => "Scenario not found"
  | NotFoundError => "Operation does not exist"
  | _ => "Error"
  end.

Definition ex_db : Db :=
  mkDb [mkProject 1 "active"; mkProject 2 "pending"]
       [mkScenario 1 "Main scenario" None "active" true 1 0 0]
       3 [] [] 1 [] 0.

Definition ex_st : Routes.State := Routes.mkState ex_db [] [] [].

Definition ex_ost : Offline.State := Offline.mkState ex_db [] [] [].

Definition ex_env : Routes.Env := Routes.mkEnv None 1000 1001 None None.

Definition ex_env_test : Routes.Env := Routes.mkEnv (Some "test") 1000 1001 None None.

Definition ex_oenv : Offline.Env :=
  Offline.mkEnv None 1000 1000 1001 None None (inr "http://storage/upload").

Definition ex_oenv_test : Offline.Env :=
  Offline.mkEnv (Some "test") 1000 1000 1001 None None (inr "http://storage/upload").

(** A scenario 'B' for project 1, cloned from scenario 1, on the route of
    [config/offline.js]. *)
Definition ex_opayload_clone : Offline.Payload :=
  Offline.mkPayload "B" None "clone" (Some 1).

(** A scenario 'A' for project 1, cloned from scenario 1. *)
Definition ex_payload : Routes.Payload :=
  Routes.mkPayload "A" None "clone" (Some 1) None None "clone" (Some 1).

(** A scenario with the name that is taken. *)
Definition ex_payload_taken : Routes.Payload :=
  Routes.mkPayload "Main scenario" None "osm" None None None "clone" (Some 1).

Definition ex_opayload : Offline.Payload :=
  Offline.mkPayload "Main scenario" None "clone" (Some 1).

(** The scenario that the request [ex_payload] creates, as it is replied. *)
Definition ex_scenario : ScenarioObj :=
  mkScenarioObj (mkScenario 3 "A" (Some "") "pending" false 1 1000 1000)
                (Some [("res_gen_at", JNum 0); ("rn_updated_at", JNum 0)])
                (Some []) None.

(** The operation that the request starts, and the store after it. *)
Definition ex_op : Operation := (start_and_log ex_db 1 3).1.

Definition ex_db_started : Db := (start_and_log ex_db 1 3).2.

(** A failure of the job, and a failure of the store whose message
    happens to contain "not exist". *)
Definition ex_job_error : Err := mkErr OtherError "disk full" None.

Definition ex_store_error : Err :=
  mkErr OtherError "select * from operations - relation operations does not exist" None.

(** ** More of the routes

    The names of an uploaded road network file, as [handleRoadNetworkUpload]
    builds them in [scenarios--create.js] and in [config/offline.js]. *)

Definition upload_fileName (env : Routes.Env) : string :=
  "road-network" +:+ "_" +:+ pretty (Routes.date_now env).

Definition upload_filePath (env : Routes.Env) (scId : Z) : string :=
  "scenario-" +:+ pretty scId +:+ "/" +:+ upload_fileName env.

Definition offline_fileName (env : Offline.Env) : string :=
  "road-network" +:+ "_" +:+ pretty (Offline.date_now env).

Definition offline_filePath (env : Offline.Env) (scId : Z) : string :=
  "scenario-" +:+ pretty scId +:+ "/" +:+ offline_fileName env.

(** No operation of type 'scenario-create' exists for the scenario. *)
Definition no_operation_for (d : Db) (p scId : Z) : Prop :=
  filter (λ r, or_type r = "scenario-create" ∧ or_project_id r = p
               ∧ or_scenario_id r = scId) (operations d) = [].

(** ** The file removal route of [app/config/offline.js]

    [DELETE /projects/{projId}/files/{fileId}]: the files of a project can
    be removed while the project is being set up. *)

Module Files.

Record ProjectFile := mkProjectFile {
  pf_id : Z;
  pf_project_id : Z;
  pf_path : string
}.

(** The two tables the route reads and the objects of the storage bucket,
    by path. *)
Record State := mkState {
  projects : list Project;
  projects_files : list ProjectFile;
  storage : list string
}.

(** The errors the route throws ([app/utils/errors]) and a failure of the
    storage service. *)
Inductive Error :=
| ProjectNotFoundError
| ProjectStatusError (msg : string)
| FileNotFoundError
| StorageError (msg : string).

Inductive Reply :=
| ReplyDeleted                     (* reply({statusCode: 200, message: 'File deleted'}) *)
| ReplyErrorResponse (e : Error).  (* reply(getBoomResponseForError(err)) *)

(** A row of the left join: the project and, when a file matches, its
    [file_id] and [file_path]; both are null when none does. *)
Record Joined := mkJoined {
  j_id : Z;
  j_status : string;
  j_file : option (Z * string)
}.

(** [db('projects').select(..).leftJoin('projects_files', on project_id and
    projects_files.id = :fileId).where('projects.id', projId)] *)
Definition select_joined (st : State) (projId fileId : Z) : list Joined :=
  p ← filter (λ p, p_id p = projId) (projects st);
  match filter (λ f, pf_project_id f = p_id p ∧ pf_id f = fileId) (projects_files st) with
  | [] => [mkJoined (p_id p) (p_status p) None]
  | fs => (λ f, mkJoined (p_id p) (p_status p) (Some (pf_id f, pf_path f))) <$> fs
  end.

(** [db('projects_files').where('id', id).del()] *)
Definition del_file (st : State) (id : Z) : State :=
  mkState (projects st) (filter (λ f, pf_id f ≠ id) (projects_files st)) (storage st).

(** [removeFile(path)] of [app/s3/utils]: the object is removed from the
    bucket, unless the storage service fails. *)
Definition removeFile (failure : option string) (p : string) (st : State)
  : option Error * State :=
  match failure with
  | Some msg => (Some (StorageError msg), st)
  | None => (None, mkState (projects st) (projects_files st)
                           (filter (λ o, o ≠ p) (storage st)))
  end.

(** The route handler; [removeFile_failure] is the outcome of the storage
    service for this request. *)
Definition handler (removeFile_failure : option string) (projId fileId : Z) (st : State)
  : Reply * State :=
  match select_joined st projId fileId with
  | [] => (ReplyErrorResponse ProjectNotFoundError, st)
  | dat :: _ =>
      if negb (String.eqb (j_status dat) "pending")
      then (ReplyErrorResponse
              (ProjectStatusError
                 "Project no longer in the setup phase. Files can not be removed"), st)
      else
        match j_file dat with
        | None => (ReplyErrorResponse FileNotFoundError, st)
        | Some (file_id, file_path) =>
            match removeFile removeFile_failure file_path (del_file st file_id) with
            | (Some e, st') => (ReplyErrorResponse e, st')
            | (None, st') => (ReplyDeleted, st')
            end
        end
  end.

End Files.

(** ** [app/routes/scenarios--get.js] *)

Module Get.

(** A row of [projects_aa], and an admin area as it is attached to a
    scenario: the selected columns and the [selected] flag. *)
Record AdminArea := mkAdminArea {
  aa_id : Z;
  aa_name : string;
  aa_type : string;
  aa_project_id : Z
}.

Record AdminAreaItem := mkAdminAreaItem {
  item_id : Z;
  item_name : string;
  item_type : string;
  item_selected : bool
}.

(** The order of [(a, b) => a.id - b.id] and that of [orderBy('created_at')]. *)
Definition id_le (a b : AdminAreaItem) : Prop := item_id a ≤ item_id b.

Definition created_le (a b : Scenario) : Prop := sc_created_at a ≤ sc_created_at b.

#[global] Instance id_le_dec : RelDecision id_le :=
  λ a b, decide (item_id a ≤ item_id b).

#[global] Instance created_le_dec : RelDecision created_le :=
  λ a b, decide (sc_created_at a ≤ sc_created_at b).

(** [l.sort((a, b) => a.id - b.id)] and [orderBy('created_at')]: the rows
    in ascending order of the column. *)
Definition sort_by_id (l : list AdminAreaItem) : list AdminAreaItem :=
  merge_sort id_le l.

Definition order_by_created_at (l : list Scenario) : list Scenario :=
  merge_sort created_le l.

(** [Promise.map(l, f)] and [l.map(f)] for an [f] that can fail: the
    results in order, or a failure.  When several calls of [Promise.map]
    fail, the one that is reported is the first to fail in time; here it is
    the first of the list. *)
Fixpoint map_result {A B} (f : A → Err + B) (l : list A) : Err + list B :=
  match l with
  | [] => inr []
  | x :: l' =>
      match f x with
      | inl e => inl e
      | inr y =>
          match map_result f l' with
          | inl e => inl e
          | inr ys => inr (y :: ys)
          end
      end
  end.

(** [db('projects_aa').select('id', 'name', 'type').where('project_id', projId)] *)
Definition select_admin_areas (aas : list AdminArea) (projId : Z) : list AdminArea :=
  filter (λ a, aa_project_id a = projId) aas.

(** [db('scenarios_settings').select('value').where('key', 'admin_areas')
    .where('scenario_id', scId).first()] *)
Definition select_selected (d : Db) (scId : Z) : option Setting :=
  head (filter (λ s, set_key s = "admin_areas" ∧ set_scenario_id s = scId)
               (scenarios_settings d)).

(** [db.select('key', 'value').from('scenarios_settings')
    .whereNotIn('key', ['admin_areas']).where('scenario_id', scId)] *)
Definition select_settings (d : Db) (scId : Z) : list Setting :=
  filter (λ s, set_key s ≠ "admin_areas" ∧ set_scenario_id s = scId)
         (scenarios_settings d).

(** [db('scenarios').select('id').where('project_id', projId)
    .where('master', true).first()] *)
Definition select_master (d : Db) (projId : Z) : option Scenario :=
  head (filter (λ s, sc_project_id s = projId ∧ sc_master s = true) (scenarios d)).

(** [db('scenarios').where('project_id', projId).count('id').first()] *)
Definition count_scenarios (d : Db) (projId : Z) : Z :=
  Z.of_nat (length (filter (λ s, sc_project_id s = projId) (scenarios d))).

(** [db.select('id').from('scenarios').where('project_id', projId)
    .orderBy('created_at').offset(offset).limit(limit)]; the store refuses
    a negative offset or limit. *)
Definition select_page (d : Db) (projId offset limit : Z) : Err + list Z :=
  if (offset <? 0) || (limit <? 0)
  then inl (mkErr OtherError "OFFSET and LIMIT must not be negative" None)
  else inr (sc_id <$> take (Z.to_nat limit)
                        (drop (Z.to_nat offset)
                           (order_by_created_at
                              (filter (λ s, sc_project_id s = projId) (scenarios d))))).

Section Loader.

Variable default_message : ErrorClass → string.

(** [JSON.parse] and, for a parsed value, [v.indexOf(id)]: the values of
    the language are a parameter; both can throw. *)
Variable V : Type.
Variable JSON_parse : jsval → Err + V.
Variable indexOf : V → Z → Err + Z.

(** [getSourceData(db, 'scenario', id)] and [getOperationData(db, name,
    id)] of [app/utils/utils], which is not among the sources. *)
Variable SD OD : Type.
Variable getSourceData : Db → string → Z → Err + SD.
Variable getOperationData : Db → string → Z → Err + OD.

(** A scenario as the routes reply it. *)
Record Loaded := mkLoaded {
  l_row : Scenario;
  l_admin_areas : option (list AdminAreaItem);
  l_data : gmap string (V + jsval);
  l_sourceData : SD;
  l_gen_analysis : OD;
  l_scen_create : OD
}.

Inductive Reply :=
| ReplyScenarios (l : list Loaded) (count : Z)  (* request.count = ..; reply(scenarios) *)
| ReplyScenario (s : Loaded)                    (* reply(scenario) *)
| ReplyErrorResponse (e : Err).                 (* reply(getBoomResponseForError(err)) *)

(** Quick and dirty way to parse type: if the parsing fails assume it's a
    string and carry on. *)
Definition parseType (val : jsval) : V + jsval :=
  match JSON_parse val with
  | inr v => inl v
  | inl _ => inr val
  end.

Definition attachScenarioSettings (d : Db) (scenario : Scenario)
  : gmap string (V + jsval) :=
  foldl (λ dat o, <[set_key o := parseType (set_value o)]> dat) ∅
        (select_settings d (sc_id scenario)).

Definition attachAdminAreas (d : Db) (aas : list AdminArea) (scenario : Scenario)
  : Err + option (list AdminAreaItem) :=
  let aa := select_admin_areas aas (sc_project_id scenario) in
  let selected := select_selected d (sc_id scenario) in
  match aa with
  | [] => inr None
  | _ :: _ =>
      match match selected with
            | Some s => match JSON_parse (set_value s) with
                        | inl e => inl e
                        | inr v => inr (Some v)
                        end
            | None => inr None
            end with
      | inl e => inl e
      | inr selected =>
          (* Mark selected as selected. *)
          match map_result
                  (λ o, match selected with
                        | None => inr (mkAdminAreaItem (aa_id o) (aa_name o) (aa_type o) false)
                        | Some v =>
                            match indexOf v (aa_id o) with
                            | inl e => inl e
                            | inr i => inr (mkAdminAreaItem (aa_id o) (aa_name o) (aa_type o)
                                                            (negb (i =? -1)))
                            end
                        end) aa with
          | inl e => inl e
          | inr items => inr (Some (sort_by_id items))
          end
      end
  end.

Definition loadScenario (d : Db) (aas : list AdminArea) (projId scId : Z) : Err + Loaded :=
  match head (order_by_created_at (select_scenario d scId projId)) with
  | None => inl (new_error default_message ScenarioNotFoundError None)
  | Some scenario =>
      match attachAdminAreas d aas scenario with
      | inl e => inl e
      | inr admin_areas =>
          let dat := attachScenarioSettings d scenario in
          match getSourceData d "scenario" (sc_id scenario) with
          | inl e => inl e
          | inr sourceData =>
              match getOperationData d "generate-analysis" (sc_id scenario) with
              | inl e => inl e
              | inr gen_analysis =>
                  match getOperationData d "scenario-create" (sc_id scenario) with
                  | inl e => inl e
                  | inr scen_create =>
                      inr (mkLoaded scenario admin_areas dat sourceData gen_analysis
                                    scen_create)
                  end
              end
          end
      end
  end.

Definition singleScenarioHandler (d : Db) (aas : list AdminArea) (projId scId : Z)
  : Reply :=
  match loadScenario d aas projId scId with
  | inr scenario => ReplyScenario scenario
  | inl err => ReplyErrorResponse err
  end.

(** [GET /projects/{projId}/scenarios] *)
Definition list_handler (d : Db) (aas : list AdminArea) (projId page limit : Z) : Reply :=
  let offset := (page - 1) * limit in
  let count := count_scenarios d projId in
  match select_page d projId offset limit with
  | inl error => ReplyErrorResponse error
  | inr ids =>
      match map_result (λ id, loadScenario d aas projId id) ids with
      | inl error => ReplyErrorResponse error
      | inr scenarios => ReplyScenarios scenarios count
      end
  end.

(** [GET /projects/{projId}/scenarios/0] *)
Definition master_handler (d : Db) (aas : list AdminArea) (projId : Z) : Reply :=
  match select_master d projId with
  | None => ReplyErrorResponse (new_error default_message ProjectNotFoundError None)
  | Some masterProj =>
      (* Fake scenario load. *)
      singleScenarioHandler d aas projId (sc_id masterProj)
  end.

End Loader.

End Get.

(** The columns of an admin area that are read from the table, and the
    same columns of an area attached to a scenario. *)
Definition aa_columns (a : Get.AdminArea) : Z * string * string :=
  (Get.aa_id a, Get.aa_name a, Get.aa_type a).

Definition item_columns (i : Get.AdminAreaItem) : Z * string * string :=
  (Get.item_id i, Get.item_name i, Get.item_type i).

(** The scenarios of a project, in the order of the list route. *)
Definition project_scenarios (d : Db) (projId : Z) : list Scenario :=
  Get.order_by_created_at (filter (λ s, sc_project_id s = projId) (scenarios d)).

(** An admin area of the table as it is attached when nothing is selected. *)
Definition unselected (o : Get.AdminArea) : Get.AdminAreaItem :=
  Get.mkAdminAreaItem (Get.aa_id o) (Get.aa_name o) (Get.aa_type o) false.

(** A scenario 'C' for project 1 with an uploaded road network, and an
    environment in which the object storage refuses the upload. *)
Definition ex_file : File := mkFile "/tmp/upload-1".

Definition ex_payload_new : Routes.Payload :=
  Routes.mkPayload "C" None "new" None None (Some ex_file) "clone" (Some 1).

Definition ex_env_putfail : Routes.Env :=
  Routes.mkEnv None 1000 1001 None (Some (mkErr OtherError "upload refused" None)).

(** A scenario 'D' for project 1 whose road network is uploaded later, on
    the route of [config/offline.js], and an environment in which the
    source database can not be closed. *)
Definition ex_opayload_new : Offline.Payload := Offline.mkPayload "D" None "new" None.

Definition ex_oenv_closefail : Offline.Env :=
  Offline.mkEnv None 1000 1000 1001 None (Some (mkErr OtherError "database in use" None))
                (inr "http://storage/upload").

(** The projects of [ex_db] with one file of the pending project. *)
Definition ex_fst : Files.State :=
  Files.mkState [mkProject 1 "active"; mkProject 2 "pending"]
                [Files.mkProjectFile 5 2 "project-2/profile"]
                ["project-2/profile"; "project-2/villages"].

(** A store with two scenarios of project 1 and the settings of the first;
    the admin areas of the projects. *)
Definition ex_gdb : Db :=
  mkDb [mkProject 1 "active"; mkProject 2 "pending"]
       [mkScenario 1 "Main scenario" None "active" true 1 0 0;
        mkScenario 2 "Second" None "active" false 1 5 5]
       3
       [mkSetting 1 "res_gen_at" (JNum 0) 0 0;
        mkSetting 1 "admin_areas" (JStr "[10]") 0 0]
       [] 1 [] 6.

Definition ex_aas : list Get.AdminArea :=
  [Get.mkAdminArea 20 "North" "district" 1;
   Get.mkAdminArea 10 "South" "district" 1;
   Get.mkAdminArea 30 "East" "district" 2].

(** Values for the examples: a number or an array of numbers.  [ex_parse]
    reads the numbers and the two texts that the examples store. *)
Definition ex_parse (v : jsval) : Err + (Z + list Z) :=
  match v with
  | JNum n => inr (inl n)
  | JStr s =>
      if String.eqb s "[]" then inr (inr [])
      else if String.eqb s "[10]" then inr (inr [10])
      else inl (mkErr OtherError "Unexpected token in JSON" None)
  | JUndefined => inl (mkErr OtherError "Unexpected token u in JSON" None)
  end.

Fixpoint index_from (l : list Z) (x i : Z) : Z :=
  match l with
  | [] => -1
  | y :: l' => if decide (y = x) then i else index_from l' x (i + 1)
  end.

Definition ex_indexOf (v : Z + list Z) (x : Z) : Err + Z :=
  match v with
  | inr l => inr (index_from l x 0)
  | inl _ => inl (mkErr TypeError "selected.indexOf is not a function" None)
  end.

Definition ex_getData (d : Db) (name : string) (id : Z) : Err + unit := inr tt.

Definition ex_loadScenario :=
  Get.loadScenario ex_dm (Z + list Z) ex_parse ex_indexOf unit unit ex_getData ex_getData.

Definition ex_list_handler :=
  Get.list_handler ex_dm (Z + list Z) ex_parse ex_indexOf unit unit ex_getData ex_getData.

Definition ex_master_handler :=
  Get.master_handler ex_dm (Z + list Z) ex_parse ex_indexOf unit unit ex_getData ex_getData.

(** ** The Operation model *)

Lemma entries_of_append_log d e id :
  entries_of (append_log e d) id =
  entries_of d id ++ (if decide (operation_id e = id) then [e] else []).
Proof.
  unfold entries_of, append_log; simpl.
  by rewrite filter_app.
Qed.

Lemma entries_of_fresh d n id :
  Forall (λ e, operation_id e < n) (operations_logs d) →
  n ≤ id →
  entries_of d id = [].
Proof.
  intros Hids Hle. unfold entries_of.
  induction Hids as [|e l He _ IH]; [reflexivity|].
  rewrite filter_cons. destruct (decide (operation_id e = id)); [lia|exact IH].
Qed.

Lemma most_recent_snoc l r :
  Forall (λ a, or_created_at a <= or_created_at r) l →
  most_recent (l ++ [r]) = Some r.
Proof.
  intros Hl. unfold most_recent. rewrite foldl_app. simpl.
  fold (most_recent l).
  destruct (most_recent l) as [a|] eqn:Ha; [|reflexivity].
  assert (a ∈ l) as Hin.
  { clear Hl. revert a Ha. unfold most_recent.
    induction l as [|x l IH] using rev_ind; intros a Ha; [discriminate|].
    rewrite foldl_app in Ha. simpl in Ha. rewrite elem_of_app, list_elem_of_singleton.
    destruct (foldl _ None l) as [b|] eqn:Hb.
    - destruct (or_created_at b <=? or_created_at x); simplify_eq; eauto.
    - simplify_eq. by right. }
  rewrite Forall_forall in Hl. specialize (Hl a Hin).
  apply Z.leb_le in Hl. by rewrite Hl.
Qed.

Lemma terminal_last_snoc l e :
  existsb is_terminal l = false → terminal_last (l ++ [e]) = true.
Proof.
  induction l as [|x l IH]; [reflexivity|].
  simpl. intros H. apply orb_false_iff in H as [Hx Hl].
  specialize (IH Hl). destruct l as [|y l]; simpl in *.
  - by rewrite Hx.
  - rewrite Hx. simpl. exact IH.
Qed.

Lemma isCompleted_finish d op dat :
  isCompleted (fst (finish d op None dat)) = true.
Proof.
  unfold isCompleted, finish, log; simpl.
  rewrite existsb_app. simpl. by rewrite orb_true_r.
Qed.

Lemma isStarted_not_completed op :
  isStarted op = true → isCompleted op = false.
Proof.
  unfold isStarted, isCompleted. intros H.
  apply andb_true_iff in H as [_ H]. by apply negb_true_iff in H.
Qed.

(** ** The start protocol *)

(** [startOperation] is the same function in both files. *)
Lemma offline_startOperation_eq dm :
  Offline.startOperation dm = Routes.startOperation dm
  ∧ Offline.startOperation_loaded dm = Routes.startOperation_loaded dm.
Proof. split; reflexivity. Qed.

Lemma startOperation_loaded_started dm op projId scId d :
  isStarted op = true →
  Routes.startOperation_loaded dm (inr op) projId scId d = (inl conflict_error, d).
Proof.
  intros Hs. unfold Routes.startOperation_loaded, bind, Routes.conflict_check.
  by rewrite Hs.
Qed.

Lemma startOperation_loaded_passes dm loaded projId scId d :
  Routes.conflict_check dm loaded d = (inr tt, d) →
  Routes.startOperation_loaded dm loaded projId scId d =
  (inr (start_and_log d projId scId).1, (start_and_log d projId scId).2).
Proof.
  intros Hc. unfold Routes.startOperation_loaded, bind. by rewrite Hc.
Qed.

Lemma conflict_check_cases dm loaded d :
  Routes.conflict_check dm loaded d = (inr tt, d) ∨
  ∃ e, Routes.conflict_check dm loaded d = (inl e, d).
Proof.
  unfold Routes.conflict_check.
  destruct loaded as [err|op].
  - destruct (includes _ _); [by left|right; by eexists].
  - destruct (isStarted op); [right; by eexists|by left].
Qed.

(** What a successful [startOperation] wrote. *)
Lemma startOperation_ok_inv dm projId scId d op d1 :
  Routes.startOperation dm projId scId d = (inr op, d1) →
  (op, d1) = start_and_log d projId scId.
Proof.
  unfold Routes.startOperation. intros H.
  destruct (conflict_check_cases dm
              (loadByData dm d "scenario-create" projId scId) d) as [Hc|[e Hc]].
  - rewrite (startOperation_loaded_passes _ _ _ _ _ Hc) in H.
    simplify_eq. by destruct (start_and_log d projId scId).
  - unfold Routes.startOperation_loaded, bind in H. rewrite Hc in H. discriminate.
Qed.

(** After a successful start on a well-formed store, the most recent
    operation of the triple is the one just started, and it is started. *)
Lemma loadByData_after_start dm projId scId d op d1 :
  Db_wf d →
  Routes.startOperation dm projId scId d = (inr op, d1) →
  loadByData dm d1 "scenario-create" projId scId = inr op ∧ isStarted op = true
  ∧ op_id op = operations_id_seq d.
Proof.
  intros Hwf H. apply startOperation_ok_inv in H. unfold start_and_log in H.
  simpl in H. injection H as -> ->. split; [|split; reflexivity].
  unfold loadByData. simpl.
  rewrite filter_app, filter_cons_True, filter_nil by done.
  rewrite most_recent_snoc.
  - unfold load_row; simpl. f_equal. f_equal.
    do 2 rewrite entries_of_append_log. simpl.
    rewrite !decide_True by done.
    rewrite (entries_of_fresh _ (operations_id_seq d)) by (try lia; apply Hwf).
    reflexivity.
  - simpl. apply Forall_forall. intros a Ha.
    apply list_elem_of_filter in Ha as [_ Ha].
    pose proof (wf_op_time d Hwf) as Ht. rewrite Forall_forall in Ht.
    specialize (Ht a Ha). lia.
Qed.

(** C1: when the most recent operation of the triple is started, the start
    protocol of both route files fails with the conflict error and leaves
    the store as it was: no operation row and no log entry is written.  In
    particular a second call made after a first call succeeded, on a store
    that hands out timestamps and identities in order, reports the
    conflict. *)
Theorem startOperation_conflict dm d projId scId :
  (∀ op, loadByData dm d "scenario-create" projId scId = inr op →
         isStarted op = true →
         Routes.startOperation dm projId scId d = (inl conflict_error, d)
         ∧ Offline.startOperation dm projId scId d = (inl conflict_error, d))
  ∧ (∀ op d1, Db_wf d →
              Routes.startOperation dm projId scId d = (inr op, d1) →
              Routes.startOperation dm projId scId d1 = (inl conflict_error, d1)
              ∧ Offline.startOperation dm projId scId d1 = (inl conflict_error, d1)
              ∧ operations (snd (Routes.startOperation dm projId scId d1)) = operations d1
              ∧ operations_logs (snd (Routes.startOperation dm projId scId d1))
                = operations_logs d1).
Proof.
  assert (∀ d' op, loadByData dm d' "scenario-create" projId scId = inr op →
                   isStarted op = true →
                   Routes.startOperation dm projId scId d' = (inl conflict_error, d'))
    as Hconf.
  { intros d' op Hl Hs. unfold Routes.startOperation. rewrite Hl.
    by apply startOperation_loaded_started. }
  split.
  - intros op Hl Hs. change (Offline.startOperation dm) with (Routes.startOperation dm).
    split; by eapply Hconf.
  - intros op d1 Hwf H1.
    destruct (loadByData_after_start _ _ _ _ _ _ Hwf H1) as (Hl & Hs & _).
    change (Offline.startOperation dm) with (Routes.startOperation dm).
    by rewrite (Hconf _ _ Hl Hs).
Qed.

(** A load that fails can only fail with the NotFoundError of the model,
    and [startOperation] continues from that result. *)
Lemma loadByData_error dm d type projId scId err :
  loadByData dm d type projId scId = inl err →
  err = new_error dm NotFoundError None.
Proof. unfold loadByData. case_match; congruence. Qed.

(** C4 (amended): the rejection handler of the load looks at the message
    only.  A load error whose message contains "not exist" is taken as
    "no conflicting run" and a new operation is started; a load error whose
    message does not contain it is passed on unchanged and nothing is
    written.  The error of a load that finds no operation is the
    NotFoundError, so the protocol continues from it exactly when that
    message contains "not exist". *)
Theorem startOperation_load_failure dm projId scId d err :
  (includes "not exist" (message err) = true →
     Routes.startOperation_loaded dm (inl err) projId scId d
       = (inr (start_and_log d projId scId).1, (start_and_log d projId scId).2)
     ∧ Offline.startOperation_loaded dm (inl err) projId scId d
       = (inr (start_and_log d projId scId).1, (start_and_log d projId scId).2))
  ∧ (includes "not exist" (message err) = false →
     Routes.startOperation_loaded dm (inl err) projId scId d = (inl err, d)
     ∧ Offline.startOperation_loaded dm (inl err) projId scId d = (inl err, d))
  ∧ (loadByData dm d "scenario-create" projId scId = inl err →
     err = new_error dm NotFoundError None
     ∧ Routes.startOperation dm projId scId d
       = Routes.startOperation_loaded dm (inl err) projId scId d
     ∧ Offline.startOperation dm projId scId d
       = Offline.startOperation_loaded dm (inl err) projId scId d).
Proof.
  change (Offline.startOperation_loaded dm) with (Routes.startOperation_loaded dm).
  change (Offline.startOperation dm) with (Routes.startOperation dm).
  split; [|split].
  - intros Hm. split; apply startOperation_loaded_passes;
      unfold Routes.conflict_check; by rewrite Hm.
  - intros Hm. unfold Routes.startOperation_loaded, bind, Routes.conflict_check.
    by rewrite Hm.
  - intros Hl. split; [by eapply loadByData_error|].
    unfold Routes.startOperation. by rewrite Hl.
Qed.

(** ** The completion handler *)

Lemma loadById_inv dm d opId op :
  loadById dm d opId = inr op →
  ∃ r rest, filter (λ r, or_id r = opId) (operations d) = r :: rest
            ∧ or_id r = opId ∧ op = load_row d r.
Proof.
  unfold loadById. destruct (filter _ _) as [|r rest] eqn:Hf; [discriminate|].
  intros [= <-]. exists r, rest. split; [done|split; [|done]].
  assert (r ∈ filter (λ r, or_id r = opId) (operations d)) as Hin
    by (rewrite Hf; left).
  by apply list_elem_of_filter in Hin as [? _].
Qed.

Lemma loadById_append_log dm d e opId op :
  loadById dm d opId = inr op →
  ∃ op', loadById dm (append_log e d) opId = inr op'
         ∧ op_entries op' = op_entries op ++ (if decide (operation_id e = opId) then [e] else []).
Proof.
  intros H. destruct (loadById_inv _ _ _ _ H) as (r & rest & Hf & Hid & ->).
  unfold loadById. simpl. rewrite Hf. eexists. split; [reflexivity|].
  unfold load_row; simpl. rewrite entries_of_append_log. by rewrite Hid.
Qed.

(** C2: the completion signal carries the error [e] and the operation
    [opId] loads.  If it is not completed, the handler of
    [routes/scenarios--create.js] appends exactly one entry, the [error]
    entry with the message, and the handler of [config/offline.js] appends
    that entry followed by the entry of [finish()]; in both cases the
    operation then loads as completed.  If it is already completed, the
    store is left as it is. *)
Theorem complete_with_error dm d opId e op :
  loadById dm d opId = inr op →
  (isCompleted op = false →
     operations_logs (Routes.createScenario_complete dm opId (Some e) d)
       = operations_logs d ++ [error_entry opId e (clock d)]
     ∧ operations_logs (Offline.createScenario_complete dm opId (Some e) d)
       = operations_logs d ++ [error_entry opId e (clock d);
                               mkLogEntry opId "finish" [] (clock d + 1)]
     ∧ (∃ op', loadById dm (Routes.createScenario_complete dm opId (Some e) d) opId = inr op'
               ∧ op_entries op' = op_entries op ++ [error_entry opId e (clock d)]
               ∧ isCompleted op' = true)
     ∧ (∃ op', loadById dm (Offline.createScenario_complete dm opId (Some e) d) opId = inr op'
               ∧ isCompleted op' = true))
  ∧ (isCompleted op = true →
     Routes.createScenario_complete dm opId (Some e) d = d
     ∧ Offline.createScenario_complete dm opId (Some e) d = d).
Proof.
  intros Hl.
  destruct (loadById_inv _ _ _ _ Hl) as (r & rest & Hf & Hid & Hop).
  assert (op_id op = opId) as Hopid by (by rewrite Hop).
  unfold Routes.createScenario_complete, Offline.createScenario_complete.
  rewrite Hl. split; intros Hc; rewrite Hc; simpl; [|done].
  rewrite Hopid. fold (error_entry opId e (clock d)).
  split; [done|]. split; [by rewrite <- app_assoc|].
  split.
  - destruct (loadById_append_log dm d (error_entry opId e (clock d)) opId op Hl)
      as (op' & Hl' & He').
    simpl in He'. rewrite decide_True in He' by done.
    exists op'. split; [exact Hl'|]. split; [exact He'|].
    unfold isCompleted. rewrite He', existsb_app. simpl. by rewrite orb_true_r.
  - destruct (loadById_append_log dm d (error_entry opId e (clock d)) opId op Hl)
      as (op1 & Hl1 & He1).
    destruct (loadById_append_log dm _ (mkLogEntry opId "finish" [] (clock d + 1))
                opId op1 Hl1) as (op2 & Hl2 & He2).
    simpl in He1, He2. rewrite decide_True in He1, He2 by done.
    exists op2. split; [exact Hl2|].
    unfold isCompleted. rewrite He2, existsb_app. simpl. by rewrite orb_true_r.
Qed.

Lemma handler_chain_steps dm env params payload :
  Routes.handler_chain dm env params payload =
  (Routes.check_project dm params >>
   Routes.check_source dm params payload >>
   let* scenario := Routes.create_base dm env params payload in
   let* op := Routes.lift_db (Routes.startOperation dm (projId params)
                                                    (sc_id (row scenario))) in
   let* dat := Routes.build_data env payload scenario op in
   Routes.createScenario dm env (projId params) (sc_id (row scenario)) (getId op) dat >>
   ret scenario)%promise.
Proof. reflexivity. Qed.

Local Open Scope promise_scope.

Lemma check_project_snd dm params st :
  (Routes.check_project dm params st).2 = st.
Proof.
  unfold Routes.check_project, throw, ret.
  destruct (select_project_status _ _); [done|]. by destruct (String.eqb _ _).
Qed.

Lemma check_source_snd dm params payload st :
  (Routes.check_source dm params payload st).2 = st.
Proof.
  unfold Routes.check_source, throw, ret.
  destruct (String.eqb _ _); [|done]. by destruct (from_option _ _ _).
Qed.

Lemma create_base_cases dm env params payload st :
  (∃ e, Routes.create_base dm env params payload st = (inl e, st))
  ∨ (∃ scenario d1,
       Routes.insert_failure env = None
       ∧ insert_scenario (Routes.db st) (Routes.name payload)
           (Some (default "" (Routes.description payload))) "pending" false
           (projId params) (Routes.now env) (Routes.now env) = inr (scenario, d1)
       ∧ Routes.create_base dm env params payload st =
         (inr (mkScenarioObj scenario
                 (Some [("res_gen_at", JNum 0); ("rn_updated_at", JNum 0)])
                 (Some []) None),
          Routes.with_db
            (λ _, batchInsert_settings d1
                    (initial_settings (sc_id scenario) (Routes.now env))) st)).
Proof.
  unfold Routes.create_base, bind, catch, Routes.insert_info, throw, ret.
  destruct (Routes.insert_failure env) as [e|].
  - left. destruct (decide _); by eexists.
  - destruct (insert_scenario _ _ _ _ _ _ _ _) as [e|[scenario d1]] eqn:Hi.
    + left. destruct (decide _); by eexists.
    + right. exists scenario, d1. done.
Qed.

Lemma build_data_cases env payload scenario op st :
  ∃ r st', Routes.build_data env payload scenario op st = (r, st')
           ∧ Routes.db st' = Routes.db st ∧ Routes.services st' = Routes.services st.
Proof.
  unfold Routes.build_data, bind, ret, Routes.handleRoadNetworkUpload,
    Routes.putFileToS3, Routes.removeLocalFile, throw.
  destruct (String.eqb (Routes.poiSource payload) "clone");
    destruct (String.eqb (Routes.roadNetworkSource payload) "new");
    try destruct (Routes.roadNetworkFile payload);
    try destruct (Routes.putFile_failure env);
    try destruct (String.eqb (Routes.roadNetworkSource payload) "clone");
    try destruct (String.eqb (Routes.roadNetworkSource payload) "wbcatalog");
    by eexists _, _.
Qed.

Lemma createScenario_cases dm env projId scId opId dat st :
  ∃ sd,
    Routes.createScenario dm env projId scId opId dat st =
    (inr tt,
     Routes.mkState (Routes.db st)
       (Routes.services st ++
          (if decide (Routes.DS_ENV env = Some "test") then []
           else [mkServiceRunner "scenario-create" sd
                                 (Routes.createScenario_complete dm opId)]))
       (Routes.s3 st) (Routes.removed_local st)).
Proof.
  unfold Routes.createScenario. destruct (decide _).
  - exists ∅. unfold ret. rewrite app_nil_r. by destruct st.
  - by eexists.
Qed.

Lemma startOperation_cases dm projId scId d :
  (∃ e, Routes.startOperation dm projId scId d = (inl e, d))
  ∨ Routes.startOperation dm projId scId d
    = (inr (start_and_log d projId scId).1, (start_and_log d projId scId).2).
Proof.
  unfold Routes.startOperation.
  destruct (conflict_check_cases dm
              (loadByData dm d "scenario-create" projId scId) d) as [Hc|[e Hc]].
  - right. by apply startOperation_loaded_passes.
  - left. exists e. unfold Routes.startOperation_loaded, bind. by rewrite Hc.
Qed.

(** Every way the chain of [handler] can go. *)
Lemma handler_chain_inv dm env params payload st r st' :
  Routes.handler_chain dm env params payload st = (r, st') →
  (∃ e, r = inl e ∧ st' = st)
  ∨ ∃ scenario d1,
      Routes.insert_failure env = None
      ∧ insert_scenario (Routes.db st) (Routes.name payload)
          (Some (default "" (Routes.description payload))) "pending" false
          (projId params) (Routes.now env) (Routes.now env) = inr (scenario, d1)
      ∧ let d2 := batchInsert_settings d1
                    (initial_settings (sc_id scenario) (Routes.now env)) in
        ((∃ e, r = inl e
               ∧ Routes.startOperation dm (projId params) (sc_id scenario) d2 = (inl e, d2)
               ∧ st' = Routes.with_db (λ _, d2) st)
         ∨ (∃ op d3,
              Routes.startOperation dm (projId params) (sc_id scenario) d2 = (inr op, d3)
              ∧ Routes.db st' = d3
              ∧ ((∃ e, r = inl e ∧ Routes.services st' = Routes.services st)
                 ∨ (∃ sd,
                      r = inr (mkScenarioObj scenario
                                 (Some [("res_gen_at", JNum 0); ("rn_updated_at", JNum 0)])
                                 (Some []) None)
                      ∧ Routes.services st' =
                        Routes.services st ++
                          (if decide (Routes.DS_ENV env = Some "test") then []
                           else [mkServiceRunner "scenario-create" sd
                                   (Routes.createScenario_complete dm (op_id op))]))))).
Proof.
  rewrite handler_chain_steps. unfold bind at 1.
  pose proof (check_project_snd dm params st) as Hp.
  destruct (Routes.check_project dm params st) as [[e|[]] s0]; simpl in Hp; subst s0.
  { intros [= <- <-]. left. by eexists. }
  unfold bind at 1.
  pose proof (check_source_snd dm params payload st) as Hs.
  destruct (Routes.check_source dm params payload st) as [[e|[]] s0]; simpl in Hs; subst s0.
  { intros [= <- <-]. left. by eexists. }
  unfold bind at 1.
  destruct (create_base_cases dm env params payload st) as [[e ->]|(sc & d1 & Hf & Hi & ->)].
  { intros [= <- <-]. left. by eexists. }
  intros H. right. exists sc, d1. split; [done|]. split; [done|].
  set (d2 := batchInsert_settings d1 _) in *.
  unfold bind at 1 in H. unfold Routes.lift_db at 1 in H. simpl in H.
  destruct (startOperation_cases dm (projId params) (sc_id sc) d2) as [[e He]|Hok].
  { rewrite He in H. injection H as <- <-. left. exists e. done. }
  rewrite Hok in H.
  destruct (start_and_log d2 (projId params) (sc_id sc)) as [op d3] eqn:Hsl.
  simpl in H. right. exists op, d3. split; [done|].
  unfold bind at 1 in H.
  edestruct (build_data_cases env payload) as (rb & sb & Hb & Hdb & Hsv).
  rewrite Hb in H. clear Hb.
  destruct rb as [e|dat].
  { injection H as <- <-. split; [by rewrite Hdb|]. left. exists e. by rewrite Hsv. }
  unfold bind at 1 in H.
  edestruct (createScenario_cases dm env) as (sd & Hcs).
  rewrite Hcs in H. clear Hcs.
  unfold ret in H. injection H as <- <-. simpl. split; [by rewrite Hdb|].
  right. exists sd. by rewrite Hsv.
Qed.

(** What [handler] does with the outcome of its chain. *)
Lemma handler_outcome dm env params payload st :
  ∃ r st', Routes.handler_chain dm env params payload st = (r, st')
    ∧ Routes.db (Routes.handler dm env params payload st).2 = Routes.db st'
    ∧ Routes.services (Routes.handler dm env params payload st).2 = Routes.services st'
    ∧ match r with
      | inr scenario =>
          Routes.handler dm env params payload st = (ReplyScenario scenario, st')
      | inl e =>
          is_error_reply (Routes.handler dm env params payload st).1 = true
          ∧ ((Routes.handler dm env params payload st).1 = ReplyBadRequest (message e)
             ∨ (Routes.handler dm env params payload st).1 = ReplyErrorResponse e)
      end.
Proof.
  unfold Routes.handler.
  destruct (Routes.handler_chain dm env params payload st) as [[e|sc] st'].
  - exists (inl e), st'. split; [done|].
    destruct (includes _ _); destruct (Routes.roadNetworkFile payload); simpl; eauto 10.
  - exists (inr sc), st'. done.
Qed.

Lemma offline_handler_outcome dm env params payload st :
  ∃ r st', Offline.handler_chain dm env params payload st = (r, st')
    ∧ (Offline.handler dm env params payload st).2 = st'
    ∧ match r with
      | inr replied => (Offline.handler dm env params payload st).1 = replied
      | inl e =>
          ∃ rep, (Offline.handler dm env params payload st).1 = Some rep
                 ∧ is_error_reply rep = true
      end.
Proof.
  unfold Offline.handler.
  destruct (Offline.handler_chain dm env params payload st) as [[e|rep] st'].
  - exists (inl e), st'. split; [done|]. split; [done|].
    destruct (err_class e); eauto.
  - exists (inr rep), st'. done.
Qed.

(** C5 (amended): the create handlers check the project, then its status,
    then the source scenario of a clone, and fail with
    ProjectNotFoundError, DataConflictError('Project setup not completed')
    and ScenarioNotFoundError in that order of precedence; the duplicate
    handler looks the source scenario up first and fails with
    ScenarioNotFoundError when the project has no such scenario, which
    includes a project that does not exist, and otherwise hands over to
    the create handler.  Whenever the chain fails with the state it
    started from, the caller gets an error reply and the state holds no
    new scenario, operation or runner. *)
Theorem handler_validation dm env oenv params payload opayload st ost :
  (* routes/scenarios--create.js *)
  (select_project_status (Routes.db st) (projId params) = [] →
     Routes.handler_chain dm env params payload st
       = (inl (new_error dm ProjectNotFoundError None), st))
  ∧ (∀ rest, select_project_status (Routes.db st) (projId params) = "pending" :: rest →
     Routes.handler_chain dm env params payload st
       = (inl (mkErr DataConflictError "Project setup not completed" None), st))
  ∧ (∀ status rest src,
       select_project_status (Routes.db st) (projId params) = status :: rest →
       status ≠ "pending" →
       Routes.roadNetworkSource payload = "clone" →
       Routes.roadNetworkSourceScenario payload = Some src →
       select_scenario (Routes.db st) src (projId params) = [] →
       Routes.handler_chain dm env params payload st
         = (inl (mkErr ScenarioNotFoundError "Source scenario for cloning not found" None),
            st))
  ∧ (∀ e, Routes.handler_chain dm env params payload st = (inl e, st) →
       is_error_reply (Routes.handler dm env params payload st).1 = true
       ∧ Routes.db (Routes.handler dm env params payload st).2 = Routes.db st
       ∧ Routes.services (Routes.handler dm env params payload st).2 = Routes.services st)
  (* the duplicate route *)
  ∧ (∀ scId, head (select_scenario (Routes.db st) scId (projId params)) = None →
       Routes.duplicate dm env (projId params) scId st
         = Some (ReplyErrorResponse (new_error dm ScenarioNotFoundError None), st))
  ∧ (∀ scId scenario name,
       head (select_scenario (Routes.db st) scId (projId params)) = Some scenario →
       Routes.findName (Routes.db st) (projId params) (sc_name scenario) = Some name →
       Routes.duplicate dm env (projId params) scId st
         = Some (Routes.handler dm env (mkParams (projId params) (Some scId))
                   (Routes.mkPayload name (sc_description scenario) "clone" (Some scId)
                                     None None "clone" (Some scId)) st))
  (* config/offline.js *)
  ∧ (select_project_status (Offline.db ost) (projId params) = [] →
     Offline.handler_chain dm oenv params opayload ost
       = (inl (new_error dm ProjectNotFoundError None), ost))
  ∧ (∀ rest, select_project_status (Offline.db ost) (projId params) = "pending" :: rest →
     Offline.handler_chain dm oenv params opayload ost
       = (inl (mkErr DataConflictError "Project setup not completed" None), ost))
  ∧ (∀ status rest src,
       select_project_status (Offline.db ost) (projId params) = status :: rest →
       status ≠ "pending" →
       Offline.roadNetworkSource opayload = "clone" →
       Offline.roadNetworkSourceScenario opayload = Some src →
       select_scenario (Offline.db ost) src (projId params) = [] →
       Offline.handler_chain dm oenv params opayload ost
         = (inl (new_error dm ScenarioNotFoundError None), ost))
  ∧ (∀ e, Offline.handler_chain dm oenv params opayload ost = (inl e, ost) →
       (∃ rep, (Offline.handler dm oenv params opayload ost).1 = Some rep
               ∧ is_error_reply rep = true)
       ∧ (Offline.handler dm oenv params opayload ost).2 = ost).
Proof.
  repeat apply conj.
  - intros Hp. rewrite handler_chain_steps. unfold bind at 1, Routes.check_project.
    by rewrite Hp.
  - intros rest Hp. rewrite handler_chain_steps. unfold bind at 1, Routes.check_project.
    by rewrite Hp.
  - intros status rest src Hp Hs Hc Hsrc Hnone.
    rewrite handler_chain_steps. unfold bind at 1, Routes.check_project.
    rewrite Hp. apply String.eqb_neq in Hs. rewrite Hs. unfold ret at 1.
    unfold bind at 1, Routes.check_source. rewrite Hc, Hsrc. simpl. by rewrite Hnone.
  - intros e He.
    destruct (handler_outcome dm env params payload st) as (r & st' & Hch & Hdb & Hsv & Hr).
    rewrite He in Hch. injection Hch as <- <-. by destruct Hr.
  - intros scId Hn. unfold Routes.duplicate. by rewrite Hn.
  - intros scId scenario nm Hh Hf. unfold Routes.duplicate. by rewrite Hh, Hf.
  - intros Hp. unfold Offline.handler_chain. unfold bind at 1. by rewrite Hp.
  - intros rest Hp. unfold Offline.handler_chain. unfold bind at 1. by rewrite Hp.
  - intros status rest src Hp Hs Hc Hsrc Hnone.
    unfold Offline.handler_chain. unfold bind at 1.
    rewrite Hp. apply String.eqb_neq in Hs. rewrite Hs. unfold ret at 1.
    unfold bind at 1. rewrite Hc, Hsrc. simpl. by rewrite Hnone.
  - intros e He.
    destruct (offline_handler_outcome dm oenv params opayload ost)
      as (r & st' & Hch & Hst & Hr).
    rewrite He in Hch. injection Hch as <- <-. done.
Qed.

(** ** The insert of the scenario row *)

Lemma validated_routes dm params payload st :
  validated (Routes.db st) (projId params) (Routes.roadNetworkSource payload)
            (Routes.roadNetworkSourceScenario payload) →
  Routes.check_project dm params st = (inr tt, st)
  ∧ Routes.check_source dm params payload st = (inr tt, st).
Proof.
  intros [(status & rest & Hp & Hs) Hc]. split.
  - unfold Routes.check_project. rewrite Hp.
    apply String.eqb_neq in Hs. by rewrite Hs.
  - unfold Routes.check_source.
    destruct (String.eqb_spec (Routes.roadNetworkSource payload) "clone") as [Heq|]; [|done].
    destruct (Hc Heq) as (src & -> & Hne). simpl.
    by destruct (select_scenario _ _ _).
Qed.

Lemma routes_chain_after_checks dm env params payload st :
  validated (Routes.db st) (projId params) (Routes.roadNetworkSource payload)
            (Routes.roadNetworkSourceScenario payload) →
  Routes.handler_chain dm env params payload st =
  (let* scenario := Routes.create_base dm env params payload in
   let* op := Routes.lift_db (Routes.startOperation dm (projId params)
                                                    (sc_id (row scenario))) in
   let* dat := Routes.build_data env payload scenario op in
   Routes.createScenario dm env (projId params) (sc_id (row scenario)) (getId op) dat >>
   ret scenario)%promise st.
Proof.
  intros Hv. destruct (validated_routes dm params payload st Hv) as [Hp Hs].
  rewrite handler_chain_steps. unfold bind at 1. rewrite Hp.
  unfold bind at 1. by rewrite Hs.
Qed.

Lemma offline_chain_after_checks dm env params payload st :
  validated (Offline.db st) (projId params) (Offline.roadNetworkSource payload)
            (Offline.roadNetworkSourceScenario payload) →
  Offline.handler_chain dm env params payload st =
  (let* scenario :=
     catch (Offline.insert_info env (Offline.name payload)
                                (Some (default "" (Offline.description payload)))
                                "pending" false (projId params))
           (λ err,
              if decide (constraint err = Some "scenarios_project_id_name_unique")
              then throw (name_conflict_error (Offline.name payload))
              else throw err) in
   let* op := Offline.lift_db (Offline.startOperation dm (projId params) (sc_id scenario)) in
   let scenario := mkScenarioObj scenario None None None in
   if String.eqb (Offline.roadNetworkSource payload) "clone" then
     Offline.createScenario dm env (projId params) (sc_id (row scenario)) (getId op)
       (Offline.roadNetworkSource payload)
       {["sourceScenarioId" := of_opt_num (Offline.roadNetworkSourceScenario payload)]} >>
     ret (Some (ReplyScenario scenario))
   else if String.eqb (Offline.roadNetworkSource payload) "new" then
     Offline.handleRoadNetworkUpload env scenario (getId op)
                                     (Offline.roadNetworkSource payload)
   else ret None)%promise st.
Proof.
  intros [(status & rest & Hp & Hs) Hc].
  unfold Offline.handler_chain. unfold bind at 1. rewrite Hp.
  apply String.eqb_neq in Hs. rewrite Hs. unfold ret at 1.
  unfold bind at 1.
  destruct (String.eqb_spec (Offline.roadNetworkSource payload) "clone") as [Heq|]; [|done].
  destruct (Hc Heq) as (src & -> & Hne). simpl.
  by destruct (select_scenario _ _ _).
Qed.

(** C8: once the checks have passed, an insert refused for the name (the
    project already has a scenario of that name, or the insert fails with
    the constraint [scenarios_project_id_name_unique]) makes both create
    handlers fail with the DataConflictError naming the scenario, in the
    state they started from, and the caller gets an error reply: no
    operation is started and no runner is dispatched.  An insert error
    with any other constraint is passed on unchanged. *)
Theorem insert_name_conflict dm env oenv params payload opayload st ost :
  (validated (Routes.db st) (projId params) (Routes.roadNetworkSource payload)
             (Routes.roadNetworkSourceScenario payload) →
   (Routes.insert_failure env = None →
    select_scenario_named (Routes.db st) (projId params) (Routes.name payload) ≠ [] →
    Routes.handler_chain dm env params payload st
      = (inl (name_conflict_error (Routes.name payload)), st))
   ∧ (∀ e, Routes.insert_failure env = Some e →
           constraint e = Some "scenarios_project_id_name_unique" →
           Routes.handler_chain dm env params payload st
             = (inl (name_conflict_error (Routes.name payload)), st))
   ∧ (∀ e, Routes.insert_failure env = Some e →
           constraint e ≠ Some "scenarios_project_id_name_unique" →
           Routes.handler_chain dm env params payload st = (inl e, st))
   ∧ (∀ e, Routes.handler_chain dm env params payload st = (inl e, st) →
           is_error_reply (Routes.handler dm env params payload st).1 = true
           ∧ Routes.db (Routes.handler dm env params payload st).2 = Routes.db st
           ∧ Routes.services (Routes.handler dm env params payload st).2
             = Routes.services st))
  ∧ (validated (Offline.db ost) (projId params) (Offline.roadNetworkSource opayload)
               (Offline.roadNetworkSourceScenario opayload) →
     (Offline.insert_failure oenv = None →
      select_scenario_named (Offline.db ost) (projId params) (Offline.name opayload) ≠ [] →
      Offline.handler_chain dm oenv params opayload ost
        = (inl (name_conflict_error (Offline.name opayload)), ost)
      ∧ Offline.handler dm oenv params opayload ost
        = (Some (ReplyConflict (message (name_conflict_error (Offline.name opayload)))),
           ost))
     ∧ (∀ e, Offline.insert_failure oenv = Some e →
             constraint e = Some "scenarios_project_id_name_unique" →
             Offline.handler_chain dm oenv params opayload ost
               = (inl (name_conflict_error (Offline.name opayload)), ost))
     ∧ (∀ e, Offline.insert_failure oenv = Some e →
             constraint e ≠ Some "scenarios_project_id_name_unique" →
             Offline.handler_chain dm oenv params opayload ost = (inl e, ost))
     ∧ (∀ e, Offline.handler_chain dm oenv params opayload ost = (inl e, ost) →
             (∃ rep, (Offline.handler dm oenv params opayload ost).1 = Some rep
                     ∧ is_error_reply rep = true)
             ∧ (Offline.handler dm oenv params opayload ost).2 = ost)).
Proof.
  split; intros Hv.
  - rewrite (routes_chain_after_checks _ _ _ _ _ Hv).
    repeat apply conj.
    + intros Hf Hn. unfold bind at 1, Routes.create_base, bind at 1, catch,
        Routes.insert_info, insert_scenario.
      rewrite Hf. destruct (select_scenario_named _ _ _); done.
    + intros e Hf Hc. unfold bind at 1, Routes.create_base, bind at 1, catch,
        Routes.insert_info.
      rewrite Hf. by rewrite decide_True.
    + intros e Hf Hc. unfold bind at 1, Routes.create_base, bind at 1, catch,
        Routes.insert_info.
      rewrite Hf. by rewrite decide_False.
    + rewrite <- (routes_chain_after_checks _ _ _ _ _ Hv). intros e He.
      destruct (handler_outcome dm env params payload st)
        as (r & st' & Hch & Hdb & Hsv & Hr).
      rewrite He in Hch. injection Hch as <- <-. by destruct Hr.
  - assert (Offline.insert_failure oenv = None →
            select_scenario_named (Offline.db ost) (projId params) (Offline.name opayload)
              ≠ [] →
            Offline.handler_chain dm oenv params opayload ost
              = (inl (name_conflict_error (Offline.name opayload)), ost)) as Hname.
    { intros Hf Hn. rewrite (offline_chain_after_checks _ _ _ _ _ Hv).
      unfold bind at 1, catch, Offline.insert_info, insert_scenario.
      rewrite Hf. destruct (select_scenario_named _ _ _); done. }
    repeat apply conj.
    + intros Hf Hn. split; [by apply Hname|].
      unfold Offline.handler. by rewrite (Hname Hf Hn).
    + intros e Hf Hc. rewrite (offline_chain_after_checks _ _ _ _ _ Hv).
      unfold bind at 1, catch, Offline.insert_info.
      rewrite Hf. by rewrite decide_True.
    + intros e Hf Hc. rewrite (offline_chain_after_checks _ _ _ _ _ Hv).
      unfold bind at 1, catch, Offline.insert_info.
      rewrite Hf. by rewrite decide_False.
    + intros e He.
      destruct (offline_handler_outcome dm oenv params opayload ost)
        as (r & st' & Hch & Hst & Hr).
      rewrite He in Hch. injection Hch as <- <-. done.
Qed.

Lemma insert_scenario_inv d name description status master p created updated scenario d1 :
  insert_scenario d name description status master p created updated = inr (scenario, d1) →
  scenario = mkScenario (scenarios_id_seq d) name description status master p created updated
  ∧ d1 = set_scenarios (λ l, l ++ [scenario]) (scenarios_id_seq d + 1) d
  ∧ select_scenario_named d p name = [].
Proof.
  unfold insert_scenario. destruct (select_scenario_named d p name); [|discriminate].
  intros [= <- <-]. done.
Qed.

(** The operation tables of two stores are the same. *)
Lemma start_and_log_tables d p s :
  projects (start_and_log d p s).2 = projects d
  ∧ scenarios (start_and_log d p s).2 = scenarios d
  ∧ scenarios_settings (start_and_log d p s).2 = scenarios_settings d.
Proof. done. Qed.

Lemma create_base_accepts dm env params payload st :
  Routes.insert_failure env = None →
  select_scenario_named (Routes.db st) (projId params) (Routes.name payload) = [] →
  let scenario :=
    mkScenario (scenarios_id_seq (Routes.db st)) (Routes.name payload)
               (Some (default "" (Routes.description payload))) "pending" false
               (projId params) (Routes.now env) (Routes.now env) in
  Routes.create_base dm env params payload st
  = (inr (mkScenarioObj scenario
            (Some [("res_gen_at", JNum 0); ("rn_updated_at", JNum 0)]) (Some []) None),
     Routes.with_db
       (λ _, batchInsert_settings
               (set_scenarios (λ l, l ++ [scenario]) (scenarios_id_seq (Routes.db st) + 1)
                              (Routes.db st))
               (initial_settings (scenarios_id_seq (Routes.db st)) (Routes.now env))) st).
Proof.
  intros Hf Hfree scenario.
  destruct (create_base_cases dm env params payload st)
    as [[e He]|(sc & d1 & _ & Hi & ->)].
  - exfalso. revert He.
    unfold Routes.create_base, bind at 1, catch, Routes.insert_info, insert_scenario.
    rewrite Hf, Hfree. discriminate.
  - apply insert_scenario_inv in Hi as (-> & -> & _). reflexivity.
Qed.

(** After the scenario and its settings are written, the steps that follow
    write to neither table, and a scenario they hand on is the one they
    were given. *)
Lemma chain_tail_tables dm env params payload (scenario : ScenarioObj) st r st' :
  (let* op := Routes.lift_db (Routes.startOperation dm (projId params)
                                                    (sc_id (row scenario))) in
   let* dat := Routes.build_data env payload scenario op in
   Routes.createScenario dm env (projId params) (sc_id (row scenario)) (getId op) dat >>
   ret scenario)%promise st = (r, st') →
  scenarios (Routes.db st') = scenarios (Routes.db st)
  ∧ scenarios_settings (Routes.db st') = scenarios_settings (Routes.db st)
  ∧ (∀ sc, r = inr sc → sc = scenario).
Proof.
  unfold bind at 1, Routes.lift_db.
  destruct (startOperation_cases dm (projId params) (sc_id (row scenario)) (Routes.db st))
    as [[e ->]| ->].
  { intros [= <- <-]. simpl. split; [done|]. split; [done|]. by intros ? [=]. }
  pose proof (start_and_log_tables (Routes.db st) (projId params) (sc_id (row scenario)))
    as (_ & Hs & Hset).
  destruct (start_and_log (Routes.db st) (projId params) (sc_id (row scenario)))
    as [op d3]. simpl in Hs, Hset. cbn [fst snd].
  unfold bind at 1.
  destruct (build_data_cases env payload scenario op (Routes.with_db (λ _, d3) st))
    as (rb & stb & -> & Hdb & _).
  simpl in Hdb.
  destruct rb as [e|dat].
  { intros [= <- <-]. rewrite Hdb. split; [done|]. split; [done|]. by intros ? [=]. }
  unfold bind at 1.
  destruct (createScenario_cases dm env (projId params) (sc_id (row scenario)) (getId op)
              dat stb) as (sd & ->).
  unfold ret. intros [= <- <-]. simpl. rewrite Hdb.
  split; [done|]. split; [done|]. by intros ? [= <-].
Qed.

(** C10: the create route persists what it creates.  A request that passes
    the checks (the project exists and is not pending, the source of a
    clone is in the project) and whose insert is accepted (the name is
    free, the store does not fail) leaves one new row in the scenarios
    table, with the name and project of the request, status 'pending' and
    master false, and exactly three settings rows for it (res_gen_at 0,
    rn_updated_at 0, admin_areas '[]'), also when a later step fails and
    an error is replied.  A scenario that is replied is that row, with
    data {res_gen_at: 0, rn_updated_at: 0} and admin_areas [], and it has
    been persisted with its three settings.  No request writes anything
    else to the two tables: a request that does not persist the row
    replies an error and leaves both as they were. *)
Theorem created_scenario_defaults dm env params payload st :
  let res := Routes.handler dm env params payload st in
  let scenario :=
    mkScenario (scenarios_id_seq (Routes.db st)) (Routes.name payload)
               (Some (default "" (Routes.description payload))) "pending" false
               (projId params) (Routes.now env) (Routes.now env) in
  let replied :=
    mkScenarioObj scenario (Some [("res_gen_at", JNum 0); ("rn_updated_at", JNum 0)])
                  (Some []) None in
  let persisted :=
    scenarios (Routes.db res.2) = scenarios (Routes.db st) ++ [scenario]
    ∧ scenarios_settings (Routes.db res.2)
      = scenarios_settings (Routes.db st)
        ++ [ mkSetting (sc_id scenario) "res_gen_at" (JNum 0)
                       (Routes.now env) (Routes.now env);
             mkSetting (sc_id scenario) "rn_updated_at" (JNum 0)
                       (Routes.now env) (Routes.now env);
             mkSetting (sc_id scenario) "admin_areas" (JStr "[]")
                       (Routes.now env) (Routes.now env) ] in
  (validated (Routes.db st) (projId params) (Routes.roadNetworkSource payload)
             (Routes.roadNetworkSourceScenario payload) →
   Routes.insert_failure env = None →
   select_scenario_named (Routes.db st) (projId params) (Routes.name payload) = [] →
   persisted ∧ (is_error_reply res.1 = true ∨ res.1 = ReplyScenario replied))
  ∧ (∀ sc, res.1 = ReplyScenario sc → sc = replied ∧ persisted)
  ∧ (persisted
     ∨ (is_error_reply res.1 = true
        ∧ scenarios (Routes.db res.2) = scenarios (Routes.db st)
        ∧ scenarios_settings (Routes.db res.2) = scenarios_settings (Routes.db st))).
Proof.
  intros res scenario replied persisted. subst res persisted.
  destruct (handler_outcome dm env params payload st) as (r & st' & Hch & Hdb & _ & Hr).
  rewrite Hdb.
  assert (∀ sc, (Routes.handler dm env params payload st).1 = ReplyScenario sc →
                r = inr sc) as Hreply.
  { intros sc Hsc. destruct r as [e|sc'].
    - destruct Hr as [Hr _]. rewrite Hsc in Hr. discriminate Hr.
    - rewrite Hr in Hsc. by injection Hsc as ->. }
  assert (is_error_reply (Routes.handler dm env params payload st).1 = true
          ∨ ∃ sc, r = inr sc ∧ (Routes.handler dm env params payload st).1 = ReplyScenario sc)
    as Hkind.
  { destruct r as [e|sc]; [left; by destruct Hr|right]. exists sc. by rewrite Hr. }
  (* the ways of the chain *)
  assert ((∃ e, r = inl e ∧ st' = st)
          ∨ (scenarios (Routes.db st') = scenarios (Routes.db st) ++ [scenario]
             ∧ scenarios_settings (Routes.db st')
               = scenarios_settings (Routes.db st)
                 ++ initial_settings (sc_id scenario) (Routes.now env)
             ∧ ∀ sc, r = inr sc → sc = replied)) as Hways.
  { rewrite handler_chain_steps in Hch. unfold bind at 1 in Hch.
    pose proof (check_project_snd dm params st) as Hp.
    destruct (Routes.check_project dm params st) as [[e|[]] s0]; simpl in Hp; subst s0.
    { injection Hch as <- <-. left. by eexists. }
    unfold bind at 1 in Hch.
    pose proof (check_source_snd dm params payload st) as Hs.
    destruct (Routes.check_source dm params payload st) as [[e|[]] s0]; simpl in Hs;
      subst s0.
    { injection Hch as <- <-. left. by eexists. }
    unfold bind at 1 in Hch.
    destruct (create_base_cases dm env params payload st)
      as [[e He]|(sc & d1 & _ & Hi & He)]; rewrite He in Hch.
    { injection Hch as <- <-. left. by eexists. }
    right. apply insert_scenario_inv in Hi as (Hsc & -> & _).
    fold scenario in Hsc. subst sc.
    apply chain_tail_tables in Hch as (Hs1 & Hs2 & Hsc). fold replied in Hsc.
    rewrite Hs1, Hs2. done. }
  split; [|split].
  - intros Hv Hf Hfree.
    rewrite (routes_chain_after_checks _ _ _ _ _ Hv) in Hch. unfold bind at 1 in Hch.
    pose proof (create_base_accepts dm env params payload st Hf Hfree) as Hb.
    simpl in Hb. rewrite Hb in Hch.
    apply chain_tail_tables in Hch as (Hs1 & Hs2 & Hsc). fold scenario replied in Hsc.
    rewrite Hs1, Hs2. split; [done|].
    destruct Hkind as [?|(sc & -> & Hrep)]; [by left|right].
    by rewrite Hrep, (Hsc sc eq_refl).
  - intros sc Hsc. apply Hreply in Hsc as ->.
    destruct Hways as [(e & [=] & _)|(Hs1 & Hs2 & Hsc)].
    split; [by apply Hsc|done].
  - destruct Hways as [(e & -> & ->)|(Hs1 & Hs2 & _)]; [right|by left].
    split; [|done]. by destruct Hr.
Qed.

(** ** The search for a free name *)

Lemma app_close_paren_inj s1 s2 : s1 +:+ ")" = s2 +:+ ")" → s1 = s2.
Proof.
  revert s2. induction s1 as [|a s1 IH]; intros [|b s2]; simpl; intros H.
  - done.
  - injection H as _ H. by destruct s2.
  - injection H as _ H. by destruct s1.
  - injection H as -> H. f_equal. by apply IH.
Qed.

Lemma candidate_inj name : Inj (=) (=) (candidate name).
Proof.
  intros n m H. unfold candidate in H.
  apply (inj (String.app name)) in H. apply (inj (String.app " (")) in H.
  apply app_close_paren_inj in H. by apply (inj pretty) in H.
Qed.

Lemma select_scenario_named_name d p n :
  select_scenario_named d p n ≠ [] → n ∈ sc_name <$> scenarios d.
Proof.
  unfold select_scenario_named. intros H.
  destruct (filter _ _) as [|s l] eqn:Hf; [done|].
  assert (s ∈ filter (λ s, sc_project_id s = p ∧ sc_name s = n) (scenarios d)) as Hin
    by (rewrite Hf; left).
  apply list_elem_of_filter in Hin as [[_ <-] Hin]. by apply list_elem_of_fmap_2.
Qed.

(** Among the first [length (scenarios d) + 1] candidates one is free. *)
Lemma free_candidate_exists d p name :
  ∃ i : nat, (i ≤ length (scenarios d))%nat
    ∧ select_scenario_named d p (candidate name (2 + N.of_nat i)) = [].
Proof.
  set (P := λ i : nat, select_scenario_named d p (candidate name (2 + N.of_nat i)) ≠ []).
  destruct (decide (Forall P (seq 0 (S (length (scenarios d)))))) as [Hall|Hnot].
  - exfalso.
    set (f := λ i : nat, candidate name (2 + N.of_nat i)).
    assert (Inj (=) (=) f) as Hinj.
    { intros i j Hij. apply candidate_inj in Hij. lia. }
    assert (f <$> seq 0 (S (length (scenarios d))) ⊆+ sc_name <$> scenarios d) as Hsub.
    { apply NoDup_submseteq; [apply (NoDup_fmap_2 f), NoDup_seq|].
      intros x Hx. apply list_elem_of_fmap in Hx as (i & -> & Hi).
      rewrite Forall_forall in Hall. apply select_scenario_named_name with p.
      by apply Hall. }
    apply submseteq_length in Hsub. rewrite !length_fmap, length_seq in Hsub. lia.
  - apply not_Forall_Exists in Hnot; [|apply _].
    apply Exists_exists in Hnot as (i & Hi & HP).
    exists i. apply elem_of_seq in Hi. split; [lia|].
    unfold P in HP. simpl in HP.
    destruct (decide (select_scenario_named d p (candidate name (2 + N.of_nat i)) = []))
      as [Hnil|Hne]; [exact Hnil|by destruct HP].
Qed.

Lemma head_None_nil {A} (l : list A) : head l = None ↔ l = [].
Proof. by destruct l. Qed.

Lemma fn_spec d p name fuel (no : N) :
  (∃ m, (no ≤ m < no + N.of_nat fuel)%N
        ∧ select_scenario_named d p (candidate name m) = []) →
  ∃ n, Routes.fn d p name fuel no = Some (candidate name n)
       ∧ (no ≤ n)%N
       ∧ select_scenario_named d p (candidate name n) = []
       ∧ ∀ m, (no ≤ m < n)%N → select_scenario_named d p (candidate name m) ≠ [].
Proof.
  revert no. induction fuel as [|fuel IH]; intros no (m & Hm & Hfree); [lia|].
  simpl. fold (candidate name no).
  destruct (head (select_scenario_named d p (candidate name no))) as [s|] eqn:Hh.
  - assert (select_scenario_named d p (candidate name no) ≠ []) as Hne.
    { intros Hnil. by rewrite Hnil in Hh. }
    destruct (IH (no + 1)%N) as (n & Hfn & Hle & Hn & Hmin).
    { exists m. split; [|done].
      assert (m ≠ no) by (intros ->; done). lia. }
    exists n. split; [done|]. split; [lia|]. split; [done|].
    intros k Hk. destruct (decide (k = no)) as [->|]; [done|]. apply Hmin. lia.
  - exists no. apply head_None_nil in Hh. split; [done|]. split; [lia|].
    split; [done|]. intros k Hk. lia.
Qed.

(** C9: the duplicate endpoint fails with ScenarioNotFoundError when the
    project has no scenario with the source id; otherwise the search for a
    name ends, and the copy is created by the create handler under the
    name '<source name> (n)' for the smallest n >= 2 such that no scenario
    of the project has exactly that name. *)
Theorem duplicate_name dm env p s st :
  (head (select_scenario (Routes.db st) s p) = None →
     Routes.duplicate dm env p s st
       = Some (ReplyErrorResponse (new_error dm ScenarioNotFoundError None), st)
     ∧ err_class (new_error dm ScenarioNotFoundError None) = ScenarioNotFoundError)
  ∧ (∀ scenario,
       head (select_scenario (Routes.db st) s p) = Some scenario →
       ∃ n : N,
         (2 ≤ n)%N
         ∧ select_scenario_named (Routes.db st) p (candidate (sc_name scenario) n) = []
         ∧ (∀ m, (2 ≤ m < n)%N →
                 select_scenario_named (Routes.db st) p (candidate (sc_name scenario) m)
                   ≠ [])
         ∧ Routes.findName (Routes.db st) p (sc_name scenario)
           = Some (sc_name scenario +:+ " (" +:+ pretty n +:+ ")")
         ∧ Routes.duplicate dm env p s st
           = Some (Routes.handler dm env (mkParams p (Some s))
                     (Routes.mkPayload (sc_name scenario +:+ " (" +:+ pretty n +:+ ")")
                                       (sc_description scenario) "clone" (Some s)
                                       None None "clone" (Some s)) st)).
Proof.
  split.
  - intros Hn. unfold Routes.duplicate. by rewrite Hn.
  - intros scenario Hs.
    destruct (free_candidate_exists (Routes.db st) p (sc_name scenario)) as (i & Hi & Hfree).
    destruct (fn_spec (Routes.db st) p (sc_name scenario)
                (S (length (scenarios (Routes.db st)))) 2) as (n & Hfn & Hle & Hn & Hmin).
    { exists (2 + N.of_nat i)%N. split; [lia|done]. }
    exists n. split; [done|]. split; [done|]. split; [done|].
    fold (candidate (sc_name scenario) n).
    assert (Routes.findName (Routes.db st) p (sc_name scenario)
            = Some (candidate (sc_name scenario) n)) as Hfind by exact Hfn.
    split; [done|]. unfold Routes.duplicate. by rewrite Hs, Hfind.
Qed.

(** ** Dispatch, test mode and the reply *)

Lemma Db_wf_same_operations d d' :
  same_operations d d' → Db_wf d → Db_wf d'.
Proof.
  intros (Ho & Hs & Hl & Hc) [H1 H2 H3 H4].
  split; rewrite <- ?Ho, <- ?Hs, <- ?Hl, <- ?Hc; assumption.
Qed.

Lemma same_operations_insert d name description status master p c u scenario d1 rows :
  insert_scenario d name description status master p c u = inr (scenario, d1) →
  same_operations d (batchInsert_settings d1 rows).
Proof. intros H. apply insert_scenario_inv in H as (_ & -> & _). done. Qed.

(** A request that is replied a scenario started an operation for it, on a
    store with the operations the request found. *)
Lemma handler_replied_inv dm env params payload st sc st' :
  Routes.handler dm env params payload st = (ReplyScenario sc, st') →
  ∃ d2 op sd,
    same_operations (Routes.db st) d2
    ∧ Routes.startOperation dm (projId params) (sc_id (row sc)) d2 = (inr op, Routes.db st')
    ∧ scenarios (Routes.db st') = scenarios (Routes.db st) ++ [row sc]
    ∧ sc = mkScenarioObj (row sc) (Some [("res_gen_at", JNum 0); ("rn_updated_at", JNum 0)])
                         (Some []) None
    ∧ Routes.services st' =
      Routes.services st ++
        (if decide (Routes.DS_ENV env = Some "test") then []
         else [mkServiceRunner "scenario-create" sd
                 (Routes.createScenario_complete dm (op_id op))]).
Proof.
  intros H.
  destruct (handler_outcome dm env params payload st) as (r & st1 & Hch & Hdb & Hsv & Hr).
  rewrite H in Hdb, Hsv, Hr. simpl in Hdb, Hsv.
  destruct r as [e|sc1].
  { destruct Hr as [Hr _]. done. }
  injection Hr as <- <-.
  apply handler_chain_inv in Hch as [(e & ? & _)|(scn & d1 & Hf & Hi & Hrest)]; [done|].
  simpl in Hrest.
  destruct Hrest as [(e & ? & _)|(op & d3 & Hop & Hd3 & Hrest)]; [done|].
  destruct Hrest as [(e & ? & _)|(sd & Hsc & Hservices)]; [done|].
  injection Hsc as ->. simpl.
  exists (batchInsert_settings d1 (initial_settings (sc_id scn) (Routes.now env))), op, sd.
  split; [by eapply same_operations_insert|].
  split; [by rewrite Hd3|].
  split; [|done].
  apply startOperation_ok_inv in Hop.
  apply insert_scenario_inv in Hi as (_ & -> & _).
  rewrite Hd3.
  pose proof (f_equal (λ x, scenarios x.2) Hop) as Hs. simpl in Hs. by rewrite Hs.
Qed.

(** C3: with DS_ENV set to 'test', [createScenario] of both files returns
    without constructing a runner and leaves the state as it is.  A
    request that is answered in that mode has started no runner, and the
    operation it started loads as started and not completed; it is
    completed once [finish()] is called on it. *)
Theorem test_mode_skips_dispatch dm env oenv p s opId dat source odat st ost :
  (Routes.DS_ENV env = Some "test" →
     Routes.createScenario dm env p s opId dat st = (inr tt, st))
  ∧ (Offline.DS_ENV oenv = Some "test" →
     Offline.createScenario dm oenv p s opId source odat ost = (inr tt, ost))
  ∧ (∀ params payload sc st',
       Routes.DS_ENV env = Some "test" →
       Db_wf (Routes.db st) →
       Routes.handler dm env params payload st = (ReplyScenario sc, st') →
       Routes.services st' = Routes.services st
       ∧ ∃ op, loadByData dm (Routes.db st') "scenario-create" (projId params)
                          (sc_id (row sc)) = inr op
               ∧ isStarted op = true
               ∧ isCompleted op = false
               ∧ isCompleted (finish (Routes.db st') op None []).1 = true).
Proof.
  repeat apply conj.
  - intros Ht. unfold Routes.createScenario. by rewrite decide_True.
  - intros Ht. unfold Offline.createScenario. by rewrite decide_True.
  - intros params payload sc st' Ht Hwf H.
    apply handler_replied_inv in H as (d2 & op & sd & Hsame & Hop & _ & _ & Hsv).
    rewrite decide_True, app_nil_r in Hsv by done. split; [done|].
    destruct (loadByData_after_start dm _ _ d2 op _
                (Db_wf_same_operations _ _ Hsame Hwf) Hop) as (Hl & Hs & _).
    exists op. split; [done|]. split; [done|].
    split; [by apply isStarted_not_completed|apply isCompleted_finish].
Qed.

Lemma loadById_after_start dm p s d op d1 :
  Db_wf d →
  Routes.startOperation dm p s d = (inr op, d1) →
  loadById dm d1 (op_id op) = inr op.
Proof.
  intros Hwf H. apply startOperation_ok_inv in H. unfold start_and_log in H.
  simpl in H. injection H as -> ->.
  unfold loadById. simpl.
  rewrite filter_app, filter_cons_True, filter_nil by done.
  assert (filter (λ r, or_id r = operations_id_seq d) (operations d) = []) as ->.
  { pose proof (wf_op_ids d Hwf) as Hids.
    induction Hids as [|r l Hr _ IH]; [done|].
    rewrite filter_cons_False by lia. exact IH. }
  simpl. unfold load_row; simpl. f_equal. f_equal.
  do 2 rewrite entries_of_append_log. simpl.
  rewrite !decide_True by done.
  rewrite (entries_of_fresh _ (operations_id_seq d)) by (try lia; apply Hwf).
  reflexivity.
Qed.

Lemma routes_complete_error dm d opId e op :
  loadById dm d opId = inr op →
  isCompleted op = false →
  ∃ op', loadById dm (Routes.createScenario_complete dm opId (Some e) d) opId = inr op'
         ∧ isCompleted op' = true.
Proof.
  intros Hl Hc.
  destruct (loadById_inv _ _ _ _ Hl) as (r & rest & Hf & Hid & Hop).
  assert (op_id op = opId) as Hopid by (by rewrite Hop).
  unfold Routes.createScenario_complete. rewrite Hl, Hc. simpl. rewrite Hopid.
  destruct (loadById_append_log dm d (error_entry opId e (clock d)) opId op Hl)
    as (op' & Hl' & He').
  simpl in He'. rewrite decide_True in He' by done.
  exists op'. split; [exact Hl'|].
  unfold isCompleted. rewrite He', existsb_app. simpl. by rewrite orb_true_r.
Qed.

Lemma routes_complete_tables dm opId err d :
  scenarios (Routes.createScenario_complete dm opId err d) = scenarios d
  ∧ scenarios_settings (Routes.createScenario_complete dm opId err d) = scenarios_settings d
  ∧ operations (Routes.createScenario_complete dm opId err d) = operations d.
Proof.
  unfold Routes.createScenario_complete.
  destruct err; [|done]. destruct (loadById _ _ _); [done|].
  by destruct (negb _).
Qed.

(** C6: a request that is replied a scenario outside test mode has started
    exactly one runner for the operation it started, and at the reply that
    operation is started and not completed: the completion signal is an
    event of its own, after the reply.  Whatever that signal carries, it
    leaves the scenarios and the runners as they are; without an error it
    changes nothing, and with an error the only trace is that the
    operation then loads as completed; the caller has been replied the
    scenario in either case. *)
Theorem reply_before_completion dm env params payload st sc st' :
  Db_wf (Routes.db st) →
  Routes.DS_ENV env ≠ Some "test" →
  Routes.handler dm env params payload st = (ReplyScenario sc, st') →
  ∃ op sd,
    Routes.services st' =
      Routes.services st ++ [mkServiceRunner "scenario-create" sd
                               (Routes.createScenario_complete dm (op_id op))]
    ∧ loadByData dm (Routes.db st') "scenario-create" (projId params) (sc_id (row sc))
      = inr op
    ∧ isStarted op = true
    ∧ isCompleted op = false
    ∧ row sc ∈ scenarios (Routes.db st')
    ∧ (∀ err,
         Routes.step dm st' (Routes.Complete (length (Routes.services st)) err)
           = Routes.with_db (Routes.createScenario_complete dm (op_id op) err) st'
         ∧ scenarios (Routes.db (Routes.step dm st'
                        (Routes.Complete (length (Routes.services st)) err)))
           = scenarios (Routes.db st'))
    ∧ Routes.step dm st' (Routes.Complete (length (Routes.services st)) None) = st'
    ∧ (∀ e, ∃ op',
         loadById dm (Routes.db (Routes.step dm st'
                        (Routes.Complete (length (Routes.services st)) (Some e))))
                  (op_id op) = inr op'
         ∧ isCompleted op' = true)
    ∧ (∀ err,
         Routes.replies dm st [Routes.Create env params payload;
                               Routes.Complete (length (Routes.services st)) err]
         = [ReplyScenario sc]).
Proof.
  intros Hwf Hnt H.
  assert (∀ err,
            Routes.replies dm st [Routes.Create env params payload;
                                  Routes.Complete (length (Routes.services st)) err]
            = [ReplyScenario sc]) as Hreplies.
  { intros err. simpl. by rewrite H. }
  apply handler_replied_inv in H as (d2 & op & sd & Hsame & Hop & Hsc & _ & Hsv).
  rewrite decide_False in Hsv by done.
  pose proof (Db_wf_same_operations _ _ Hsame Hwf) as Hwf2.
  destruct (loadByData_after_start dm _ _ d2 op _ Hwf2 Hop) as (Hl & Hs & _).
  pose proof (loadById_after_start dm _ _ d2 op _ Hwf2 Hop) as Hid.
  pose proof (isStarted_not_completed _ Hs) as Hnc.
  exists op, sd. split; [done|]. split; [done|]. split; [done|]. split; [done|].
  split; [rewrite Hsc, elem_of_app, list_elem_of_singleton; by right|].
  assert (∀ err, Routes.step dm st' (Routes.Complete (length (Routes.services st)) err)
                 = Routes.with_db (Routes.createScenario_complete dm (op_id op) err) st')
    as Hstep.
  { intros err. unfold Routes.step. rewrite Hsv.
    rewrite lookup_app_r by lia. by rewrite Nat.sub_diag. }
  split; [|split; [|split]].
  - intros err. split; [apply Hstep|]. rewrite Hstep. simpl.
    apply routes_complete_tables.
  - rewrite Hstep. by destruct st'.
  - intros e. rewrite Hstep. simpl. by apply routes_complete_error with op.
  - exact Hreplies.
Qed.

(** ** The invariant of the log *)

Lemma StronglySorted_snoc {A} (R : A → A → Prop) l x :
  StronglySorted R l → Forall (λ y, R y x) l → StronglySorted R (l ++ [x]).
Proof.
  induction 1 as [|y l Hl IH Hy]; intros Hall; simpl.
  - repeat constructor.
  - apply Forall_cons in Hall as [Hyx Hall]. constructor; [by apply IH|].
    apply Forall_app. split; [done|]. by constructor.
Qed.

Lemma Db_wf_append_log d e :
  Db_wf d → operation_id e < operations_id_seq d → created_at e = clock d →
  Db_wf (append_log e d).
Proof.
  intros [H1 H2 H3 H4] Hid Ht. split; simpl.
  - done.
  - eapply Forall_impl; [exact H2|]. simpl. intros; lia.
  - apply Forall_app. split; [done|]. by constructor.
  - apply Forall_app. split.
    + eapply Forall_impl; [exact H4|]. simpl. intros; lia.
    + constructor; [lia|constructor].
Qed.

Lemma Db_wf_append_operation d r :
  Db_wf d → or_id r = operations_id_seq d → or_created_at r = clock d →
  Db_wf (append_operation r d).
Proof.
  intros [H1 H2 H3 H4] Hid Ht. split; simpl.
  - apply Forall_app. split.
    + eapply Forall_impl; [exact H1|]. simpl. intros; lia.
    + constructor; [lia|constructor].
  - apply Forall_app. split.
    + eapply Forall_impl; [exact H2|]. simpl. intros; lia.
    + constructor; [lia|constructor].
  - eapply Forall_impl; [exact H3|]. simpl. intros; lia.
  - eapply Forall_impl; [exact H4|]. simpl. intros; lia.
Qed.

Lemma time_ordered_append_log d e :
  Db_wf d → time_ordered (operations_logs d) → created_at e = clock d →
  time_ordered (operations_logs (append_log e d)).
Proof.
  intros Hwf Hs Ht. simpl. apply StronglySorted_snoc; [done|].
  eapply Forall_impl; [apply (wf_log_time d Hwf)|]. simpl. intros; lia.
Qed.

Lemma starts_with_start_app l l' :
  starts_with_start l = true → starts_with_start (l ++ l') = true.
Proof. by destruct l. Qed.

Lemma op_id_bound d r : Db_wf d → r ∈ operations d → or_id r < operations_id_seq d.
Proof.
  intros Hwf Hr. pose proof (wf_op_ids d Hwf) as H.
  rewrite Forall_forall in H. by apply H.
Qed.

Lemma terminal_suffix_snoc l e :
  terminal_suffix l = true → is_terminal e = true → terminal_suffix (l ++ [e]) = true.
Proof.
  intros Hl He. induction l as [|x l IH]; simpl in *.
  - by rewrite He.
  - destruct (is_terminal x); [|by apply IH].
    rewrite forallb_app, Hl. simpl. by rewrite He.
Qed.

Lemma terminal_suffix_none l :
  existsb is_terminal l = false → terminal_suffix l = true.
Proof.
  induction l as [|x l IH]; [done|]. simpl.
  destruct (is_terminal x); [done|]. exact IH.
Qed.

(** Appending a terminal entry for an operation that exists. *)
Lemma closing_invariant_append d e r0 :
  closing_invariant d → r0 ∈ operations d → operation_id e = or_id r0 →
  created_at e = clock d →
  is_terminal e = true →
  closing_invariant (append_log e d).
Proof.
  intros (Hwf & Hs & Hlog) Hr0 Hid Ht Hterm. split; [|split].
  - apply Db_wf_append_log; [done| |done]. rewrite Hid. by apply op_id_bound.
  - by apply time_ordered_append_log.
  - intros r Hr. rewrite entries_of_append_log.
    destruct (Hlog r Hr) as [Hst Hsuf]. split; [by apply starts_with_start_app|].
    destruct (decide (operation_id e = or_id r)); [|by rewrite app_nil_r].
    by apply terminal_suffix_snoc.
Qed.

Lemma log_invariant_append d e r0 :
  log_invariant d → r0 ∈ operations d → operation_id e = or_id r0 →
  created_at e = clock d →
  existsb is_terminal (entries_of d (or_id r0)) = false →
  log_invariant (append_log e d).
Proof.
  intros (Hwf & Hs & Hlog) Hr0 Hid Ht Hnt. split; [|split].
  - apply Db_wf_append_log; [done| |done]. rewrite Hid. by apply op_id_bound.
  - by apply time_ordered_append_log.
  - intros r Hr. rewrite entries_of_append_log.
    destruct (Hlog r Hr) as [Hst Htl]. split; [by apply starts_with_start_app|].
    destruct (decide (operation_id e = or_id r)) as [Heq|]; [|by rewrite app_nil_r].
    apply terminal_last_snoc. by rewrite <- Heq, Hid.
Qed.

(** [op.start(..)] followed by [op.log('start', ..)]. *)
Lemma log_invariant_start_and_log d p s :
  log_invariant d → log_invariant (start_and_log d p s).2.
Proof.
  intros (Hwf & Hs & Hlog). unfold start_and_log, start, log. simpl.
  set (r := mkOperationRow (operations_id_seq d) "scenario-create" p s (clock d)).
  set (e1 := mkLogEntry (operations_id_seq d) "start" [] (clock d + 1)).
  set (e2 := mkLogEntry _ "start" _ _).
  assert (Db_wf (append_operation r d)) as Hwf1 by (by apply Db_wf_append_operation).
  assert (Db_wf (append_log e1 (append_operation r d))) as Hwf2.
  { apply Db_wf_append_log; [done|simpl; lia|done]. }
  split; [|split].
  - apply Db_wf_append_log; [done|simpl; lia|done].
  - apply time_ordered_append_log; [done| |done].
    by apply time_ordered_append_log.
  - intros r' Hr'. do 2 rewrite entries_of_append_log. simpl in *.
    apply elem_of_app in Hr' as [Hr'|Hr'].
    + pose proof (op_id_bound d r' Hwf Hr') as Hb.
      rewrite !decide_False by lia. rewrite !app_nil_r.
      change (entries_of (append_operation r d) (or_id r')) with (entries_of d (or_id r')).
      by apply Hlog.
    + apply list_elem_of_singleton in Hr' as ->. simpl.
      rewrite !decide_True by done.
      change (entries_of (append_operation r d) (operations_id_seq d))
        with (entries_of d (operations_id_seq d)).
      rewrite (entries_of_fresh d (operations_id_seq d)) by (try lia; apply Hwf).
      done.
Qed.

Lemma closing_invariant_start_and_log d p s :
  closing_invariant d → closing_invariant (start_and_log d p s).2.
Proof.
  intros (Hwf & Hs & Hlog). unfold start_and_log, start, log. simpl.
  set (r := mkOperationRow (operations_id_seq d) "scenario-create" p s (clock d)).
  set (e1 := mkLogEntry (operations_id_seq d) "start" [] (clock d + 1)).
  set (e2 := mkLogEntry _ "start" _ _).
  assert (Db_wf (append_operation r d)) as Hwf1 by (by apply Db_wf_append_operation).
  assert (Db_wf (append_log e1 (append_operation r d))) as Hwf2.
  { apply Db_wf_append_log; [done|simpl; lia|done]. }
  split; [|split].
  - apply Db_wf_append_log; [done|simpl; lia|done].
  - apply time_ordered_append_log; [done| |done].
    by apply time_ordered_append_log.
  - intros r' Hr'. do 2 rewrite entries_of_append_log. simpl in *.
    apply elem_of_app in Hr' as [Hr'|Hr'].
    + pose proof (op_id_bound d r' Hwf Hr') as Hb.
      rewrite !decide_False by lia. rewrite !app_nil_r.
      change (entries_of (append_operation r d) (or_id r')) with (entries_of d (or_id r')).
      by apply Hlog.
    + apply list_elem_of_singleton in Hr' as ->. simpl.
      rewrite !decide_True by done.
      change (entries_of (append_operation r d) (operations_id_seq d))
        with (entries_of d (operations_id_seq d)).
      rewrite (entries_of_fresh d (operations_id_seq d)) by (try lia; apply Hwf).
      done.
Qed.

Lemma log_invariant_same d d' :
  same_operations d d' → log_invariant d → log_invariant d'.
Proof.
  intros Hsame (Hwf & Hs & Hlog). pose proof (Db_wf_same_operations _ _ Hsame Hwf).
  destruct Hsame as (Ho & _ & Hl & _).
  split; [done|]. split; [by rewrite <- Hl|].
  intros r Hr. unfold entries_of. rewrite <- Hl. apply Hlog. by rewrite Ho.
Qed.

Lemma closing_invariant_same d d' :
  same_operations d d' → closing_invariant d → closing_invariant d'.
Proof.
  intros Hsame (Hwf & Hs & Hlog). pose proof (Db_wf_same_operations _ _ Hsame Hwf).
  destruct Hsame as (Ho & _ & Hl & _).
  split; [done|]. split; [by rewrite <- Hl|].
  intros r Hr. unfold entries_of. rewrite <- Hl. apply Hlog. by rewrite Ho.
Qed.

Lemma loadById_row dm d opId op :
  loadById dm d opId = inr op →
  ∃ r, r ∈ operations d ∧ or_id r = opId ∧ op_id op = opId
       ∧ op_entries op = entries_of d (or_id r).
Proof.
  intros H. destruct (loadById_inv _ _ _ _ H) as (r & rest & Hf & Hid & ->).
  exists r. split; [|done].
  assert (r ∈ filter (λ r, or_id r = opId) (operations d)) as Hin by (rewrite Hf; left).
  by apply list_elem_of_filter in Hin as [_ ?].
Qed.

Lemma log_invariant_complete dm opId err d :
  log_invariant d → log_invariant (Routes.createScenario_complete dm opId err d).
Proof.
  intros Hinv. unfold Routes.createScenario_complete.
  destruct err as [e|]; [|done].
  destruct (loadById dm d opId) as [|op] eqn:Hl; [done|].
  destruct (isCompleted op) eqn:Hc; [done|]. simpl.
  destruct (loadById_row _ _ _ _ Hl) as (r & Hr & Hid & Hop & Hent).
  apply log_invariant_append with r; simpl; try done; try congruence.
  unfold isCompleted in Hc. by rewrite Hent in Hc.
Qed.

Lemma closing_invariant_complete dm opId err d :
  closing_invariant d → closing_invariant (Offline.createScenario_complete dm opId err d).
Proof.
  intros Hinv. unfold Offline.createScenario_complete.
  destruct err as [e|]; [|done].
  destruct (loadById dm d opId) as [|op] eqn:Hl; [done|].
  destruct (isCompleted op) eqn:Hc; [done|]. simpl.
  destruct (loadById_row _ _ _ _ Hl) as (r & Hr & Hid & Hop & Hent).
  apply closing_invariant_append with r; simpl; try done; try congruence.
  apply closing_invariant_append with r; simpl; try done; try congruence.
Qed.

Lemma routes_handler_effect dm env params payload st :
  (same_operations (Routes.db st) (Routes.db (Routes.handler dm env params payload st).2)
   ∨ ∃ d2 p s, same_operations (Routes.db st) d2
               ∧ Routes.db (Routes.handler dm env params payload st).2
                 = (start_and_log d2 p s).2)
  ∧ (Routes.services (Routes.handler dm env params payload st).2 = Routes.services st
     ∨ ∃ sd opId,
         Routes.services (Routes.handler dm env params payload st).2
         = Routes.services st
           ++ [mkServiceRunner "scenario-create" sd (Routes.createScenario_complete dm opId)]).
Proof.
  destruct (handler_outcome dm env params payload st) as (r & st' & Hch & Hdb & Hsv & _).
  rewrite Hdb, Hsv.
  apply handler_chain_inv in Hch as [(e & _ & ->)|(sc & d1 & Hf & Hi & Hrest)].
  { split; left; done. }
  pose proof (same_operations_insert _ _ _ _ _ _ _ _ _ _
                (initial_settings (sc_id sc) (Routes.now env)) Hi) as Hsame.
  simpl in Hrest.
  destruct Hrest as [(e & _ & _ & ->)|(op & d3 & Hop & Hd3 & Hrest)].
  { split; left; done. }
  apply startOperation_ok_inv in Hop.
  split.
  - right. eexists _, _, _. split; [exact Hsame|]. by rewrite Hd3, <- Hop.
  - destruct Hrest as [(e & _ & ->)|(sd & _ & ->)]; [by left|].
    destruct (decide _); [left; by rewrite app_nil_r|right; by eexists _, _].
Qed.

Lemma offline_handler_chain_steps dm env params payload :
  Offline.handler_chain dm env params payload =
  (Offline.check_project dm params >>
   Offline.check_source dm params payload >>
   let* scenario := Offline.create_base dm env params payload in
   let* op := Offline.lift_db (Offline.startOperation dm (projId params) (sc_id scenario)) in
   Offline.dispatch dm env params payload op (mkScenarioObj scenario None None None))%promise.
Proof. reflexivity. Qed.

Lemma offline_createScenario_effect dm env p s opId source dat st :
  ∃ r st', Offline.createScenario dm env p s opId source dat st = (r, st')
    ∧ Offline.db st' = Offline.db st
    ∧ (Offline.services st' = Offline.services st
       ∨ ∃ sd, Offline.services st' =
               Offline.services st
               ++ [mkServiceRunner "scenario-create" sd
                     (Offline.createScenario_complete dm opId)]).
Proof.
  unfold Offline.createScenario, bind, ret, Offline.closeDatabase.
  destruct (decide _); [eexists _, _; split; [done|]; split; [done|by left]|].
  destruct (String.eqb source "clone"); [destruct (Offline.closeDatabase_failure env)|];
    eexists _, _; (split; [done|]); (split; [done|]); simpl; eauto.
Qed.

Lemma offline_handler_effect dm env params payload st :
  (same_operations (Offline.db st) (Offline.db (Offline.handler dm env params payload st).2)
   ∨ ∃ d2 p s, same_operations (Offline.db st) d2
               ∧ Offline.db (Offline.handler dm env params payload st).2
                 = (start_and_log d2 p s).2)
  ∧ (Offline.services (Offline.handler dm env params payload st).2 = Offline.services st
     ∨ ∃ sd opId,
         Offline.services (Offline.handler dm env params payload st).2
         = Offline.services st
           ++ [mkServiceRunner "scenario-create" sd
                 (Offline.createScenario_complete dm opId)]).
Proof.
  destruct (offline_handler_outcome dm env params payload st) as (r & st' & Hch & -> & _).
  revert Hch. rewrite offline_handler_chain_steps.
  unfold bind at 1, Offline.check_project, throw, ret.
  destruct (select_project_status _ _) as [|status rest].
  { intros [= <- <-]. split; left; done. }
  destruct (String.eqb status "pending").
  { intros [= <- <-]. split; left; done. }
  unfold bind at 1.
  assert (∃ r0, Offline.check_source dm params payload st = (r0, st)) as [r0 ->].
  { unfold Offline.check_source, throw, ret. destruct (String.eqb _ _); [|by eexists].
    destruct (from_option _ _ _); by eexists. }
  destruct r0 as [e|[]].
  { intros [= <- <-]. split; left; done. }
  unfold bind at 1, Offline.create_base, catch, Offline.insert_info, throw.
  destruct (Offline.insert_failure env) as [e|].
  { destruct (decide _); intros [= <- <-]; split; left; done. }
  destruct (insert_scenario _ _ _ _ _ _ _ _) as [e|[sc d1]] eqn:Hi.
  { destruct (decide _); intros [= <- <-]; split; left; done. }
  pose proof (same_operations_insert _ _ _ _ _ _ _ _ _ _ [] Hi) as Hsame.
  assert (same_operations (Offline.db st) d1) as Hsame1.
  { destruct Hsame as (? & ? & ? & ?). done. }
  unfold bind at 1, Offline.lift_db at 1. simpl.
  change (Offline.startOperation dm) with (Routes.startOperation dm).
  destruct (startOperation_cases dm (projId params) (sc_id sc) d1) as [[e He]|Hok].
  { rewrite He. intros [= <- <-]. split; left; done. }
  rewrite Hok. destruct (start_and_log d1 (projId params) (sc_id sc)) as [op d3] eqn:Hsl.
  simpl. unfold Offline.dispatch, Offline.handleRoadNetworkUpload, throw, ret.
  assert (d3 = (start_and_log d1 (projId params) (sc_id sc)).2) as Hd3 by (by rewrite Hsl).
  destruct (String.eqb (Offline.roadNetworkSource payload) "clone").
  - unfold bind at 1.
    edestruct (offline_createScenario_effect dm env) as (rc & sc' & Hc & Hdb & Hsv).
    rewrite Hc. clear Hc. simpl in Hdb, Hsv.
    destruct rc as [e|[]]; intros [= <- <-]; rewrite Hdb;
      (split; [right; eexists _, _, _; split; [exact Hsame1|exact Hd3]|]);
      destruct Hsv as [->|[sd ->]]; eauto.
  - destruct (String.eqb (Offline.roadNetworkSource payload) "new");
      [destruct (Offline.presignedUrl env)|]; intros [= <- <-]; simpl;
      (split; [right; eexists _, _, _; split; [exact Hsame1|exact Hd3]|by left]).
Qed.

Lemma routes_invariant_handler dm env params payload st :
  routes_invariant dm st →
  routes_invariant dm (Routes.handler dm env params payload st).2.
Proof.
  intros [Hlog Hsv].
  destruct (routes_handler_effect dm env params payload st) as [Hdb Hservices].
  split.
  - destruct Hdb as [Hsame|(d2 & p & s & Hsame & ->)].
    + by eapply log_invariant_same.
    + apply log_invariant_start_and_log. by eapply log_invariant_same.
  - destruct Hservices as [->|(sd & opId & ->)]; [done|].
    apply Forall_app. split; [done|]. constructor; [|constructor]. by exists opId.
Qed.

Lemma routes_invariant_step dm st ev :
  routes_invariant dm st → routes_invariant dm (Routes.step dm st ev).
Proof.
  intros Hinv. destruct ev as [env params payload|env p s|i err]; simpl.
  - by apply routes_invariant_handler.
  - unfold Routes.duplicate.
    destruct (head _) as [scenario|]; [|done].
    destruct (Routes.findName _ _ _) as [nm|]; [|done].
    pose proof (routes_invariant_handler dm env (mkParams p (Some s))
                  (Routes.mkPayload nm (sc_description scenario) "clone" (Some s) None None
                                    "clone" (Some s)) st Hinv) as H.
    by destruct (Routes.handler _ _ _ _ _).
  - destruct (Routes.services st !! i) as [sv|] eqn:Hi; [|done].
    destruct Hinv as [Hlog Hsv]. split; [|done]. simpl.
    rewrite Forall_forall in Hsv.
    destruct (Hsv sv) as [opId ->]; [by eapply list_elem_of_lookup_2|].
    by apply log_invariant_complete.
Qed.

Lemma routes_invariant_run dm evs st :
  routes_invariant dm st → routes_invariant dm (Routes.run dm st evs).
Proof.
  revert st. induction evs as [|ev evs IH]; intros st Hinv; [done|].
  simpl. apply IH. by apply routes_invariant_step.
Qed.

Lemma offline_invariant_step dm st ev :
  offline_invariant dm st → offline_invariant dm (Offline.step dm st ev).
Proof.
  intros [Hlog Hsv]. destruct ev as [env params payload|env i|i err]; simpl.
  - destruct (offline_handler_effect dm env params payload st) as [Hdb Hservices].
    split.
    + destruct Hdb as [Hsame|(d2 & p & s & Hsame & ->)].
      * by eapply closing_invariant_same.
      * apply closing_invariant_start_and_log. by eapply closing_invariant_same.
    + destruct Hservices as [->|(sd & opId & ->)]; [done|].
      apply Forall_app. split; [done|]. constructor; [|constructor]. by exists opId.
  - destruct (Offline.listeners st !! i) as [l|]; [|done].
    edestruct (offline_createScenario_effect dm env) as (r & st' & -> & Hdb & Hservices).
    simpl. split; [by rewrite Hdb|].
    destruct Hservices as [->|(sd & ->)]; [done|].
    apply Forall_app. split; [done|]. constructor; [|constructor]. by eexists.
  - destruct (Offline.services st !! i) as [sv|] eqn:Hi; [|done].
    split; [|done]. simpl.
    rewrite Forall_forall in Hsv.
    destruct (Hsv sv) as [opId ->]; [by eapply list_elem_of_lookup_2|].
    by apply closing_invariant_complete.
Qed.

Lemma offline_invariant_run dm evs st :
  offline_invariant dm st → offline_invariant dm (Offline.run dm st evs).
Proof.
  revert st. induction evs as [|ev evs IH]; intros st Hinv; [done|].
  simpl. apply IH. by apply offline_invariant_step.
Qed.

Lemma starts_with_start_inv l :
  starts_with_start l = true → ∃ e l', l = e :: l' ∧ event e = "start".
Proof.
  destruct l as [|e l']; [done|]. simpl. unfold is_start. intros H.
  apply String.eqb_eq in H. by exists e, l'.
Qed.

(** C7 (amended): a successful [startOperation] (the same function in
    both files) writes the entry of [op.start] and right after it the
    entry of [op.log('start', {message: 'Operation started'})], and they
    are all the entries of the new operation.  On a server of
    [routes/scenarios--create.js] that handles any sequence of requests
    and completion signals from a state where the invariant of the log
    holds (one without operations, for instance), the log stays in the
    order of creation and the entries of every operation begin with a
    [start] event and hold a terminal entry only as their last one.  On a
    server of [config/offline.js] the log stays in the order of creation,
    the entries of every operation begin with a [start] event, and a
    terminal entry is followed by terminal entries only: the [error]
    entry of the completion handler by the entry of [finish()]. *)
Theorem log_starts_with_start dm :
  (∀ d p s op d1,
     Db_wf d →
     Routes.startOperation dm p s d = (inr op, d1) →
     Offline.startOperation dm p s d = (inr op, d1)
     ∧ operations_logs d1 =
       operations_logs d
       ++ [ mkLogEntry (op_id op) "start" [] (clock d + 1);
            mkLogEntry (op_id op) "start" [("message", JStr "Operation started")]
                       (clock d + 1 + 1) ]
     ∧ entries_of d1 (op_id op) =
       [ mkLogEntry (op_id op) "start" [] (clock d + 1);
         mkLogEntry (op_id op) "start" [("message", JStr "Operation started")]
                    (clock d + 1 + 1) ])
  ∧ (∀ st evs r,
       routes_invariant dm st →
       r ∈ operations (Routes.db (Routes.run dm st evs)) →
       time_ordered (operations_logs (Routes.db (Routes.run dm st evs)))
       ∧ ∃ e l, entries_of (Routes.db (Routes.run dm st evs)) (or_id r) = e :: l
                ∧ event e = "start"
                ∧ terminal_last (e :: l) = true)
  ∧ (∀ st evs r,
       offline_invariant dm st →
       r ∈ operations (Offline.db (Offline.run dm st evs)) →
       time_ordered (operations_logs (Offline.db (Offline.run dm st evs)))
       ∧ ∃ e l, entries_of (Offline.db (Offline.run dm st evs)) (or_id r) = e :: l
                ∧ event e = "start"
                ∧ terminal_suffix (e :: l) = true).
Proof.
  split; [|split].
  - intros d p s op d1 Hwf H. split; [exact H|].
    apply startOperation_ok_inv in H. unfold start_and_log in H. simpl in H.
    injection H as -> ->. simpl. split; [by rewrite <- app_assoc|].
    do 2 rewrite entries_of_append_log. simpl. rewrite !decide_True by done.
    change (entries_of (append_operation _ d) (operations_id_seq d))
      with (entries_of d (operations_id_seq d)).
    rewrite (entries_of_fresh d (operations_id_seq d)) by (try lia; apply Hwf).
    done.
  - intros st evs r Hinv Hr.
    destruct (routes_invariant_run dm evs st Hinv) as [(Hwf & Hs & Hlog) _].
    split; [done|]. destruct (Hlog r Hr) as [Hst Htl].
    destruct (starts_with_start_inv _ Hst) as (e & l & Heq & He).
    exists e, l. by rewrite <- Heq.
  - intros st evs r Hinv Hr.
    destruct (offline_invariant_run dm evs st Hinv) as [(Hwf & Hs & Hlog) _].
    split; [done|]. destruct (Hlog r Hr) as [Hst Hsuf].
    destruct (starts_with_start_inv _ Hst) as (e & l & Heq & He).
    exists e, l. by rewrite <- Heq.
Qed.

(** ** The statements at the small server *)

Lemma ex_db_wf : Db_wf ex_db.
Proof. split; constructor. Defined.

Lemma ex_st_invariant : routes_invariant ex_dm ex_st.
Proof.
  split; [|constructor]. split; [exact ex_db_wf|]. split; [constructor|].
  intros r Hr. simpl in Hr. by apply elem_of_nil in Hr.
Defined.

Lemma startOperation_conflict_witness :
  Db_wf ex_db
  ∧ Routes.startOperation ex_dm 1 3 ex_db = (inr ex_op, ex_db_started)
  ∧ Routes.startOperation ex_dm 1 3 ex_db_started = (inl conflict_error, ex_db_started).
Proof.
  split; [exact ex_db_wf|]. split; [reflexivity|].
  apply (proj2 (startOperation_conflict ex_dm ex_db 1 3) ex_op ex_db_started ex_db_wf).
  reflexivity.
Defined.

Lemma complete_with_error_witness :
  loadById ex_dm ex_db_started 1 = inr ex_op
  ∧ isCompleted ex_op = false
  ∧ operations_logs (Routes.createScenario_complete ex_dm 1 (Some ex_job_error)
                                                    ex_db_started)
    = operations_logs ex_db_started ++ [error_entry 1 ex_job_error (clock ex_db_started)].
Proof.
  split; [reflexivity|]. split; [reflexivity|].
  apply (proj1 (complete_with_error ex_dm ex_db_started 1 ex_job_error ex_op eq_refl)).
  reflexivity.
Defined.

Lemma test_mode_skips_dispatch_witness :
  Routes.DS_ENV ex_env_test = Some "test"
  ∧ Routes.createScenario ex_dm ex_env_test 1 3 1 ∅ ex_st = (inr tt, ex_st).
Proof.
  split; [reflexivity|].
  apply (proj1 (test_mode_skips_dispatch ex_dm ex_env_test ex_oenv 1 3 1 ∅ "clone" ∅
                                         ex_st ex_ost)).
  reflexivity.
Defined.

Lemma startOperation_load_failure_witness :
  includes "not exist" (message (new_error ex_dm NotFoundError None)) = true
  ∧ Routes.startOperation_loaded ex_dm (inl (new_error ex_dm NotFoundError None)) 1 3 ex_db
    = (inr ex_op, ex_db_started).
Proof.
  split; [reflexivity|].
  apply (proj1 (startOperation_load_failure ex_dm 1 3 ex_db
                  (new_error ex_dm NotFoundError None))).
  reflexivity.
Defined.

(** C4, as stated, fails: an error of the load that is not the
    NotFoundError, but whose message contains "not exist", is not passed
    on; the protocol goes on and starts an operation. *)
Lemma startOperation_swallows_store_error :
  err_class ex_store_error ≠ NotFoundError
  ∧ Routes.startOperation_loaded ex_dm (inl ex_store_error) 1 3 ex_db
    = (inr ex_op, ex_db_started)
  ∧ Routes.startOperation_loaded ex_dm (inl ex_store_error) 1 3 ex_db
    ≠ (inl ex_store_error, ex_db).
Proof. split; [done|]. split; [reflexivity|]. vm_compute. discriminate. Qed.

Lemma handler_validation_witness :
  select_project_status (Routes.db ex_st) 7 = []
  ∧ Routes.handler_chain ex_dm ex_env (mkParams 7 None) ex_payload ex_st
    = (inl (new_error ex_dm ProjectNotFoundError None), ex_st).
Proof.
  split; [reflexivity|].
  apply (proj1 (handler_validation ex_dm ex_env ex_oenv (mkParams 7 None) ex_payload
                                   ex_opayload ex_st ex_ost)).
  reflexivity.
Defined.

(** C5, as stated, fails for the duplicate route: for a project that does
    not exist the request fails with ScenarioNotFoundError, not with
    ProjectNotFoundError. *)
Lemma duplicate_missing_project :
  select_project_status (Routes.db ex_st) 7 = []
  ∧ Routes.duplicate ex_dm ex_env 7 1 ex_st
    = Some (ReplyErrorResponse (mkErr ScenarioNotFoundError "Scenario not found" None),
            ex_st)
  ∧ ScenarioNotFoundError ≠ ProjectNotFoundError.
Proof. split; [reflexivity|]. split; [reflexivity|done]. Qed.

Lemma reply_before_completion_witness :
  Db_wf (Routes.db ex_st)
  ∧ Routes.DS_ENV ex_env ≠ Some "test"
  ∧ (Routes.handler ex_dm ex_env (mkParams 1 None) ex_payload ex_st).1
    = ReplyScenario ex_scenario
  ∧ ∃ op sd,
      Routes.services (Routes.handler ex_dm ex_env (mkParams 1 None) ex_payload ex_st).2
      = [mkServiceRunner "scenario-create" sd (Routes.createScenario_complete ex_dm (op_id op))]
      ∧ isStarted op = true.
Proof.
  split; [exact ex_db_wf|]. split; [done|]. split; [reflexivity|].
  destruct (reply_before_completion ex_dm ex_env (mkParams 1 None) ex_payload ex_st
              ex_scenario
              (Routes.handler ex_dm ex_env (mkParams 1 None) ex_payload ex_st).2
              ex_db_wf ltac:(done) eq_refl)
    as (op & sd & Hsv & _ & Hs & _).
  exists op, sd. split; [exact Hsv|exact Hs].
Defined.

Lemma log_starts_with_start_witness :
  routes_invariant ex_dm ex_st
  ∧ ∃ e l,
      entries_of
        (Routes.db (Routes.run ex_dm ex_st
                      [Routes.Create ex_env (mkParams 1 None) ex_payload;
                       Routes.Complete 0 (Some ex_job_error)])) 1
      = e :: l
      ∧ event e = "start" ∧ terminal_last (e :: l) = true.
Proof.
  split; [exact ex_st_invariant|].
  destruct (proj1 (proj2 (log_starts_with_start ex_dm)) ex_st
              [Routes.Create ex_env (mkParams 1 None) ex_payload;
               Routes.Complete 0 (Some ex_job_error)]
              (mkOperationRow 1 "scenario-create" 1 3 0) ex_st_invariant)
    as [_ H].
  - vm_compute. apply list_elem_of_singleton. reflexivity.
  - exact H.
Defined.

(** C7, as stated, fails in [config/offline.js]: when the job of a new
    scenario fails, the completion handler logs the [error] entry and then
    calls [finish()], so that the terminal [error] entry is not the last
    entry of the operation. *)
Lemma offline_error_entry_not_last :
  entries_of
    (Offline.db (Offline.run ex_dm ex_ost
                   [Offline.Create ex_oenv (mkParams 1 None) ex_opayload_clone;
                    Offline.Complete 0 (Some ex_job_error)])) 1
  = [ mkLogEntry 1 "start" [] 1;
      mkLogEntry 1 "start" [("message", JStr "Operation started")] 2;
      mkLogEntry 1 "error" [("error", JStr "disk full")] 3;
      mkLogEntry 1 "finish" [] 4 ]
  ∧ is_terminal (mkLogEntry 1 "error" [("error", JStr "disk full")] 3) = true
  ∧ terminal_last
      (entries_of
         (Offline.db (Offline.run ex_dm ex_ost
                        [Offline.Create ex_oenv (mkParams 1 None) ex_opayload_clone;
                         Offline.Complete 0 (Some ex_job_error)])) 1)
    = false.
Proof. split; [reflexivity|]. split; reflexivity. Qed.

Lemma insert_name_conflict_witness :
  validated (Routes.db ex_st) 1 (Routes.roadNetworkSource ex_payload_taken)
            (Routes.roadNetworkSourceScenario ex_payload_taken)
  ∧ select_scenario_named (Routes.db ex_st) 1 (Routes.name ex_payload_taken) ≠ []
  ∧ Routes.handler_chain ex_dm ex_env (mkParams 1 None) ex_payload_taken ex_st
    = (inl (name_conflict_error "Main scenario"), ex_st).
Proof.
  assert (validated (Routes.db ex_st) 1 (Routes.roadNetworkSource ex_payload_taken)
                    (Routes.roadNetworkSourceScenario ex_payload_taken)) as Hv.
  { split; [by exists "active", []|]. intros H. discriminate H. }
  split; [exact Hv|]. split; [done|].
  apply (proj1 (proj1 (insert_name_conflict ex_dm ex_env ex_oenv (mkParams 1 None)
                         ex_payload_taken ex_opayload ex_st ex_ost) Hv));
    [reflexivity|done].
Defined.

Lemma duplicate_name_witness :
  head (select_scenario (Routes.db ex_st) 1 1)
    = Some (mkScenario 1 "Main scenario" None "active" true 1 0 0)
  ∧ ∃ n : N,
      (2 ≤ n)%N
      ∧ Routes.findName (Routes.db ex_st) 1 "Main scenario"
        = Some ("Main scenario" +:+ " (" +:+ pretty n +:+ ")").
Proof.
  split; [reflexivity|].
  destruct (proj2 (duplicate_name ex_dm ex_env 1 1 ex_st)
              (mkScenario 1 "Main scenario" None "active" true 1 0 0) eq_refl)
    as (n & Hn & _ & _ & Hf & _).
  exists n. split; [exact Hn|exact Hf].
Defined.

Lemma created_scenario_defaults_witness :
  validated (Routes.db ex_st) 1 (Routes.roadNetworkSource ex_payload)
            (Routes.roadNetworkSourceScenario ex_payload)
  ∧ Routes.insert_failure ex_env = None
  ∧ select_scenario_named (Routes.db ex_st) 1 (Routes.name ex_payload) = []
  ∧ scenarios (Routes.db (Routes.handler ex_dm ex_env (mkParams 1 None) ex_payload ex_st).2)
    = [mkScenario 1 "Main scenario" None "active" true 1 0 0;
       mkScenario 3 "A" (Some "") "pending" false 1 1000 1000]
  ∧ scenarios_settings
      (Routes.db (Routes.handler ex_dm ex_env (mkParams 1 None) ex_payload ex_st).2)
    = [mkSetting 3 "res_gen_at" (JNum 0) 1000 1000;
       mkSetting 3 "rn_updated_at" (JNum 0) 1000 1000;
       mkSetting 3 "admin_areas" (JStr "[]") 1000 1000]
  ∧ (Routes.handler ex_dm ex_env (mkParams 1 None) ex_payload ex_st).1
    = ReplyScenario ex_scenario.
Proof.
  assert (validated (Routes.db ex_st) 1 (Routes.roadNetworkSource ex_payload)
                    (Routes.roadNetworkSourceScenario ex_payload)) as Hv.
  { split; [by exists "active", []|]. intros _. exists 1. split; [reflexivity|done]. }
  split; [exact Hv|]. split; [reflexivity|]. split; [reflexivity|].
  destruct (proj1 (created_scenario_defaults ex_dm ex_env (mkParams 1 None) ex_payload
                     ex_st) Hv eq_refl eq_refl) as [[Hs Hset] [Herr|Hrep]].
  - vm_compute in Herr. discriminate Herr.
  - split; [exact Hs|]. split; [exact Hset|exact Hrep].
Defined.

Example findName_main_scenario :
  Routes.findName ex_db 1 "Main scenario" = Some "Main scenario (2)".
Proof. reflexivity. Qed.

(** ** Further properties of the completion handlers *)

Lemma loadById_completed_after_append dm d opId op e :
  loadById dm d opId = inr op →
  operation_id e = opId →
  is_terminal e = true →
  ∃ op', loadById dm (append_log e d) opId = inr op' ∧ isCompleted op' = true.
Proof.
  intros Hl Hid Ht.
  destruct (loadById_append_log dm d e opId op Hl) as (op' & Hl' & He').
  rewrite decide_True in He' by done.
  exists op'. split; [done|].
  unfold isCompleted. rewrite He', existsb_app. simpl. by rewrite Ht, orb_true_r.
Qed.

Lemma loadById_completed_mono dm d opId op e :
  loadById dm d opId = inr op →
  isCompleted op = true →
  ∃ op', loadById dm (append_log e d) opId = inr op' ∧ isCompleted op' = true.
Proof.
  intros Hl Hc.
  destruct (loadById_append_log dm d e opId op Hl) as (op' & Hl' & He').
  exists op'. split; [done|].
  unfold isCompleted in *. by rewrite He', existsb_app, Hc.
Qed.

(** X1: a completion signal that arrives a second time changes nothing:
    whatever the first signal with an error did, the handler of either
    file leaves that store as it is when it runs again, with or without
    an error. *)
Theorem completion_handler_idempotent dm opId e1 err2 d :
  Routes.createScenario_complete dm opId err2
    (Routes.createScenario_complete dm opId (Some e1) d)
  = Routes.createScenario_complete dm opId (Some e1) d
  ∧ Offline.createScenario_complete dm opId err2
      (Offline.createScenario_complete dm opId (Some e1) d)
    = Offline.createScenario_complete dm opId (Some e1) d.
Proof.
  split.
  - destruct err2 as [e2|]; [|done].
    unfold Routes.createScenario_complete at 2.
    destruct (loadById dm d opId) as [err|op] eqn:Hl.
    { unfold Routes.createScenario_complete. by rewrite Hl. }
    destruct (isCompleted op) eqn:Hc; simpl.
    { unfold Routes.createScenario_complete. by rewrite Hl, Hc. }
    destruct (loadById_inv _ _ _ _ Hl) as (r & rest & _ & Hid & Hop).
    assert (op_id op = opId) as Hopid by (by rewrite Hop).
    destruct (loadById_completed_after_append dm d opId op
                (mkLogEntry (op_id op) "error" [("error", JStr (message e1))] (clock d))
                Hl Hopid eq_refl) as (op' & Hl' & Hc').
    unfold Routes.createScenario_complete. rewrite Hl, Hc. simpl. by rewrite Hl', Hc'.
  - destruct err2 as [e2|]; [|done].
    unfold Offline.createScenario_complete at 2.
    destruct (loadById dm d opId) as [err|op] eqn:Hl.
    { unfold Offline.createScenario_complete. by rewrite Hl. }
    destruct (isCompleted op) eqn:Hc; simpl.
    { unfold Offline.createScenario_complete. by rewrite Hl, Hc. }
    destruct (loadById_inv _ _ _ _ Hl) as (r & rest & _ & Hid & Hop).
    assert (op_id op = opId) as Hopid by (by rewrite Hop).
    destruct (loadById_completed_after_append dm d opId op
                (mkLogEntry (op_id op) "error" [("error", JStr (message e1))] (clock d))
                Hl Hopid eq_refl) as (op1 & Hl1 & Hc1).
    destruct (loadById_completed_mono dm _ opId op1
                (mkLogEntry (op_id op) "finish" [] (clock d + 1)) Hl1 Hc1)
      as (op2 & Hl2 & Hc2).
    unfold Offline.createScenario_complete. rewrite Hl, Hc. simpl. by rewrite Hl2, Hc2.
Qed.

Lemma loadByData_append_log dm d e type p s op :
  loadByData dm d type p s = inr op →
  ∃ op', loadByData dm (append_log e d) type p s = inr op'
         ∧ op_id op' = op_id op
         ∧ op_entries op' =
           op_entries op ++ (if decide (operation_id e = op_id op) then [e] else []).
Proof.
  unfold loadByData. simpl.
  destruct (most_recent _) as [r|]; [|discriminate].
  intros [= <-]. eexists. split; [reflexivity|]. split; [reflexivity|].
  unfold load_row; simpl. by rewrite entries_of_append_log.
Qed.

Lemma startOperation_after_terminal dm p s d op :
  loadByData dm d "scenario-create" p s = inr op →
  isCompleted op = true →
  Routes.startOperation dm p s d
  = (inr (start_and_log d p s).1, (start_and_log d p s).2).
Proof.
  intros Hl Hc. unfold Routes.startOperation. rewrite Hl.
  apply startOperation_loaded_passes. unfold Routes.conflict_check, isStarted.
  unfold isCompleted in Hc. by rewrite Hc, andb_false_r.
Qed.

(** X2: a failed job does not block the scenario for good.  After a start
    that succeeded, a completion signal with an error closes the
    operation, and the start protocol for the same triple then succeeds
    again and starts a new operation, with the next identity.  (Before
    that signal the second start reports the conflict.) *)
Theorem restart_after_failure dm p s d op d1 e :
  Db_wf d →
  Routes.startOperation dm p s d = (inr op, d1) →
  (let d2 := Routes.createScenario_complete dm (op_id op) (Some e) d1 in
   Routes.startOperation dm p s d2
     = (inr (start_and_log d2 p s).1, (start_and_log d2 p s).2)
   ∧ op_id (start_and_log d2 p s).1 = op_id op + 1)
  ∧ (let d2 := Offline.createScenario_complete dm (op_id op) (Some e) d1 in
     Offline.startOperation dm p s d2
       = (inr (start_and_log d2 p s).1, (start_and_log d2 p s).2)
     ∧ op_id (start_and_log d2 p s).1 = op_id op + 1).
Proof.
  intros Hwf H.
  destruct (loadByData_after_start dm _ _ _ _ _ Hwf H) as (Hl & Hs & Hid).
  pose proof (loadById_after_start dm _ _ _ _ _ Hwf H) as Hl1.
  pose proof (isStarted_not_completed _ Hs) as Hnc.
  assert (operations_id_seq d1 = op_id op + 1) as Hseq.
  { apply startOperation_ok_inv in H. unfold start_and_log in H. simpl in H.
    by injection H as -> ->. }
  change (Offline.startOperation dm) with (Routes.startOperation dm).
  split.
  - unfold Routes.createScenario_complete. rewrite Hl1, Hnc. simpl.
    set (ee := mkLogEntry _ "error" _ _).
    destruct (loadByData_append_log dm d1 ee _ _ _ _ Hl) as (op' & Hl' & _ & He').
    split; [|exact Hseq].
    apply startOperation_after_terminal with op'; [exact Hl'|].
    unfold isCompleted. rewrite He'. subst ee. simpl. rewrite decide_True by done.
    rewrite existsb_app. simpl. by rewrite orb_true_r.
  - unfold Offline.createScenario_complete. rewrite Hl1, Hnc. simpl.
    set (ee := mkLogEntry _ "error" _ _). set (ef := mkLogEntry _ "finish" _ _).
    destruct (loadByData_append_log dm d1 ee _ _ _ _ Hl) as (op1 & Hl1' & Hid1 & He1).
    destruct (loadByData_append_log dm _ ef _ _ _ _ Hl1') as (op2 & Hl2 & _ & He2).
    split; [|exact Hseq].
    apply startOperation_after_terminal with op2; [exact Hl2|].
    unfold isCompleted. rewrite He2, He1. subst ee. simpl. rewrite decide_True by done.
    rewrite !existsb_app. simpl. by rewrite orb_true_r.
Qed.

(** ** The data of a request and the payload of its runner *)

Lemma build_data_inv env payload scenario op st r st' :
  Routes.build_data env payload scenario op st = (r, st') →
  Routes.db st' = Routes.db st
  ∧ Routes.services st' = Routes.services st
  ∧ (Routes.roadNetworkSource payload ≠ "new" → st' = st ∧ ∃ dat, r = inr dat)
  ∧ (Routes.roadNetworkSource payload = "new" →
     match Routes.roadNetworkFile payload, Routes.putFile_failure env with
     | None, _ => st' = st ∧ ∃ e, r = inl e ∧ err_class e = TypeError
     | Some f, Some e => st' = st ∧ r = inl e
     | Some f, None =>
         Routes.s3 st' =
           Routes.s3 st ++ [(upload_filePath env (sc_id (row scenario)), path f)]
         ∧ Routes.removed_local st' = Routes.removed_local st ++ [path f]
         ∧ ∃ dat, r = inr dat
                  ∧ dat !! "roadNetworkFile" = Some (JStr (upload_fileName env))
     end)
  ∧ (∀ dat, r = inr dat →
       dat !! "projId" = None ∧ dat !! "scId" = None ∧ dat !! "opId" = None
       ∧ dat !! "rnSource" = Some (JStr (Routes.roadNetworkSource payload))
       ∧ dat !! "poiSource" = Some (JStr (Routes.poiSource payload))
       ∧ (Routes.roadNetworkSource payload = "clone" →
          dat !! "rnSourceScenarioId"
            = Some (of_opt_num (Routes.roadNetworkSourceScenario payload)))
       ∧ (Routes.roadNetworkSource payload = "wbcatalog" →
          dat !! "rnSourceWbCatalogOption"
            = Some (of_opt_str (Routes.roadNetworkSourceWbCatalogOption payload)))
       ∧ (Routes.poiSource payload = "clone" →
          dat !! "poiSourceScenarioId"
            = Some (of_opt_num (Routes.poiSourceScenario payload)))).
Proof.
  unfold Routes.build_data, bind, ret, Routes.handleRoadNetworkUpload,
    Routes.putFileToS3, Routes.removeLocalFile, throw, object_assign.
  fold (upload_fileName env). fold (upload_filePath env (sc_id (row scenario))).
  destruct (String.eqb_spec (Routes.poiSource payload) "clone") as [Hpoi|Hpoi];
    destruct (String.eqb_spec (Routes.roadNetworkSource payload) "new") as [Hnew|Hnew];
    [destruct (Routes.roadNetworkFile payload) as [f|];
       [destruct (Routes.putFile_failure env) as [e|]|]
    |destruct (String.eqb_spec (Routes.roadNetworkSource payload) "clone") as [Hcl|Hcl];
       [|destruct (String.eqb_spec (Routes.roadNetworkSource payload) "wbcatalog")
           as [Hwb|Hwb]]
    |destruct (Routes.roadNetworkFile payload) as [f|];
       [destruct (Routes.putFile_failure env) as [e|]|]
    |destruct (String.eqb_spec (Routes.roadNetworkSource payload) "clone") as [Hcl|Hcl];
       [|destruct (String.eqb_spec (Routes.roadNetworkSource payload) "wbcatalog")
           as [Hwb|Hwb]]];
    intros [= <- <-]; simpl;
    (split; [done|]); (split; [done|]);
    (split; [intros ?; try congruence; by eauto|]);
    (split; [intros ?; try congruence; by eauto 10|]);
    intros dat [= <-];
    repeat (split; [try done; intros ?; try congruence; done|]);
    try done; intros ?; try congruence; done.
Qed.

(** Every way the chain of [handler] can go, with the steps after the
    start of the operation kept as they are. *)
Lemma handler_chain_factor dm env params payload st r st' :
  Routes.handler_chain dm env params payload st = (r, st') →
  (∃ e, r = inl e ∧ st' = st)
  ∨ ∃ scenario d1,
      Routes.insert_failure env = None
      ∧ insert_scenario (Routes.db st) (Routes.name payload)
          (Some (default "" (Routes.description payload))) "pending" false
          (projId params) (Routes.now env) (Routes.now env) = inr (scenario, d1)
      ∧ let d2 := batchInsert_settings d1
                    (initial_settings (sc_id scenario) (Routes.now env)) in
        let obj := mkScenarioObj scenario
                     (Some [("res_gen_at", JNum 0); ("rn_updated_at", JNum 0)])
                     (Some []) None in
        ((∃ e, r = inl e
               ∧ Routes.startOperation dm (projId params) (sc_id scenario) d2 = (inl e, d2)
               ∧ st' = Routes.with_db (λ _, d2) st)
         ∨ (∃ op d3 rb stb,
              Routes.startOperation dm (projId params) (sc_id scenario) d2 = (inr op, d3)
              ∧ Routes.build_data env payload obj op (Routes.with_db (λ _, d3) st)
                = (rb, stb)
              ∧ ((∃ e, rb = inl e ∧ r = inl e ∧ st' = stb)
                 ∨ (∃ dat, rb = inr dat ∧ r = inr obj
                           ∧ Routes.createScenario dm env (projId params) (sc_id scenario)
                                                   (op_id op) dat stb
                             = (inr tt, st'))))).
Proof.
  rewrite handler_chain_steps. unfold bind at 1.
  pose proof (check_project_snd dm params st) as Hp.
  destruct (Routes.check_project dm params st) as [[e|[]] s0]; simpl in Hp; subst s0.
  { intros [= <- <-]. left. by eexists. }
  unfold bind at 1.
  pose proof (check_source_snd dm params payload st) as Hs.
  destruct (Routes.check_source dm params payload st) as [[e|[]] s0]; simpl in Hs; subst s0.
  { intros [= <- <-]. left. by eexists. }
  unfold bind at 1.
  destruct (create_base_cases dm env params payload st) as [[e ->]|(sc & d1 & Hf & Hi & ->)].
  { intros [= <- <-]. left. by eexists. }
  intros H. right. exists sc, d1. split; [done|]. split; [done|].
  set (d2 := batchInsert_settings d1 _) in *.
  unfold bind at 1 in H. unfold Routes.lift_db at 1 in H. simpl in H.
  destruct (startOperation_cases dm (projId params) (sc_id sc) d2) as [[e He]|Hok].
  { rewrite He in H. injection H as <- <-. left. exists e. done. }
  rewrite Hok in H.
  destruct (start_and_log d2 (projId params) (sc_id sc)) as [op d3] eqn:Hsl.
  simpl in H. right.
  unfold bind at 1 in H.
  change (Routes.with_db (λ _, d3) (Routes.with_db (λ _, d2) st))
    with (Routes.with_db (λ _, d3) st) in H.
  destruct (Routes.build_data env payload _ op (Routes.with_db (λ _, d3) st))
    as [rb stb] eqn:Hb.
  exists op, d3, rb, stb. split; [done|]. split; [done|].
  destruct rb as [e|dat].
  { injection H as <- <-. left. by exists e. }
  right. exists dat. unfold bind at 1 in H.
  destruct (createScenario_cases dm env (projId params) (sc_id sc) (getId op) dat stb)
    as (sd & Hcs).
  rewrite Hcs in H. unfold ret in H. injection H as <- <-.
  split; [done|]. split; [done|]. exact Hcs.
Qed.

(** X3: the temporary file of an upload.  When a request carries a file,
    the handler removes the local copy whenever the request fails, and
    also when it succeeds with the source 'new' (after the upload); a
    request that succeeds with another source leaves the file where it
    is, and a request without a file removes nothing. *)
Theorem temp_file_removed dm env params payload st :
  let res := Routes.handler dm env params payload st in
  (∀ f, Routes.roadNetworkFile payload = Some f →
        (is_error_reply res.1 = true → path f ∈ Routes.removed_local res.2)
        ∧ (Routes.roadNetworkSource payload = "new" → path f ∈ Routes.removed_local res.2)
        ∧ (is_error_reply res.1 = false → Routes.roadNetworkSource payload ≠ "new" →
           Routes.removed_local res.2 = Routes.removed_local st))
  ∧ (Routes.roadNetworkFile payload = None →
     Routes.removed_local res.2 = Routes.removed_local st).
Proof.
  intros res. subst res. unfold Routes.handler.
  destruct (Routes.handler_chain dm env params payload st) as [r st'] eqn:Hch.
  assert (∀ sc, r = inr sc →
            (Routes.roadNetworkSource payload ≠ "new"
             → Routes.removed_local st' = Routes.removed_local st)
            ∧ (Routes.roadNetworkFile payload = None
               → Routes.removed_local st' = Routes.removed_local st)
            ∧ ∀ f, Routes.roadNetworkSource payload = "new" →
                   Routes.roadNetworkFile payload = Some f →
                   path f ∈ Routes.removed_local st') as Hok.
  { intros sc ->.
    apply handler_chain_factor in Hch as [(e & ? & _)|(scn & d1 & _ & _ & Hrest)]; [done|].
    simpl in Hrest.
    destruct Hrest as [(e & ? & _)|(op & d3 & rb & stb & _ & Hb & Hrest)]; [done|].
    destruct Hrest as [(e & _ & ? & _)|(dat & -> & _ & Hcs)]; [done|].
    destruct (createScenario_cases dm env (projId params) (sc_id scn) (op_id op) dat stb)
      as (sd & Hcs').
    rewrite Hcs' in Hcs. injection Hcs as <-. simpl.
    apply build_data_inv in Hb as (_ & _ & Hother & Hnew & _).
    split; [|split].
    - intros Hn. destruct (Hother Hn) as [-> _]. done.
    - intros Hnone.
      destruct (decide (Routes.roadNetworkSource payload = "new")) as [Hn|Hn].
      + specialize (Hnew Hn). rewrite Hnone in Hnew. by destruct Hnew as [_ (e & ? & _)].
      + destruct (Hother Hn) as [-> _]. done.
    - intros f Hn Hf. specialize (Hnew Hn). rewrite Hf in Hnew.
      destruct (Routes.putFile_failure env).
      + by destruct Hnew as [_ ?].
      + destruct Hnew as (_ & -> & _). apply elem_of_app. right. by left. }
  assert (∀ e, r = inl e → Routes.roadNetworkFile payload = None →
               Routes.removed_local st' = Routes.removed_local st) as Herr.
  { intros e -> Hnone.
    apply handler_chain_factor in Hch as [(e' & _ & ->)|(scn & d1 & _ & _ & Hrest)]; [done|].
    simpl in Hrest.
    destruct Hrest as [(e' & _ & _ & ->)|(op & d3 & rb & stb & _ & Hb & Hrest)]; [done|].
    destruct Hrest as [(e' & _ & _ & ->)|(dat & _ & ? & _)]; [|done].
    apply build_data_inv in Hb as (_ & _ & Hother & Hnew & _).
    destruct (decide (Routes.roadNetworkSource payload = "new")) as [Hn|Hn].
    - specialize (Hnew Hn). rewrite Hnone in Hnew. by destruct Hnew as [-> _].
    - destruct (Hother Hn) as [-> _]. done. }
  split.
  - intros f Hf. rewrite Hf. destruct r as [e|sc].
    + assert (path f ∈ Routes.removed_local st' ++ [path f]) as Hin.
      { apply elem_of_app. right. by left. }
      destruct (includes _ _); simpl; (split; [done|]); (split; [done|]); done.
    + destruct (Hok sc eq_refl) as (Hother & _ & Hnew). simpl.
      split; [done|]. split; [intros Hn; by apply Hnew|]. intros _ Hn. by apply Hother.
  - intros Hnone. rewrite Hnone. destruct r as [e|sc].
    + destruct (includes _ _); simpl; by eapply Herr.
    + simpl. by eapply Hok.
Qed.

(** X4: the payload of the runner.  A request that is replied a scenario
    outside test mode has started one runner for the task
    'scenario-create' whose payload carries the project of the request,
    the scenario that was created and the operation that was started
    (the last row of the operations, of type 'scenario-create', for that
    project and scenario), together with the two sources of the request
    and, according to the source, the scenario to clone from, the catalog
    option, or the name under which the uploaded file was stored. *)
Theorem runner_payload dm env params payload st sc st' :
  Routes.DS_ENV env ≠ Some "test" →
  Routes.handler dm env params payload st = (ReplyScenario sc, st') →
  ∃ sv opId t,
    Routes.services st' = Routes.services st ++ [sv]
    ∧ task_name sv = "scenario-create"
    ∧ last (operations (Routes.db st'))
      = Some (mkOperationRow opId "scenario-create" (projId params) (sc_id (row sc)) t)
    ∧ service_data sv !! "projId" = Some (JNum (projId params))
    ∧ service_data sv !! "scId" = Some (JNum (sc_id (row sc)))
    ∧ service_data sv !! "opId" = Some (JNum opId)
    ∧ service_data sv !! "rnSource" = Some (JStr (Routes.roadNetworkSource payload))
    ∧ service_data sv !! "poiSource" = Some (JStr (Routes.poiSource payload))
    ∧ (Routes.roadNetworkSource payload = "clone" →
       service_data sv !! "rnSourceScenarioId"
         = Some (of_opt_num (Routes.roadNetworkSourceScenario payload)))
    ∧ (Routes.roadNetworkSource payload = "wbcatalog" →
       service_data sv !! "rnSourceWbCatalogOption"
         = Some (of_opt_str (Routes.roadNetworkSourceWbCatalogOption payload)))
    ∧ (Routes.poiSource payload = "clone" →
       service_data sv !! "poiSourceScenarioId"
         = Some (of_opt_num (Routes.poiSourceScenario payload)))
    ∧ (Routes.roadNetworkSource payload = "new" →
       ∃ f, Routes.roadNetworkFile payload = Some f
            ∧ service_data sv !! "roadNetworkFile" = Some (JStr (upload_fileName env))
            ∧ Routes.s3 st'
              = Routes.s3 st ++ [(upload_filePath env (sc_id (row sc)), path f)]).
Proof.
  intros Hnt H. unfold Routes.handler in H.
  destruct (Routes.handler_chain dm env params payload st) as [[e|sc1] st1] eqn:Hch.
  { by destruct (includes _ _). }
  injection H as <- <-.
  apply handler_chain_factor in Hch as [(e & ? & _)|(scn & d1 & _ & _ & Hrest)]; [done|].
  simpl in Hrest.
  destruct Hrest as [(e & ? & _)|(op & d3 & rb & stb & Hop & Hb & Hrest)]; [done|].
  destruct Hrest as [(e & _ & ? & _)|(dat & -> & [= ->] & Hcs)]; [done|].
  unfold Routes.createScenario in Hcs. rewrite decide_False in Hcs by done.
  injection Hcs as <-.
  apply startOperation_ok_inv in Hop. unfold start_and_log in Hop. simpl in Hop.
  injection Hop as -> ->.
  apply build_data_inv in Hb as (Hdb & Hsv & Hother & Hnew & Hdat).
  destruct (Hdat dat eq_refl) as (Hp & Hs & Ho & Hrn & Hpoi & Hcl & Hwb & Hpc).
  eexists _, _, _.
  cbn [Routes.services Routes.db Routes.s3 service_data task_name row].
  rewrite Hsv, Hdb.
  cbn [Routes.services Routes.db Routes.s3 Routes.with_db operations append_log
       append_operation].
  split; [reflexivity|]. split; [reflexivity|].
  split; [by rewrite last_snoc|].
  cbn [service_data]. unfold object_assign.
  split; [by rewrite lookup_union_r|].
  split; [by rewrite lookup_union_r|].
  split; [by rewrite lookup_union_r|].
  split; [by apply lookup_union_Some_l|].
  split; [by apply lookup_union_Some_l|].
  split; [intros Hc; by apply lookup_union_Some_l, Hcl|].
  split; [intros Hc; by apply lookup_union_Some_l, Hwb|].
  split; [intros Hc; by apply lookup_union_Some_l, Hpc|].
  intros Hn. specialize (Hnew Hn). simpl in Hnew.
  destruct (Routes.roadNetworkFile payload) as [f|].
  - destruct (Routes.putFile_failure env) as [e|]; [by destruct Hnew|].
    destruct Hnew as (Hs3 & _ & dat' & [= <-] & Hfile).
    exists f. split; [done|]. split; [by apply lookup_union_Some_l|].
    exact Hs3.
  - by destruct Hnew as (_ & e & ? & _).
Qed.

(** X5: no rollback.  When the create handler replies an error although
    an operation was started, the request was an upload (source 'new')
    that failed; the scenario row stays, no runner is started, and the
    operation is left started: no completion handler exists that could
    close it. *)
Theorem failed_upload_leaves_operation_started dm env params payload st :
  Db_wf (Routes.db st) →
  let res := Routes.handler dm env params payload st in
  is_error_reply res.1 = true →
  operations (Routes.db res.2) ≠ operations (Routes.db st) →
  Routes.roadNetworkSource payload = "new"
  ∧ Routes.services res.2 = Routes.services st
  ∧ ∃ scenario op,
      scenarios (Routes.db res.2) = scenarios (Routes.db st) ++ [scenario]
      ∧ loadByData dm (Routes.db res.2) "scenario-create" (projId params) (sc_id scenario)
        = inr op
      ∧ isStarted op = true
      ∧ isCompleted op = false.
Proof.
  intros Hwf res. subst res.
  destruct (handler_outcome dm env params payload st) as (r & st' & Hch & Hdb & Hsv & Hr).
  rewrite Hdb, Hsv. intros Herr Hops.
  destruct r as [e|sc]; [|by rewrite Hr in Herr].
  apply handler_chain_factor in Hch as [(e' & _ & ->)|(scn & d1 & _ & Hi & Hrest)]; [done|].
  pose proof (same_operations_insert _ _ _ _ _ _ _ _ _ _
                (initial_settings (sc_id scn) (Routes.now env)) Hi) as Hsame.
  simpl in Hrest.
  destruct Hrest as [(e' & _ & _ & ->)|(op & d3 & rb & stb & Hop & Hb & Hrest)].
  { exfalso. apply Hops. destruct Hsame as (Ho & _). by rewrite Ho. }
  destruct Hrest as [(e' & -> & _ & ->)|(dat & _ & ? & _)]; [|done].
  apply build_data_inv in Hb as (Hdbb & Hsvb & Hother & _ & _).
  split.
  { destruct (decide (Routes.roadNetworkSource payload = "new")) as [|Hn]; [done|].
    by destruct (Hother Hn) as [_ [dat ?]]. }
  split; [by rewrite Hsvb|].
  rewrite Hdbb. simpl.
  destruct (loadByData_after_start dm _ _ _ op _
              (Db_wf_same_operations _ _ Hsame Hwf) Hop) as (Hl & Hs & _).
  exists scn, op. split.
  - apply startOperation_ok_inv in Hop.
    apply insert_scenario_inv in Hi as (_ & -> & _).
    pose proof (f_equal (λ x, scenarios x.2) Hop) as Hsc. simpl in Hsc. by rewrite Hsc.
  - split; [done|]. split; [done|by apply isStarted_not_completed].
Qed.

(** ** Requests that succeed *)

Lemma startOperation_fresh dm p s d :
  includes "not exist" (dm NotFoundError) = true →
  no_operation_for d p s →
  Routes.startOperation dm p s d
  = (inr (start_and_log d p s).1, (start_and_log d p s).2).
Proof.
  intros Hdm Hno. unfold Routes.startOperation, loadByData.
  unfold no_operation_for in Hno. rewrite Hno. simpl.
  apply startOperation_loaded_passes. unfold Routes.conflict_check. simpl.
  by rewrite Hdm.
Qed.

Lemma handler_succeeds dm env params payload st :
  includes "not exist" (dm NotFoundError) = true →
  validated (Routes.db st) (projId params) (Routes.roadNetworkSource payload)
            (Routes.roadNetworkSourceScenario payload) →
  Routes.insert_failure env = None →
  select_scenario_named (Routes.db st) (projId params) (Routes.name payload) = [] →
  no_operation_for (Routes.db st) (projId params) (scenarios_id_seq (Routes.db st)) →
  (Routes.roadNetworkSource payload = "new" →
   Routes.putFile_failure env = None ∧ ∃ f, Routes.roadNetworkFile payload = Some f) →
  ∃ st',
    Routes.handler dm env params payload st
    = (ReplyScenario
         (mkScenarioObj
            (mkScenario (scenarios_id_seq (Routes.db st)) (Routes.name payload)
                        (Some (default "" (Routes.description payload))) "pending" false
                        (projId params) (Routes.now env) (Routes.now env))
            (Some [("res_gen_at", JNum 0); ("rn_updated_at", JNum 0)]) (Some []) None),
       st').
Proof.
  intros Hdm Hv Hf Hfree Hno Hnew.
  unfold Routes.handler. rewrite (routes_chain_after_checks _ _ _ _ _ Hv).
  unfold bind at 1, Routes.create_base, bind at 1, catch, Routes.insert_info,
    insert_scenario.
  rewrite Hf, Hfree. cbn [Routes.db Routes.with_db].
  unfold bind at 1, ret at 1, bind at 1, Routes.lift_db at 1.
  cbn [Routes.db row sc_id].
  rewrite (startOperation_fresh dm _ _ _ Hdm) by exact Hno.
  destruct (start_and_log _ _ _) as [op d3]. cbn [fst snd].
  unfold bind at 1.
  destruct (Routes.build_data env payload _ op _) as [rb stb] eqn:Hb.
  apply build_data_inv in Hb as (_ & _ & Hother & Hn & _).
  assert (∃ dat, rb = inr dat) as [dat ->].
  { destruct (decide (Routes.roadNetworkSource payload = "new")) as [Heq|Hne].
    - specialize (Hn Heq). destruct (Hnew Heq) as [Hput [f Hfile]].
      rewrite Hfile, Hput in Hn. destruct Hn as (_ & _ & dat & ? & _). by exists dat.
    - by destruct (Hother Hne). }
  unfold bind at 1.
  edestruct (createScenario_cases dm env) as (sd & ->).
  unfold ret. by eexists.
Qed.

(** X6: the create handler has no other reasons to fail than the ones it
    checks.  When the error of a load that finds nothing is recognised
    (its message contains "not exist"), a request for an existing project
    that is not pending, with an existing source when it clones, a name
    that is free, no failure of the insert or of the upload, and no
    operation recorded for the scenario identity to come, is replied the
    new scenario. *)
Theorem create_request_succeeds dm env params payload st :
  includes "not exist" (dm NotFoundError) = true →
  validated (Routes.db st) (projId params) (Routes.roadNetworkSource payload)
            (Routes.roadNetworkSourceScenario payload) →
  Routes.insert_failure env = None →
  select_scenario_named (Routes.db st) (projId params) (Routes.name payload) = [] →
  no_operation_for (Routes.db st) (projId params) (scenarios_id_seq (Routes.db st)) →
  (Routes.roadNetworkSource payload = "new" →
   Routes.putFile_failure env = None ∧ ∃ f, Routes.roadNetworkFile payload = Some f) →
  (Routes.handler dm env params payload st).1
  = ReplyScenario
      (mkScenarioObj
         (mkScenario (scenarios_id_seq (Routes.db st)) (Routes.name payload)
                     (Some (default "" (Routes.description payload))) "pending" false
                     (projId params) (Routes.now env) (Routes.now env))
         (Some [("res_gen_at", JNum 0); ("rn_updated_at", JNum 0)]) (Some []) None).
Proof.
  intros Hdm Hv Hf Hfree Hno Hnew.
  destruct (handler_succeeds dm env params payload st Hdm Hv Hf Hfree Hno Hnew)
    as [st' ->].
  reflexivity.
Qed.

(** X7: the duplicate endpoint always finds a name that the insert
    accepts.  For an existing source scenario in a project that is not
    pending, with no failure of the insert of its own and no operation
    recorded for the scenario identity to come, the request is replied
    the copy: a new scenario of the project, pending and not master, with
    the description of the source (or the empty one) and the name
    '<source name> (n)' for the least n >= 2 that is free. *)
Theorem duplicate_succeeds dm env p s st source :
  includes "not exist" (dm NotFoundError) = true →
  head (select_scenario (Routes.db st) s p) = Some source →
  (∃ status rest, select_project_status (Routes.db st) p = status :: rest
                  ∧ status ≠ "pending") →
  Routes.insert_failure env = None →
  no_operation_for (Routes.db st) p (scenarios_id_seq (Routes.db st)) →
  ∃ (n : N) st',
    (2 ≤ n)%N
    ∧ (∀ m, (2 ≤ m < n)%N →
            select_scenario_named (Routes.db st) p (candidate (sc_name source) m) ≠ [])
    ∧ Routes.duplicate dm env p s st
      = Some (ReplyScenario
                (mkScenarioObj
                   (mkScenario (scenarios_id_seq (Routes.db st))
                               (sc_name source +:+ " (" +:+ pretty n +:+ ")")
                               (Some (default "" (sc_description source))) "pending" false
                               p (Routes.now env) (Routes.now env))
                   (Some [("res_gen_at", JNum 0); ("rn_updated_at", JNum 0)])
                   (Some []) None),
              st').
Proof.
  intros Hdm Hsrc Hproj Hf Hno.
  destruct (free_candidate_exists (Routes.db st) p (sc_name source)) as (i & Hi & Hfree).
  destruct (fn_spec (Routes.db st) p (sc_name source)
              (S (length (scenarios (Routes.db st)))) 2) as (n & Hfn & Hle & Hn & Hmin).
  { exists (2 + N.of_nat i)%N. split; [lia|done]. }
  assert (Routes.findName (Routes.db st) p (sc_name source)
          = Some (candidate (sc_name source) n)) as Hfind by exact Hfn.
  destruct (handler_succeeds dm env (mkParams p (Some s))
              (Routes.mkPayload (candidate (sc_name source) n) (sc_description source)
                                "clone" (Some s) None None "clone" (Some s)) st)
    as [st' Hh]; try done.
  { split; [exact Hproj|]. intros _. exists s. split; [done|].
    simpl. intros Hnil. by rewrite Hnil in Hsrc. }
  exists n, st'. split; [done|]. split; [done|].
  unfold Routes.duplicate. rewrite Hsrc, Hfind. by rewrite Hh.
Qed.

Lemma select_scenario_named_insert d name description status master p c u scenario d1 x :
  insert_scenario d name description status master p c u = inr (scenario, d1) →
  select_scenario_named d1 p x
  = select_scenario_named d p x ++ (if decide (x = name) then [scenario] else []).
Proof.
  intros H. apply insert_scenario_inv in H as (-> & -> & _).
  unfold select_scenario_named. simpl. rewrite filter_app. f_equal.
  destruct (decide (x = name)) as [->|Hne].
  - by rewrite filter_cons_True.
  - rewrite filter_cons_False; [done|]. simpl. intros [_ ?]. congruence.
Qed.

(** X8: copies of one scenario are numbered upwards.  Once the copy with
    the name that the search returned is inserted, the next search for
    the same source name returns a name with a larger number, so two
    copies never get the same name. *)
Theorem duplicate_numbers_increase d p name n description status master c u scenario d1 :
  Routes.findName d p name = Some (candidate name n) →
  insert_scenario d (candidate name n) description status master p c u
    = inr (scenario, d1) →
  ∃ n', (n < n')%N ∧ Routes.findName d1 p name = Some (candidate name n').
Proof.
  intros Hfind Hins.
  destruct (free_candidate_exists d p name) as (i & Hi & Hfree).
  destruct (fn_spec d p name (S (length (scenarios d))) 2) as (n0 & Hfn & Hle & Hn & Hmin).
  { exists (2 + N.of_nat i)%N. split; [lia|done]. }
  assert (n0 = n) as ->.
  { unfold Routes.findName in Hfind. rewrite Hfn in Hfind.
    injection Hfind as Heq. by apply candidate_inj in Heq. }
  destruct (free_candidate_exists d1 p name) as (i1 & Hi1 & Hfree1).
  destruct (fn_spec d1 p name (S (length (scenarios d1))) 2)
    as (n1 & Hfn1 & Hle1 & Hn1 & Hmin1).
  { exists (2 + N.of_nat i1)%N. split; [lia|done]. }
  exists n1. split; [|exact Hfn1].
  destruct (decide (n < n1)%N) as [|Hge]; [done|]. exfalso.
  rewrite (select_scenario_named_insert _ _ _ _ _ _ _ _ _ _ _ Hins) in Hn1.
  apply app_eq_nil in Hn1 as [Hold Hnew].
  destruct (decide (n1 = n)) as [->|Hne].
  - by rewrite decide_True in Hnew.
  - apply (Hmin n1); [lia|done].
Qed.

(** ** The route of [config/offline.js] after the start of the operation *)

Lemma offline_chain_factor dm env params payload st r st' :
  Offline.handler_chain dm env params payload st = (r, st') →
  (∃ e, r = inl e ∧ st' = st)
  ∨ ∃ scenario d1,
      insert_scenario (Offline.db st) (Offline.name payload)
        (Some (default "" (Offline.description payload))) "pending" false
        (projId params) (Offline.created_now env) (Offline.updated_now env)
      = inr (scenario, d1)
      ∧ ((∃ e, r = inl e ∧ st' = Offline.with_db (λ _, d1) st)
         ∨ ∃ op d3,
             Offline.startOperation dm (projId params) (sc_id scenario) d1 = (inr op, d3)
             ∧ Offline.dispatch dm env params payload op
                 (mkScenarioObj scenario None None None) (Offline.with_db (λ _, d3) st)
               = (r, st')).
Proof.
  rewrite offline_handler_chain_steps.
  unfold bind at 1, Offline.check_project, throw, ret.
  destruct (select_project_status _ _) as [|status rest].
  { intros [= <- <-]. left. by eexists. }
  destruct (String.eqb status "pending").
  { intros [= <- <-]. left. by eexists. }
  unfold bind at 1.
  assert (∃ r0, Offline.check_source dm params payload st = (r0, st)) as [r0 ->].
  { unfold Offline.check_source, throw, ret. destruct (String.eqb _ _); [|by eexists].
    destruct (from_option _ _ _); by eexists. }
  destruct r0 as [e|[]].
  { intros [= <- <-]. left. by eexists. }
  unfold bind at 1, Offline.create_base, catch, Offline.insert_info, throw.
  destruct (Offline.insert_failure env) as [e|].
  { destruct (decide _); intros [= <- <-]; left; by eexists. }
  destruct (insert_scenario _ _ _ _ _ _ _ _) as [e|[sc d1]] eqn:Hi.
  { destruct (decide _); intros [= <- <-]; left; by eexists. }
  intros H. right. exists sc, d1. split; [done|].
  unfold bind at 1, Offline.lift_db at 1 in H. simpl in H.
  change (Offline.startOperation dm) with (Routes.startOperation dm) in *.
  destruct (startOperation_cases dm (projId params) (sc_id sc) d1) as [[e He]|Hok].
  { rewrite He in H. injection H as <- <-. left. by exists e. }
  rewrite Hok in H.
  destruct (start_and_log d1 (projId params) (sc_id sc)) as [op d3] eqn:Hsl.
  simpl in H. right. exists op, d3. split; [done|]. exact H.
Qed.

Lemma offline_dispatch_inv dm env params payload op obj st r st' :
  Offline.dispatch dm env params payload op obj st = (r, st') →
  Offline.db st' = Offline.db st
  ∧ (Offline.roadNetworkSource payload = "clone" →
     Offline.listeners st' = Offline.listeners st
     ∧ if decide (Offline.DS_ENV env = Some "test")
       then st' = st ∧ r = inr (Some (ReplyScenario obj))
       else match Offline.closeDatabase_failure env with
            | Some e => st' = st ∧ r = inl e
            | None =>
                r = inr (Some (ReplyScenario obj))
                ∧ Offline.closed_databases st'
                  = Offline.closed_databases st
                    ++ [(projId params, of_opt_num (Offline.roadNetworkSourceScenario payload))]
                ∧ ∃ sd, Offline.services st'
                        = Offline.services st
                          ++ [mkServiceRunner "scenario-create" sd
                                (Offline.createScenario_complete dm (op_id op))]
            end)
  ∧ (Offline.roadNetworkSource payload = "new" →
     Offline.services st' = Offline.services st
     ∧ Offline.closed_databases st' = Offline.closed_databases st
     ∧ match Offline.presignedUrl env with
       | inl e => st' = st ∧ r = inl e
       | inr url =>
           r = inr (Some (ReplyScenario
                            (mkScenarioObj (row obj) (sc_data obj) (sc_admin_areas obj)
                               (Some [("fileName", JStr (offline_fileName env));
                                      ("presignedUrl", JStr url)]))))
           ∧ Offline.listeners st'
             = Offline.listeners st
               ++ [Offline.mkListener (offline_filePath env (sc_id (row obj)))
                              (sc_project_id (row obj)) (sc_id (row obj)) (op_id op)
                              "new" (offline_fileName env)]
       end)
  ∧ (Offline.roadNetworkSource payload ≠ "clone" →
     Offline.roadNetworkSource payload ≠ "new" → st' = st ∧ r = inr None).
Proof.
  unfold Offline.dispatch, Offline.createScenario, Offline.handleRoadNetworkUpload,
    Offline.closeDatabase, bind, ret, throw.
  fold (offline_fileName env). fold (offline_filePath env (sc_id (row obj))).
  destruct (String.eqb_spec (Offline.roadNetworkSource payload) "clone") as [Hc|Hc].
  - rewrite Hc. simpl.
    destruct (decide (Offline.DS_ENV env = Some "test")).
    + intros [= <- <-]. split; [done|]. split; [done|]. split; [done|]. done.
    + destruct (Offline.closeDatabase_failure env) as [e|]; intros [= <- <-]; simpl.
      * split; [done|]. split; [done|]. split; [done|]. done.
      * split; [done|]. split; [|split; [done|done]]. intros _.
        split; [done|]. split; [done|]. split; [done|]. by eexists.
  - destruct (String.eqb_spec (Offline.roadNetworkSource payload) "new") as [Hn|Hn].
    + rewrite Hn. destruct (Offline.presignedUrl env) as [e|url]; intros [= <- <-]; simpl.
      * split; [done|]. split; [done|]. split; [|done]. done.
      * split; [done|]. split; [done|]. split; [|done]. done.
    + intros [= <- <-]. split; [done|]. split; [done|]. split; [done|]. done.
Qed.

Lemma offline_dispatch_reply dm env params payload op obj st replied st' :
  Offline.dispatch dm env params payload op obj st = (inr replied, st') →
  replied = None ∨ ∃ sc, replied = Some (ReplyScenario sc).
Proof.
  intros H. apply offline_dispatch_inv in H as (_ & Hc & Hn & Ho).
  destruct (decide (Offline.roadNetworkSource payload = "clone")) as [Hcl|Hcl].
  - destruct (Hc Hcl) as [_ Hr]. destruct (decide _).
    + destruct Hr as [_ [= ->]]. right. by eexists.
    + destruct (Offline.closeDatabase_failure env); [by destruct Hr|].
      destruct Hr as ([= ->] & _). right. by eexists.
  - destruct (decide (Offline.roadNetworkSource payload = "new")) as [Hnew|Hnew].
    + destruct (Hn Hnew) as (_ & _ & Hr).
      destruct (Offline.presignedUrl env); [by destruct Hr|].
      destruct Hr as ([= ->] & _). right. by eexists.
    + destruct (Ho Hcl Hnew) as [_ [= ->]]. by left.
Qed.

Lemma offline_handler_cases dm env params payload st :
  (∃ e r, Offline.handler_chain dm env params payload st
          = (inl e, (Offline.handler dm env params payload st).2)
          ∧ (Offline.handler dm env params payload st).1 = Some r
          ∧ is_error_reply r = true)
  ∨ (Offline.handler_chain dm env params payload st
     = (inr (Offline.handler dm env params payload st).1,
        (Offline.handler dm env params payload st).2)
     ∧ ((Offline.handler dm env params payload st).1 = None
        ∨ ∃ sc, (Offline.handler dm env params payload st).1 = Some (ReplyScenario sc))).
Proof.
  unfold Offline.handler.
  destruct (Offline.handler_chain dm env params payload st) as [[e|replied] st1] eqn:Hch;
    simpl.
  - left. exists e. destruct (err_class e); by eexists.
  - right. split; [done|].
    apply offline_chain_factor in Hch
      as [(e & ? & _)|(sc & d1 & _ & [(e & ? & _)|(op & d3 & _ & Hd)])]; try done.
    by eapply offline_dispatch_reply.
Qed.

(** X9: on the route of [config/offline.js] a request with the source
    'new' that is replied a scenario has started no runner: the reply
    carries the name of the file to upload and the presigned url, and a
    listener waits for the file at 'scenario-<id>/road-network_<time>'.
    The runner is started when the file arrives, outside test mode, with
    the file name, the scenario, its project and the operation of the
    request in its payload; in test mode the arrival changes nothing. *)
Theorem offline_upload_defers_runner dm env params payload st sc st' :
  Offline.roadNetworkSource payload = "new" →
  Offline.handler dm env params payload st = (Some (ReplyScenario sc), st') →
  Offline.services st' = Offline.services st
  ∧ ∃ url opId,
      Offline.presignedUrl env = inr url
      ∧ roadNetworkUpload sc
        = Some [("fileName", JStr (offline_fileName env)); ("presignedUrl", JStr url)]
      ∧ sc_project_id (row sc) = projId params
      ∧ last (operations (Offline.db st')) =
        Some (mkOperationRow opId "scenario-create" (projId params) (sc_id (row sc))
                             (clock (Offline.db st)))
      ∧ Offline.listeners st'
        = Offline.listeners st
          ++ [Offline.mkListener (offline_filePath env (sc_id (row sc))) (projId params)
                                 (sc_id (row sc)) opId "new" (offline_fileName env)]
      ∧ (∀ env', Offline.DS_ENV env' = Some "test" →
           Offline.step dm st' (Offline.FileUploaded env' (length (Offline.listeners st)))
           = st')
      ∧ (∀ env', Offline.DS_ENV env' ≠ Some "test" →
           ∃ sv,
             Offline.services
               (Offline.step dm st'
                  (Offline.FileUploaded env' (length (Offline.listeners st))))
             = Offline.services st' ++ [sv]
             ∧ task_name sv = "scenario-create"
             ∧ on_complete sv = Offline.createScenario_complete dm opId
             ∧ service_data sv !! "projId" = Some (JNum (projId params))
             ∧ service_data sv !! "scId" = Some (JNum (sc_id (row sc)))
             ∧ service_data sv !! "opId" = Some (JNum opId)
             ∧ service_data sv !! "source" = Some (JStr "new")
             ∧ service_data sv !! "roadNetworkFile" = Some (JStr (offline_fileName env))).
Proof.
  intros Hnew H.
  destruct (offline_handler_cases dm env params payload st)
    as [(e & r & _ & Hr & Herr)|[Hch _]]; rewrite H in *; simpl in *.
  { by injection Hr as <-. }
  apply offline_chain_factor in Hch
    as [(e & ? & _)|(scn & d1 & Hi & [(e & ? & _)|(op & d3 & Hop & Hd)])]; try done.
  apply offline_dispatch_inv in Hd as (Hdb & _ & Hn & _).
  destruct (Hn Hnew) as (Hsv & _ & Hr).
  destruct (Offline.presignedUrl env) as [e|url]; [by destruct Hr|].
  destruct Hr as ([= ->] & Hl). simpl in *.
  split; [done|]. exists url, (op_id op).
  apply insert_scenario_inv in Hi as (Hscn & Hd1 & _).
  assert (sc_project_id scn = projId params) as Hproj by (by rewrite Hscn).
  rewrite Hproj in Hl.
  change (Offline.startOperation dm) with (Routes.startOperation dm) in Hop.
  apply startOperation_ok_inv in Hop. unfold start_and_log in Hop. simpl in Hop.
  injection Hop as -> ->. simpl in *.
  split; [done|]. split; [done|]. split; [done|].
  split; [rewrite Hdb, Hd1; simpl; by rewrite last_snoc|].
  split; [done|].
  split.
  - intros env' Ht. rewrite Hl, lookup_app_r by lia. rewrite Nat.sub_diag. simpl.
    unfold Offline.createScenario. rewrite decide_True by done. done.
  - intros env' Ht. rewrite Hl, lookup_app_r by lia. rewrite Nat.sub_diag. simpl.
    unfold Offline.createScenario. rewrite decide_False by done.
    simpl. unfold bind, ret. simpl. eexists.
    split; [reflexivity|]. cbn [task_name on_complete service_data].
    split; [done|]. split; [done|]. unfold object_assign.
    split; [by rewrite lookup_union_r|].
    split; [by rewrite lookup_union_r|].
    split; [by rewrite lookup_union_r|].
    split; [by rewrite lookup_union_r|].
    by apply lookup_union_Some_l.
Qed.

(** X10: on the route of [config/offline.js] the source database of a
    clone is closed before the runner is started.  A clone request that
    is replied a scenario outside test mode has closed the database of the
    source scenario of the project and started one runner; in test mode
    it has done neither.  When closing the database fails, no runner is
    started and the caller gets an error reply. *)
Theorem offline_clone_closes_database dm env params payload st :
  Offline.roadNetworkSource payload = "clone" →
  let res := Offline.handler dm env params payload st in
  (∀ sc, res.1 = Some (ReplyScenario sc) →
     if decide (Offline.DS_ENV env = Some "test")
     then Offline.services res.2 = Offline.services st
          ∧ Offline.closed_databases res.2 = Offline.closed_databases st
     else Offline.closeDatabase_failure env = None
          ∧ Offline.closed_databases res.2
            = Offline.closed_databases st
              ++ [(projId params, of_opt_num (Offline.roadNetworkSourceScenario payload))]
          ∧ ∃ sv, Offline.services res.2 = Offline.services st ++ [sv]
                  ∧ task_name sv = "scenario-create")
  ∧ (∀ e, Offline.DS_ENV env ≠ Some "test" →
          Offline.closeDatabase_failure env = Some e →
          Offline.services res.2 = Offline.services st
          ∧ Offline.closed_databases res.2 = Offline.closed_databases st
          ∧ ∃ r, res.1 = Some r ∧ is_error_reply r = true).
Proof.
  intros Hclone res. subst res.
  destruct (offline_handler_cases dm env params payload st)
    as [(e & r & Hch & Hr & Herr)|[Hch Hrep]].
  - split.
    + intros sc Hsc. rewrite Hsc in Hr. by injection Hr as <-.
    + intros e' Hnt Hfail.
      apply offline_chain_factor in Hch
        as [(e0 & _ & ->)|(scn & d1 & _ & [(e0 & _ & ->)|(op & d3 & _ & Hd)])].
      * split; [done|]. split; [done|]. by exists r.
      * split; [done|]. split; [done|]. by exists r.
      * apply offline_dispatch_inv in Hd as (_ & Hc & _).
        destruct (Hc Hclone) as [_ Hres]. rewrite decide_False, Hfail in Hres by done.
        destruct Hres as [-> _]. split; [done|]. split; [done|]. by exists r.
  - apply offline_chain_factor in Hch
      as [(e0 & ? & _)|(scn & d1 & _ & [(e0 & ? & _)|(op & d3 & _ & Hd)])]; try done.
    apply offline_dispatch_inv in Hd as (_ & Hc & _).
    destruct (Hc Hclone) as [_ Hres].
    split.
    + intros sc Hsc. destruct (decide (Offline.DS_ENV env = Some "test")).
      * destruct Hres as [-> _]. done.
      * destruct (Offline.closeDatabase_failure env) as [e|].
        { destruct Hres as [_ Hr]. by rewrite Hsc in Hr. }
        destruct Hres as (_ & -> & sd & ->). split; [done|]. split; [done|].
        by eexists.
    + intros e Hnt Hfail. rewrite decide_False, Hfail in Hres by done.
      by destruct Hres as [_ ?].
Qed.

(** X11: what the caller is replied when a check fails.  On the route of
    [config/offline.js] a missing project is replied as Boom.notFound
    with the message of the error, a pending project as Boom.conflict
    with 'Project setup not completed', and a missing source of a clone as
    Boom.badRequest with 'Source scenario for cloning not found'.  The
    handler of [routes/scenarios--create.js] replies the missing source of
    a clone as Boom.badRequest with that message as well, and a pending
    project through the general error response.  Nothing is written to the
    store in any of these cases. *)
Theorem check_failure_replies dm env oenv params payload opayload st ost :
  (select_project_status (Offline.db ost) (projId params) = [] →
     Offline.handler dm oenv params opayload ost
     = (Some (ReplyNotFound (dm ProjectNotFoundError)), ost))
  ∧ (∀ rest, select_project_status (Offline.db ost) (projId params) = "pending" :: rest →
       Offline.handler dm oenv params opayload ost
       = (Some (ReplyConflict "Project setup not completed"), ost))
  ∧ (∀ status rest src,
       select_project_status (Offline.db ost) (projId params) = status :: rest →
       status ≠ "pending" →
       Offline.roadNetworkSource opayload = "clone" →
       Offline.roadNetworkSourceScenario opayload = Some src →
       select_scenario (Offline.db ost) src (projId params) = [] →
       Offline.handler dm oenv params opayload ost
       = (Some (ReplyBadRequest "Source scenario for cloning not found"), ost))
  ∧ (∀ rest, select_project_status (Routes.db st) (projId params) = "pending" :: rest →
       (Routes.handler dm env params payload st).1
       = ReplyErrorResponse (mkErr DataConflictError "Project setup not completed" None)
       ∧ Routes.db (Routes.handler dm env params payload st).2 = Routes.db st)
  ∧ (∀ status rest src,
       select_project_status (Routes.db st) (projId params) = status :: rest →
       status ≠ "pending" →
       Routes.roadNetworkSource payload = "clone" →
       Routes.roadNetworkSourceScenario payload = Some src →
       select_scenario (Routes.db st) src (projId params) = [] →
       (Routes.handler dm env params payload st).1
       = ReplyBadRequest "Source scenario for cloning not found"
       ∧ Routes.db (Routes.handler dm env params payload st).2 = Routes.db st).
Proof.
  repeat apply conj.
  - intros Hp. unfold Offline.handler, Offline.handler_chain. unfold bind at 1.
    by rewrite Hp.
  - intros rest Hp. unfold Offline.handler, Offline.handler_chain. unfold bind at 1.
    by rewrite Hp.
  - intros status rest src Hp Hs Hc Hsrc Hnone.
    unfold Offline.handler, Offline.handler_chain. unfold bind at 1.
    rewrite Hp. apply String.eqb_neq in Hs. rewrite Hs. unfold ret at 1.
    unfold bind at 1. rewrite Hc, Hsrc. simpl. by rewrite Hnone.
  - intros rest Hp.
    assert (Routes.handler_chain dm env params payload st
            = (inl (mkErr DataConflictError "Project setup not completed" None), st))
      as Hch.
    { rewrite handler_chain_steps. unfold bind at 1, Routes.check_project.
      by rewrite Hp. }
    unfold Routes.handler. rewrite Hch.
    destruct (Routes.roadNetworkFile payload); split; reflexivity.
  - intros status rest src Hp Hs Hc Hsrc Hnone.
    assert (Routes.handler_chain dm env params payload st
            = (inl (mkErr ScenarioNotFoundError "Source scenario for cloning not found"
                          None), st)) as Hch.
    { rewrite handler_chain_steps. unfold bind at 1, Routes.check_project.
      rewrite Hp. apply String.eqb_neq in Hs. rewrite Hs. unfold ret at 1.
      unfold bind at 1, Routes.check_source. rewrite Hc, Hsrc. simpl. by rewrite Hnone. }
    unfold Routes.handler. rewrite Hch.
    destruct (Routes.roadNetworkFile payload); split; reflexivity.
Qed.

(** ** The file removal route *)

Lemma select_joined_head st projId fileId :
  head (Files.select_joined st projId fileId)
  = match filter (λ p, p_id p = projId) (Files.projects st) with
    | [] => None
    | p :: _ =>
        Some (Files.mkJoined (p_id p) (p_status p)
                ((λ f, (Files.pf_id f, Files.pf_path f))
                   <$> head (filter (λ f, Files.pf_project_id f = p_id p
                                          ∧ Files.pf_id f = fileId)
                                    (Files.projects_files st))))
    end.
Proof.
  unfold Files.select_joined.
  destruct (filter _ (Files.projects st)) as [|p ps]; [done|].
  simpl. by destruct (filter _ (Files.projects_files st)).
Qed.

(** The handler in terms of the first project with the identity and the
    first of its files with the identity. *)
Lemma files_handler_unfold failure projId fileId st :
  Files.handler failure projId fileId st
  = match filter (λ p, p_id p = projId) (Files.projects st) with
    | [] => (Files.ReplyErrorResponse Files.ProjectNotFoundError, st)
    | p :: _ =>
        if negb (String.eqb (p_status p) "pending")
        then (Files.ReplyErrorResponse
                (Files.ProjectStatusError
                   "Project no longer in the setup phase. Files can not be removed"), st)
        else
          match head (filter (λ f, Files.pf_project_id f = p_id p ∧ Files.pf_id f = fileId)
                             (Files.projects_files st)) with
          | None => (Files.ReplyErrorResponse Files.FileNotFoundError, st)
          | Some f =>
              match failure with
              | Some msg => (Files.ReplyErrorResponse (Files.StorageError msg),
                             Files.del_file st (Files.pf_id f))
              | None =>
                  (Files.ReplyDeleted,
                   Files.mkState (Files.projects st)
                     (filter (λ g, Files.pf_id g ≠ Files.pf_id f) (Files.projects_files st))
                     (filter (λ o, o ≠ Files.pf_path f) (Files.storage st)))
              end
          end
    end.
Proof.
  unfold Files.handler.
  pose proof (select_joined_head st projId fileId) as Hh.
  destruct (filter _ (Files.projects st)) as [|p ps].
  { by destruct (Files.select_joined st projId fileId). }
  destruct (Files.select_joined st projId fileId) as [|dat rest]; [done|].
  injection Hh as ->. simpl.
  destruct (negb _); [done|].
  destruct (head _) as [f|]; [|done]. simpl.
  by destruct failure.
Qed.

Lemma head_filter_Some {A} (P : A → Prop) `{∀ x, Decision (P x)} (l : list A) x :
  head (filter P l) = Some x → P x ∧ x ∈ l.
Proof.
  intros Hh. assert (x ∈ filter P l) as Hin.
  { destruct (filter P l); [done|]. injection Hh as ->. left. }
  by apply list_elem_of_filter in Hin.
Qed.

Lemma head_filter_None {A} (P : A → Prop) `{∀ x, Decision (P x)} (l : list A) :
  head (filter P l) = None ↔ ∀ x, x ∈ l → ¬ P x.
Proof.
  split.
  - intros Hh x Hx HP.
    assert (x ∈ filter P l) as Hin by (by apply list_elem_of_filter).
    destruct (filter P l); [by apply elem_of_nil in Hin|done].
  - intros Hno. destruct (filter P l) as [|x l'] eqn:Hf; [done|]. exfalso.
    assert (x ∈ filter P l) as Hin by (rewrite Hf; left).
    apply list_elem_of_filter in Hin as [HP Hin]. by apply (Hno x).
Qed.

(** X12: when the file removal route refuses.  A project that does not
    exist gives ProjectNotFoundError; a project that is not pending gives
    ProjectStatusError, whether the file exists or not; a pending project
    without a file of that identity gives FileNotFoundError, and this
    includes a file of that identity that belongs to another project.
    Nothing is removed in any of these cases. *)
Theorem file_removal_refused failure projId fileId st :
  (filter (λ p, p_id p = projId) (Files.projects st) = [] →
     Files.handler failure projId fileId st
     = (Files.ReplyErrorResponse Files.ProjectNotFoundError, st))
  ∧ (∀ p rest, filter (λ p, p_id p = projId) (Files.projects st) = p :: rest →
       p_status p ≠ "pending" →
       Files.handler failure projId fileId st
       = (Files.ReplyErrorResponse
            (Files.ProjectStatusError
               "Project no longer in the setup phase. Files can not be removed"), st))
  ∧ (∀ p rest, filter (λ p, p_id p = projId) (Files.projects st) = p :: rest →
       p_status p = "pending" →
       (∀ f, f ∈ Files.projects_files st → Files.pf_id f = fileId →
             Files.pf_project_id f ≠ projId) →
       Files.handler failure projId fileId st
       = (Files.ReplyErrorResponse Files.FileNotFoundError, st)).
Proof.
  rewrite files_handler_unfold. repeat apply conj.
  - by intros ->.
  - intros p rest -> Hs. apply String.eqb_neq in Hs. by rewrite Hs.
  - intros p rest Hf Hs Hno.
    assert (p_id p = projId) as Hid.
    { assert (p ∈ filter (λ p, p_id p = projId) (Files.projects st)) as Hin
        by (rewrite Hf; left).
      by apply list_elem_of_filter in Hin as [? _]. }
    rewrite Hf, Hs. simpl.
    assert (head (filter (λ f, Files.pf_project_id f = p_id p ∧ Files.pf_id f = fileId)
                         (Files.projects_files st)) = None) as ->; [|done].
    apply head_filter_None. intros f Hin [Hp Hfid]. apply (Hno f Hin Hfid). congruence.
Qed.

(** X13: what a request to the file removal route can change.  Whatever
    the reply, the projects stay as they are, the files with another
    identity stay as they are and in their order, and nothing is added to
    the storage.  When the reply is 'File deleted', the project is pending,
    a file with the identity belonged to it, no file with the identity is
    left, and the object at the path of that file is gone from the
    storage. *)
Theorem file_removal_effect failure projId fileId st :
  let res := Files.handler failure projId fileId st in
  Files.projects res.2 = Files.projects st
  ∧ filter (λ f, Files.pf_id f ≠ fileId) (Files.projects_files res.2)
    = filter (λ f, Files.pf_id f ≠ fileId) (Files.projects_files st)
  ∧ (∀ o, o ∈ Files.storage res.2 → o ∈ Files.storage st)
  ∧ (res.1 = Files.ReplyDeleted →
     (∃ p rest, filter (λ p, p_id p = projId) (Files.projects st) = p :: rest
                ∧ p_status p = "pending")
     ∧ (∀ f, f ∈ Files.projects_files res.2 → Files.pf_id f ≠ fileId)
     ∧ ∃ f, f ∈ Files.projects_files st
            ∧ Files.pf_id f = fileId ∧ Files.pf_project_id f = projId
            ∧ Files.pf_path f ∉ Files.storage res.2).
Proof.
  intros res. subst res. rewrite files_handler_unfold.
  destruct (filter (λ p, p_id p = projId) (Files.projects st)) as [|p rest] eqn:Hp.
  { done. }
  assert (p_id p = projId) as Hid.
  { assert (p ∈ filter (λ p, p_id p = projId) (Files.projects st)) as Hin
      by (rewrite Hp; left).
    by apply list_elem_of_filter in Hin as [? _]. }
  destruct (String.eqb_spec (p_status p) "pending") as [Hs|Hs]; simpl; [|done].
  destruct (head _) as [f|] eqn:Hh; [|done].
  apply head_filter_Some in Hh as [[Hfp Hfid] Hin].
  assert (filter (λ g, Files.pf_id g ≠ fileId)
                 (filter (λ g, Files.pf_id g ≠ Files.pf_id f) (Files.projects_files st))
          = filter (λ g, Files.pf_id g ≠ fileId) (Files.projects_files st)) as Hother.
  { rewrite Hfid. apply list_filter_filter_l. done. }
  destruct failure as [msg|]; simpl.
  - split; [done|]. split; [exact Hother|]. split; [done|]. done.
  - split; [done|]. split; [exact Hother|].
    split; [intros o Ho; by apply list_elem_of_filter in Ho as [_ ?]|].
    intros _. split; [by exists p, rest|]. split.
    + intros g Hg. apply list_elem_of_filter in Hg as [Hne _]. by rewrite <- Hfid.
    + exists f. split; [done|]. split; [done|]. split; [congruence|].
      intros Ho. by apply list_elem_of_filter in Ho as [Hne _].
Qed.

(** X14: removing a file twice.  After a request that was replied 'File
    deleted', the same request is refused with FileNotFoundError and
    changes nothing, whatever the storage service would do. *)
Theorem file_removal_twice failure failure' projId fileId st st' :
  Files.handler failure projId fileId st = (Files.ReplyDeleted, st') →
  Files.handler failure' projId fileId st'
  = (Files.ReplyErrorResponse Files.FileNotFoundError, st').
Proof.
  rewrite !files_handler_unfold.
  destruct (filter (λ p, p_id p = projId) (Files.projects st)) as [|p rest] eqn:Hp;
    [done|].
  destruct (String.eqb_spec (p_status p) "pending") as [Hs|Hs]; simpl; [|done].
  destruct (head _) as [f|] eqn:Hh; [|done].
  apply head_filter_Some in Hh as [[Hfp Hfid] Hin].
  destruct failure; [done|]. intros [= <-]. simpl. rewrite Hp, Hs. simpl.
  assert (head (filter (λ g, Files.pf_project_id g = p_id p ∧ Files.pf_id g = fileId)
                  (filter (λ g, Files.pf_id g ≠ Files.pf_id f) (Files.projects_files st)))
          = None) as ->; [|done].
  apply head_filter_None. intros g Hg [_ Hgid].
  apply list_elem_of_filter in Hg as [Hne _]. congruence.
Qed.

(** X15: the removal is not atomic.  The row of the file is deleted before
    the object is removed from the storage: when the storage service
    fails, the caller gets the error, the objects of the storage are all
    still there, and the row is gone, so that the same request is then
    refused with FileNotFoundError. *)
Theorem file_removal_storage_failure msg failure' projId fileId st p rest f :
  filter (λ p, p_id p = projId) (Files.projects st) = p :: rest →
  p_status p = "pending" →
  f ∈ Files.projects_files st →
  Files.pf_id f = fileId →
  Files.pf_project_id f = projId →
  let res := Files.handler (Some msg) projId fileId st in
  res.1 = Files.ReplyErrorResponse (Files.StorageError msg)
  ∧ Files.storage res.2 = Files.storage st
  ∧ (∀ g, g ∈ Files.projects_files res.2 → Files.pf_id g ≠ fileId)
  ∧ Files.handler failure' projId fileId res.2
    = (Files.ReplyErrorResponse Files.FileNotFoundError, res.2).
Proof.
  intros Hp Hs Hin Hfid Hfp res. subst res. rewrite !files_handler_unfold.
  assert (p_id p = projId) as Hid.
  { assert (p ∈ filter (λ p, p_id p = projId) (Files.projects st)) as Hi
      by (rewrite Hp; left).
    by apply list_elem_of_filter in Hi as [? _]. }
  rewrite Hp, Hs. simpl.
  destruct (head (filter (λ g, Files.pf_project_id g = p_id p ∧ Files.pf_id g = fileId)
                         (Files.projects_files st))) as [f0|] eqn:Hh.
  - apply head_filter_Some in Hh as [[Hf0p Hf0id] Hin0]. simpl.
    split; [done|]. split; [done|]. split.
    + intros g Hg. apply list_elem_of_filter in Hg as [Hne _]. congruence.
    + rewrite Hp, Hs. simpl.
      assert (head (filter (λ g, Files.pf_project_id g = p_id p ∧ Files.pf_id g = fileId)
                      (filter (λ g, Files.pf_id g ≠ Files.pf_id f0)
                              (Files.projects_files st))) = None) as ->; [|done].
      apply head_filter_None. intros g Hg [_ Hgid].
      apply list_elem_of_filter in Hg as [Hne _]. congruence.
  - exfalso. rewrite head_filter_None in Hh. apply (Hh f Hin). split; congruence.
Qed.

(** X16: setting up and creating scenarios exclude each other.  When the
    file removal route replies 'File deleted' for a project, the create
    handler refuses a scenario for that project, over the same projects,
    with DataConflictError('Project setup not completed'). *)
Theorem file_removal_excludes_create failure pid fid fst fst' dm env params payload st :
  Files.handler failure pid fid fst = (Files.ReplyDeleted, fst') →
  projects (Routes.db st) = Files.projects fst →
  projId params = pid →
  Routes.handler_chain dm env params payload st
  = (inl (mkErr DataConflictError "Project setup not completed" None), st).
Proof.
  rewrite files_handler_unfold. intros H Hprojects Hpid.
  destruct (filter (λ p, p_id p = pid) (Files.projects fst)) as [|p rest] eqn:Hp;
    [done|].
  destruct (String.eqb_spec (p_status p) "pending") as [Hs|Hs]; simpl in H; [|done].
  rewrite handler_chain_steps. unfold bind at 1, Routes.check_project.
  unfold select_project_status. rewrite Hprojects, Hpid, Hp. simpl. by rewrite Hs.
Qed.

(** ** Reading scenarios: [scenarios--get.js] *)

Lemma map_result_inr {A B} (f : A → Err + B) l ys :
  Get.map_result f l = inr ys → Forall2 (λ x y, f x = inr y) l ys.
Proof.
  revert ys. induction l as [|x l IH]; intros ys; simpl.
  - intros [= <-]. constructor.
  - destruct (f x) as [e|y] eqn:Hx; [discriminate|].
    destruct (Get.map_result f l) as [e|ys']; [discriminate|].
    intros [= <-]. constructor; auto.
Qed.

#[local] Instance id_le_trans : Transitive Get.id_le.
Proof. intros a b c. unfold Get.id_le. lia. Qed.

#[local] Instance id_le_total : Total Get.id_le.
Proof. intros a b. unfold Get.id_le. lia. Qed.

#[local] Instance created_le_trans : Transitive Get.created_le.
Proof. intros a b c. unfold Get.created_le. lia. Qed.

#[local] Instance created_le_total : Total Get.created_le.
Proof. intros a b. unfold Get.created_le. lia. Qed.

Lemma sort_by_id_sorted l : StronglySorted Get.id_le (Get.sort_by_id l).
Proof. apply (StronglySorted_merge_sort _). Qed.

Lemma sort_by_id_perm l : Get.sort_by_id l ≡ₚ l.
Proof. apply merge_sort_Permutation. Qed.

Lemma order_by_created_at_sorted l :
  StronglySorted Get.created_le (Get.order_by_created_at l).
Proof. apply (StronglySorted_merge_sort _). Qed.

Lemma order_by_created_at_perm l : Get.order_by_created_at l ≡ₚ l.
Proof. apply merge_sort_Permutation. Qed.

Lemma order_by_created_at_singleton s : Get.order_by_created_at [s] = [s].
Proof.
  pose proof (order_by_created_at_perm [s]) as H.
  symmetry in H. by apply Permutation_singleton_l in H.
Qed.

Lemma order_by_created_at_nil : Get.order_by_created_at [] = [].
Proof.
  pose proof (order_by_created_at_perm []) as H.
  by apply Permutation_nil_r in H.
Qed.

(** With identifiers that no two rows share, a row is known by its
    identifier. *)
Lemma scenario_id_inj (l : list Scenario) x s :
  NoDup (sc_id <$> l) → x ∈ l → s ∈ l → sc_id x = sc_id s → x = s.
Proof.
  intros Hnd Hx Hs Hid.
  apply list_elem_of_lookup in Hx as [i Hi], Hs as [j Hj].
  assert (i = j).
  { eapply NoDup_lookup; [exact Hnd| |].
    - rewrite list_lookup_fmap, Hi. reflexivity.
    - rewrite list_lookup_fmap, Hj. simpl. by rewrite Hid. }
  subst j. congruence.
Qed.

Lemma select_scenario_in d scId p x :
  x ∈ select_scenario d scId p → x ∈ scenarios d ∧ sc_id x = scId ∧ sc_project_id x = p.
Proof.
  unfold select_scenario. intros H. apply list_elem_of_filter in H as [[? ?] ?]. done.
Qed.

(** With identifiers that no two rows share, the lookup of a row of the
    project by its identifier finds that row alone. *)
Lemma select_scenario_unique d s :
  NoDup (sc_id <$> scenarios d) →
  s ∈ scenarios d →
  select_scenario d (sc_id s) (sc_project_id s) = [s].
Proof.
  intros Hnd Hin.
  assert (s ∈ select_scenario d (sc_id s) (sc_project_id s)) as Hs.
  { unfold select_scenario. apply list_elem_of_filter. done. }
  assert (∀ x, x ∈ select_scenario d (sc_id s) (sc_project_id s) → x = s) as Hall.
  { intros x Hx. apply select_scenario_in in Hx as (? & ? & ?).
    by apply (scenario_id_inj (scenarios d)). }
  assert (NoDup (select_scenario d (sc_id s) (sc_project_id s))) as Hnd'.
  { unfold select_scenario. apply NoDup_filter. by apply NoDup_fmap_1 in Hnd. }
  destruct (select_scenario d (sc_id s) (sc_project_id s)) as [|a [|b l]].
  - by apply elem_of_nil in Hs.
  - f_equal. apply Hall. left.
  - exfalso. apply NoDup_cons in Hnd' as [Hab _]. apply Hab.
    rewrite (Hall a) by left. rewrite (Hall b) by (right; left). left.
Qed.

Lemma select_scenario_other_project d s p :
  NoDup (sc_id <$> scenarios d) →
  s ∈ scenarios d →
  sc_project_id s ≠ p →
  select_scenario d (sc_id s) p = [].
Proof.
  intros Hnd Hin Hp.
  destruct (select_scenario d (sc_id s) p) as [|x l] eqn:Hsel; [done|].
  assert (x ∈ select_scenario d (sc_id s) p) as Hx by (rewrite Hsel; left).
  apply select_scenario_in in Hx as (Hxin & Hid & Hpx).
  assert (x = s) by (by apply (scenario_id_inj (scenarios d))).
  congruence.
Qed.

(** Under a key, the object built from a list of rows holds the value of
    the last row with that key. *)
Lemma foldl_insert_lookup {X} (f : Setting → X) (l : list Setting) (m : gmap string X) k :
  foldl (λ dat o, <[set_key o := f o]> dat) m l !! k
  = match last (filter (λ o, set_key o = k) l) with
    | Some o => Some (f o)
    | None => m !! k
    end.
Proof.
  revert m. induction l as [|x l IH]; intros m; [done|].
  simpl foldl. rewrite IH, filter_cons.
  destruct (decide (set_key x = k)) as [->|Hne].
  - rewrite last_cons. destruct (last (filter _ l)); [done|]. by rewrite lookup_insert_eq.
  - destruct (last (filter _ l)); [done|]. by rewrite lookup_insert_ne.
Qed.

Lemma filter_key_settings k scId (l : list Setting) :
  k ≠ "admin_areas" →
  filter (λ o, set_key o = k)
         (filter (λ s, set_key s ≠ "admin_areas" ∧ set_scenario_id s = scId) l)
  = filter (λ o, set_key o = k ∧ set_scenario_id o = scId) l.
Proof.
  intros Hk. induction l as [|x l IH]; [done|].
  rewrite !filter_cons.
  destruct (decide (set_key x ≠ "admin_areas" ∧ set_scenario_id x = scId)) as [[H1 H2]|Hn].
  - rewrite filter_cons.
    destruct (decide (set_key x = k)).
    + rewrite decide_True by done. by rewrite IH.
    + rewrite decide_False by (intros [? _]; done). done.
  - rewrite decide_False; [done|]. intros [<- ?]. apply Hn. done.
Qed.

Lemma filter_key_admin_areas scId (l : list Setting) :
  filter (λ o, set_key o = "admin_areas")
         (filter (λ s, set_key s ≠ "admin_areas" ∧ set_scenario_id s = scId) l) = [].
Proof.
  induction l as [|x l IH]; [done|].
  rewrite filter_cons.
  destruct (decide (set_key x ≠ "admin_areas" ∧ set_scenario_id x = scId)) as [[H1 H2]|Hn];
    [|done].
  rewrite filter_cons, decide_False by done. done.
Qed.

Lemma attachScenarioSettings_lookup {V} (JSON_parse : jsval → Err + V) d scenario k :
  Get.attachScenarioSettings V JSON_parse d scenario !! k
  = if decide (k = "admin_areas") then None
    else (λ o, Get.parseType V JSON_parse (set_value o))
         <$> last (filter (λ o, set_key o = k ∧ set_scenario_id o = sc_id scenario)
                          (scenarios_settings d)).
Proof.
  unfold Get.attachScenarioSettings, Get.select_settings.
  rewrite foldl_insert_lookup.
  destruct (decide (k = "admin_areas")) as [->|Hk].
  - by rewrite filter_key_admin_areas.
  - rewrite filter_key_settings by done.
    by destruct (last _).
Qed.

(** X17: the [data] object that [attachScenarioSettings] builds never has
    the key 'admin_areas'; under every other key it holds the value of the
    last settings row of the scenario with that key, as [parseType] gives
    it: parsed, or as it is stored when it does not parse; and nothing
    when there is no such row. *)
Theorem settings_attached {V} (JSON_parse : jsval → Err + V) d scenario k :
  Get.attachScenarioSettings V JSON_parse d scenario !! "admin_areas" = None
  ∧ (k ≠ "admin_areas" →
     Get.attachScenarioSettings V JSON_parse d scenario !! k
     = (λ o, match JSON_parse (set_value o) with
             | inr v => inl v
             | inl _ => inr (set_value o)
             end)
       <$> last (filter (λ o, set_key o = k ∧ set_scenario_id o = sc_id scenario)
                        (scenarios_settings d))).
Proof.
  rewrite !attachScenarioSettings_lookup. split; [done|].
  intros Hk. by rewrite decide_False.
Qed.

(** [parseType] keeps the value as it is stored when it does not parse. *)
Lemma parseType_cases {V} (JSON_parse : jsval → Err + V) val :
  (∃ v, JSON_parse val = inr v ∧ Get.parseType V JSON_parse val = inl v)
  ∨ (∃ e, JSON_parse val = inl e ∧ Get.parseType V JSON_parse val = inr val).
Proof.
  unfold Get.parseType. destruct (JSON_parse val) as [e|v]; [right|left]; by eexists.
Qed.

(** X18: [attachAdminAreas] sets [admin_areas] to null exactly when the
    project has no admin areas, whatever is stored as the selection;
    otherwise the value holds the areas of the project, each once, in
    ascending order of [id], and an area is flagged as selected when
    [indexOf] of the parsed selection does not give -1; without a stored
    selection no area is flagged. *)
Theorem admin_areas_attached {V} (JSON_parse : jsval → Err + V)
    (indexOf : V → Z → Err + Z) d aas scenario r :
  Get.attachAdminAreas V JSON_parse indexOf d aas scenario = inr r →
  match r with
  | None => Get.select_admin_areas aas (sc_project_id scenario) = []
  | Some items =>
      Get.select_admin_areas aas (sc_project_id scenario) ≠ []
      ∧ StronglySorted Get.id_le items
      ∧ item_columns <$> items
        ≡ₚ aa_columns <$> Get.select_admin_areas aas (sc_project_id scenario)
      ∧ Forall (λ i,
          match Get.select_selected d (sc_id scenario) with
          | None => Get.item_selected i = false
          | Some s =>
              ∃ v idx, JSON_parse (set_value s) = inr v
                       ∧ indexOf v (Get.item_id i) = inr idx
                       ∧ Get.item_selected i = negb (idx =? -1)
          end) items
  end.
Proof.
  unfold Get.attachAdminAreas.
  destruct (Get.select_admin_areas aas (sc_project_id scenario)) as [|a0 aa] eqn:Haa.
  { by intros [= <-]. }
  set (parsed := match Get.select_selected d (sc_id scenario) with
                 | Some s => _ | None => _ end).
  destruct parsed as [e|sel] eqn:Hsel; [discriminate|].
  destruct (Get.map_result _ (a0 :: aa)) as [e|items] eqn:Hm; [discriminate|].
  intros [= <-]. apply map_result_inr in Hm.
  split; [done|]. split; [apply sort_by_id_sorted|].
  split.
  - rewrite (sort_by_id_perm items).
    assert (item_columns <$> items = aa_columns <$> (a0 :: aa)) as ->; [|done].
    clear Haa.
    induction Hm as [|o i l l' Hoi _ IH]; [done|].
    rewrite !fmap_cons. f_equal; [|exact IH].
    destruct sel as [v|]; [destruct (indexOf v (Get.aa_id o)); [discriminate|]|];
      by injection Hoi as <-.
  - rewrite (sort_by_id_perm items). subst parsed.
    clear Haa. induction Hm as [|o i l l' Hoi _ IH]; constructor; [|exact IH].
    destruct (Get.select_selected d (sc_id scenario)) as [s|].
    + destruct (JSON_parse (set_value s)) as [e|v]; [discriminate|].
      injection Hsel as <-.
      destruct (indexOf v (Get.aa_id o)) as [e|idx] eqn:Hidx; [discriminate|].
      injection Hoi as <-. by exists v, idx.
    + injection Hsel as <-. by injection Hoi as <-.
Qed.

Section GetRoutes.

Variable dm : ErrorClass → string.
Variable V : Type.
Variable JSON_parse : jsval → Err + V.
Variable indexOf : V → Z → Err + Z.
Variable SD OD : Type.
Variable getSourceData : Db → string → Z → Err + SD.
Variable getOperationData : Db → string → Z → Err + OD.

#[local] Abbreviation loadScenario :=
  (Get.loadScenario dm V JSON_parse indexOf SD OD getSourceData getOperationData).
#[local] Abbreviation list_handler :=
  (Get.list_handler dm V JSON_parse indexOf SD OD getSourceData getOperationData).
#[local] Abbreviation master_handler :=
  (Get.master_handler dm V JSON_parse indexOf SD OD getSourceData getOperationData).
#[local] Abbreviation singleScenarioHandler :=
  (Get.singleScenarioHandler dm V JSON_parse indexOf SD OD getSourceData getOperationData).

(** What a loaded scenario is made of. *)
Lemma loadScenario_inv d aas projId scId s :
  loadScenario d aas projId scId = inr s →
  head (Get.order_by_created_at (select_scenario d scId projId)) = Some (Get.l_row V SD OD s)
  ∧ Get.attachAdminAreas V JSON_parse indexOf d aas (Get.l_row V SD OD s)
    = inr (Get.l_admin_areas V SD OD s)
  ∧ Get.l_data V SD OD s = Get.attachScenarioSettings V JSON_parse d (Get.l_row V SD OD s)
  ∧ getSourceData d "scenario" (sc_id (Get.l_row V SD OD s))
    = inr (Get.l_sourceData V SD OD s)
  ∧ getOperationData d "generate-analysis" (sc_id (Get.l_row V SD OD s))
    = inr (Get.l_gen_analysis V SD OD s)
  ∧ getOperationData d "scenario-create" (sc_id (Get.l_row V SD OD s))
    = inr (Get.l_scen_create V SD OD s).
Proof.
  unfold Get.loadScenario.
  destruct (head _) as [sc|]; [|discriminate].
  destruct (Get.attachAdminAreas _ _ _ _ _ _) as [|aa] eqn:Haa; [discriminate|].
  destruct (getSourceData _ _ _) as [|sd] eqn:Hsd; [discriminate|].
  destruct (getOperationData d "generate-analysis" _) as [|ga] eqn:Hga; [discriminate|].
  destruct (getOperationData d "scenario-create" _) as [|scr] eqn:Hscr; [discriminate|].
  intros [= <-]. simpl. done.
Qed.

Lemma loadScenario_row_in d aas projId scId s :
  loadScenario d aas projId scId = inr s →
  Get.l_row V SD OD s ∈ scenarios d
  ∧ sc_id (Get.l_row V SD OD s) = scId
  ∧ sc_project_id (Get.l_row V SD OD s) = projId.
Proof.
  intros H. apply loadScenario_inv in H as [H _].
  apply head_Some_elem_of in H.
  rewrite (order_by_created_at_perm _) in H.
  by apply select_scenario_in in H.
Qed.

(** X19: [loadScenario] gives a row of the scenarios table with the
    identifier and the project that were asked for; with identifiers that
    no two rows share, asking for a scenario through another project fails
    with a ScenarioNotFoundError. *)
Theorem load_scenario_scoped d aas projId scId :
  (∀ s, loadScenario d aas projId scId = inr s →
        Get.l_row V SD OD s ∈ scenarios d
        ∧ sc_id (Get.l_row V SD OD s) = scId
        ∧ sc_project_id (Get.l_row V SD OD s) = projId)
  ∧ (NoDup (sc_id <$> scenarios d) →
     ∀ x, x ∈ scenarios d → sc_id x = scId → sc_project_id x ≠ projId →
          loadScenario d aas projId scId = inl (new_error dm ScenarioNotFoundError None)).
Proof.
  split; [intros s; apply loadScenario_row_in|].
  intros Hnd x Hx <- Hp. unfold Get.loadScenario.
  by rewrite (select_scenario_other_project d x projId Hnd Hx Hp), order_by_created_at_nil.
Qed.

(** With identifiers that no two rows share, loading the scenarios of a
    list of rows of the project by their identifiers gives these rows. *)
Lemma load_rows d aas projId (rows : list Scenario) l :
  NoDup (sc_id <$> scenarios d) →
  Forall (λ s, s ∈ scenarios d ∧ sc_project_id s = projId) rows →
  Get.map_result (λ id, loadScenario d aas projId id) (sc_id <$> rows) = inr l →
  Get.l_row V SD OD <$> l = rows.
Proof.
  intros Hnd Hrows Hm. apply map_result_inr in Hm.
  revert l Hm. induction Hrows as [|x rows [Hx Hp] _ IH]; intros l Hm.
  { apply Forall2_nil_inv_l in Hm as ->. done. }
  rewrite fmap_cons in Hm. apply Forall2_cons_inv_l in Hm as (y & l' & Hy & Hm & ->).
  rewrite fmap_cons. f_equal; [|by apply IH].
  apply loadScenario_row_in in Hy as (Hyin & Hid & _).
  by apply (scenario_id_inj (scenarios d)).
Qed.

(** X20: a page of the list route.  When the route replies a list, the
    count it sets is the number of scenarios of the project, whatever the
    page; with identifiers that no two rows share, the rows of the list are
    the scenarios of the project in the order of creation, without the
    first [(page - 1) * limit] and cut at [limit]: at most [limit] rows and
    at most the count, all of the project, oldest first. *)
Theorem list_page d aas projId page limit l count :
  NoDup (sc_id <$> scenarios d) →
  list_handler d aas projId page limit = Get.ReplyScenarios V SD OD l count →
  count = Get.count_scenarios d projId
  ∧ Get.l_row V SD OD <$> l
    = take (Z.to_nat limit)
           (drop (Z.to_nat ((page - 1) * limit)) (project_scenarios d projId))
  ∧ Z.of_nat (length l) ≤ limit
  ∧ Z.of_nat (length l) ≤ count
  ∧ Forall (λ s, sc_project_id (Get.l_row V SD OD s) = projId) l
  ∧ StronglySorted Get.created_le (Get.l_row V SD OD <$> l).
Proof.
  intros Hnd. unfold Get.list_handler, Get.select_page.
  destruct ((page - 1) * limit <? 0) eqn:Ho; [discriminate|].
  destruct (limit <? 0) eqn:Hl; [discriminate|]. simpl.
  destruct (Get.map_result _ _) as [e|scs] eqn:Hm; [discriminate|].
  intros [= <- <-].
  fold (project_scenarios d projId) in Hm.
  set (rows := take _ (drop _ (project_scenarios d projId))) in *.
  assert (Forall (λ s, s ∈ scenarios d ∧ sc_project_id s = projId)
                 (project_scenarios d projId)) as Hall.
  { unfold project_scenarios. rewrite (order_by_created_at_perm _).
    apply Forall_forall. intros x Hx. by apply list_elem_of_filter in Hx as [? ?]. }
  assert (Get.l_row V SD OD <$> scs = rows) as Hrows.
  { eapply load_rows; [exact Hnd| |exact Hm].
    by apply Forall_take, Forall_drop. }
  assert (length scs = length rows) as Hlen by (by rewrite <- Hrows, length_fmap).
  assert (rows `sublist_of` project_scenarios d projId) as Hsub.
  { etrans; [apply sublist_take|apply sublist_drop]. }
  split; [done|]. split; [done|].
  split. { rewrite Hlen. subst rows. rewrite length_take. lia. }
  split.
  { rewrite Hlen. unfold Get.count_scenarios.
    apply sublist_length in Hsub. unfold project_scenarios in Hsub.
    rewrite (order_by_created_at_perm _) in Hsub. lia. }
  split.
  { assert (Forall (λ s, sc_project_id s = projId) (Get.l_row V SD OD <$> scs)) as HF.
    { rewrite Hrows. apply Forall_take, Forall_drop.
      eapply Forall_impl; [exact Hall|]. by intros ? [_ ?]. }
    by apply Forall_fmap in HF. }
  rewrite Hrows.
  pose proof (order_by_created_at_sorted (filter (λ s, sc_project_id s = projId)
                                                 (scenarios d))) as Hs.
  fold (project_scenarios d projId) in Hs.
  clear -Hs Hsub. induction Hsub as [|x l1 l2 Hsub IH|x l1 l2 Hsub IH].
  - constructor.
  - apply StronglySorted_inv in Hs as [Hs Hx]. constructor; [by apply IH|].
    apply Forall_forall. intros y Hy.
    rewrite Forall_forall in Hx. apply Hx. eapply elem_of_sublist; eassumption.
  - apply StronglySorted_inv in Hs as [Hs _]. by apply IH.
Qed.

(** X21: the master route.  When it replies a scenario, and no two rows
    share an identifier, this is the first master scenario of the project
    in the table; without a master scenario it replies a
    ProjectNotFoundError. *)
Theorem master_reply_is_master d aas projId :
  (Get.select_master d projId = None →
   master_handler d aas projId
   = Get.ReplyErrorResponse V SD OD (new_error dm ProjectNotFoundError None))
  ∧ (NoDup (sc_id <$> scenarios d) →
     ∀ s, master_handler d aas projId = Get.ReplyScenario V SD OD s →
          Get.select_master d projId = Some (Get.l_row V SD OD s)
          ∧ sc_master (Get.l_row V SD OD s) = true
          ∧ sc_project_id (Get.l_row V SD OD s) = projId).
Proof.
  unfold Get.master_handler. split.
  { by intros ->. }
  intros Hnd s. destruct (Get.select_master d projId) as [m|] eqn:Hm; [|discriminate].
  unfold Get.singleScenarioHandler.
  destruct (loadScenario d aas projId (sc_id m)) as [e|s'] eqn:Hl; [discriminate|].
  intros [= ->]. apply loadScenario_row_in in Hl as (Hin & Hid & Hp).
  pose proof Hm as Hm'.
  unfold Get.select_master in Hm'. apply head_Some_elem_of in Hm'.
  apply list_elem_of_filter in Hm' as [[Hmp Hmm] Hmin].
  assert (Get.l_row V SD OD s = m) as -> by (by apply (scenario_id_inj (scenarios d))).
  done.
Qed.

End GetRoutes.

(** ** Creating and reading *)

(** What [handler] does to the scenarios and the settings tables: nothing,
    or one row for the scenario and the three rows of its settings. *)
Lemma routes_chain_tables dm env params payload st r st' :
  Routes.handler_chain dm env params payload st = (r, st') →
  ((∃ e, r = inl e)
   ∧ scenarios (Routes.db st') = scenarios (Routes.db st)
   ∧ scenarios_settings (Routes.db st') = scenarios_settings (Routes.db st))
  ∨ (let scenario :=
       mkScenario (scenarios_id_seq (Routes.db st)) (Routes.name payload)
                  (Some (default "" (Routes.description payload))) "pending" false
                  (projId params) (Routes.now env) (Routes.now env) in
     (∀ sc, r = inr sc → row sc = scenario)
     ∧ scenarios (Routes.db st') = scenarios (Routes.db st) ++ [scenario]
     ∧ scenarios_settings (Routes.db st')
       = scenarios_settings (Routes.db st)
         ++ initial_settings (scenarios_id_seq (Routes.db st)) (Routes.now env)).
Proof.
  intros Hch.
  apply handler_chain_inv in Hch as [(e & -> & ->)|(sc & d1 & Hf & Hi & Hrest)].
  { left. split; [by eexists|done]. }
  right. apply insert_scenario_inv in Hi as (Hsc & Hd1 & _).
  simpl in Hrest.
  assert (scenarios (batchInsert_settings d1 (initial_settings (sc_id sc) (Routes.now env)))
          = scenarios (Routes.db st) ++ [sc]
          ∧ scenarios_settings
              (batchInsert_settings d1 (initial_settings (sc_id sc) (Routes.now env)))
            = scenarios_settings (Routes.db st)
              ++ initial_settings (scenarios_id_seq (Routes.db st)) (Routes.now env))
    as [Hs Hset].
  { rewrite Hd1. simpl. by rewrite Hsc. }
  rewrite <- Hsc.
  destruct Hrest as [(e & -> & _ & ->)|(op & d3 & Hop & Hd3 & Hrest)].
  { split; [by intros ? [=]|]. done. }
  apply startOperation_ok_inv in Hop.
  pose proof (start_and_log_tables
                (batchInsert_settings d1 (initial_settings (sc_id sc) (Routes.now env)))
                (projId params) (sc_id sc)) as (_ & Hs' & Hset').
  rewrite <- Hop in Hs', Hset'. simpl in Hs', Hset'.
  rewrite Hd3, Hs', Hset'. split; [|done].
  destruct Hrest as [(e & -> & _)|(sd & -> & _)]; [by intros ? [=]|].
  by intros ? [= <-].
Qed.

Lemma routes_handler_tables dm env params payload st :
  (scenarios (Routes.db (Routes.handler dm env params payload st).2)
   = scenarios (Routes.db st)
   ∧ scenarios_settings (Routes.db (Routes.handler dm env params payload st).2)
     = scenarios_settings (Routes.db st))
  ∨ (let scenario :=
       mkScenario (scenarios_id_seq (Routes.db st)) (Routes.name payload)
                  (Some (default "" (Routes.description payload))) "pending" false
                  (projId params) (Routes.now env) (Routes.now env) in
     (∀ sc, (Routes.handler dm env params payload st).1 = ReplyScenario sc →
            row sc = scenario)
     ∧ scenarios (Routes.db (Routes.handler dm env params payload st).2)
       = scenarios (Routes.db st) ++ [scenario]
     ∧ scenarios_settings (Routes.db (Routes.handler dm env params payload st).2)
       = scenarios_settings (Routes.db st)
         ++ initial_settings (scenarios_id_seq (Routes.db st)) (Routes.now env)).
Proof.
  destruct (handler_outcome dm env params payload st) as (r & st' & Hch & Hdb & _ & Hr).
  rewrite Hdb.
  apply routes_chain_tables in Hch as [(_ & ? & ?)|(Hrow & ? & ?)]; [by left|right].
  split; [|done]. intros sc Hsc.
  destruct r as [e|sc'].
  - destruct Hr as [Hr _]. rewrite Hsc in Hr. discriminate.
  - rewrite Hr in Hsc. simpl in Hsc. injection Hsc as <-. by apply Hrow.
Qed.

Lemma routes_handler_success_tables dm env params payload st sc st' :
  Routes.handler dm env params payload st = (ReplyScenario sc, st') →
  row sc = mkScenario (scenarios_id_seq (Routes.db st)) (Routes.name payload)
                      (Some (default "" (Routes.description payload))) "pending" false
                      (projId params) (Routes.now env) (Routes.now env)
  ∧ scenarios (Routes.db st') = scenarios (Routes.db st) ++ [row sc]
  ∧ scenarios_settings (Routes.db st')
    = scenarios_settings (Routes.db st)
      ++ initial_settings (sc_id (row sc)) (Routes.now env).
Proof.
  intros H.
  destruct (routes_handler_tables dm env params payload st) as [[Hs _]|(Hrow & Hs & Hset)];
    rewrite H in *; simpl in *.
  - apply handler_replied_inv in H as (_ & _ & _ & _ & _ & Hs' & _).
    rewrite Hs in Hs'. exfalso.
    apply (f_equal length) in Hs'. rewrite length_app in Hs'. simpl in Hs'. lia.
  - rewrite (Hrow sc eq_refl). simpl. done.
Qed.

(** What the create route of [config/offline.js] does to the tables:
    nothing, or one row for the scenario; it writes no settings. *)
Lemma offline_handler_tables dm env params payload st :
  scenarios_settings (Offline.db (Offline.handler dm env params payload st).2)
  = scenarios_settings (Offline.db st)
  ∧ (scenarios (Offline.db (Offline.handler dm env params payload st).2)
     = scenarios (Offline.db st)
     ∨ (let scenario :=
          mkScenario (scenarios_id_seq (Offline.db st)) (Offline.name payload)
                     (Some (default "" (Offline.description payload))) "pending" false
                     (projId params) (Offline.created_now env) (Offline.updated_now env) in
        (∀ sc, (Offline.handler dm env params payload st).1 = Some (ReplyScenario sc) →
               row sc = scenario)
        ∧ scenarios (Offline.db (Offline.handler dm env params payload st).2)
          = scenarios (Offline.db st) ++ [scenario])).
Proof.
  destruct (offline_handler_outcome dm env params payload st) as (r & st' & Hch & Hst & Hr).
  rewrite Hst.
  apply offline_chain_factor in Hch as [(e & -> & ->)|(sc & d1 & Hi & Hrest)].
  { split; [done|by left]. }
  apply insert_scenario_inv in Hi as (Hsc & Hd1 & _).
  assert (scenarios d1 = scenarios (Offline.db st) ++ [sc]
          ∧ scenarios_settings d1 = scenarios_settings (Offline.db st)) as [Hs Hset].
  { by rewrite Hd1. }
  rewrite <- Hsc.
  destruct Hrest as [(e & -> & ->)|(op & d3 & Hop & Hdis)].
  { split; [done|]. right. split; [|done].
    intros sc' Hsc'. destruct Hr as (rep & Hrep & Herr). rewrite Hrep in Hsc'.
    injection Hsc' as ->. discriminate. }
  change (Offline.startOperation dm) with (Routes.startOperation dm) in Hop.
  apply startOperation_ok_inv in Hop.
  pose proof (start_and_log_tables d1 (projId params) (sc_id sc)) as (_ & Hs' & Hset').
  rewrite <- Hop in Hs', Hset'. simpl in Hs', Hset'.
  pose proof (offline_dispatch_inv _ _ _ _ _ _ _ _ _ Hdis) as (Hdb & Hclone & Hnew & Hother).
  simpl in Hdb. rewrite Hdb, Hs', Hset', Hs, Hset.
  split; [done|]. right. split; [|done].
  intros sc' Hsc'. destruct r as [e|replied].
  { destruct Hr as (rep & Hrep & Herr). rewrite Hrep in Hsc'.
    injection Hsc' as ->. discriminate. }
  rewrite Hr in Hsc'. clear Hr. subst replied.
  destruct (decide (Offline.roadNetworkSource payload = "clone")) as [Hc|Hnc].
  - destruct (Hclone Hc) as [_ Hcase].
    destruct (decide (Offline.DS_ENV env = Some "test")).
    + destruct Hcase as [_ [= ->]]. done.
    + destruct (Offline.closeDatabase_failure env); [by destruct Hcase|].
      destruct Hcase as ([= ->] & _). done.
  - destruct (decide (Offline.roadNetworkSource payload = "new")) as [Hn|Hnn].
    + destruct (Hnew Hn) as (_ & _ & Hcase).
      destruct (Offline.presignedUrl env); [by destruct Hcase|].
      destruct Hcase as ([= ->] & _). done.
    + by destruct (Hother Hnc Hnn) as [_ [=]].
Qed.

Lemma select_master_app d d' x p :
  scenarios d' = scenarios d ++ [x] → sc_master x = false →
  Get.select_master d' p = Get.select_master d p.
Proof.
  intros Hs Hm. unfold Get.select_master. rewrite Hs, filter_app.
  rewrite (filter_cons _ x), decide_False by (intros [_ ?]; congruence).
  by rewrite filter_nil, app_nil_r.
Qed.

(** X22: creating a scenario never changes which scenario is the master of
    a project: after [handler], and after the create route of
    [config/offline.js], whatever they reply, the lookup of the master
    route finds what it found before. *)
Theorem create_keeps_master dm env oenv params payload opayload st ost p :
  Get.select_master (Routes.db (Routes.handler dm env params payload st).2) p
  = Get.select_master (Routes.db st) p
  ∧ Get.select_master (Offline.db (Offline.handler dm oenv params opayload ost).2) p
    = Get.select_master (Offline.db ost) p.
Proof.
  split.
  - destruct (routes_handler_tables dm env params payload st) as [[Hs _]|(_ & Hs & _)].
    + unfold Get.select_master. by rewrite Hs.
    + by apply (select_master_app _ _ _ _ Hs).
  - destruct (offline_handler_tables dm oenv params opayload ost) as [_ [Hs|(_ & Hs)]].
    + unfold Get.select_master. by rewrite Hs.
    + by apply (select_master_app _ _ _ _ Hs).
Qed.

Lemma count_scenarios_app d d' x p :
  scenarios d' = scenarios d ++ [x] →
  Get.count_scenarios d' p
  = Get.count_scenarios d p + (if decide (sc_project_id x = p) then 1 else 0).
Proof.
  intros Hs. unfold Get.count_scenarios. rewrite Hs, filter_app, length_app.
  rewrite (filter_cons _ x), filter_nil.
  destruct (decide (sc_project_id x = p)); simpl; lia.
Qed.

(** X23: the count of the list route after a create request.  The counts
    of the other projects stay as they are; the count of the project of
    the request grows by one when a scenario is replied, and by at most
    one when an error is replied. *)
Theorem create_counts dm env params payload st :
  let d := Routes.db st in
  let d' := Routes.db (Routes.handler dm env params payload st).2 in
  (∀ p, p ≠ projId params → Get.count_scenarios d' p = Get.count_scenarios d p)
  ∧ Get.count_scenarios d (projId params) ≤ Get.count_scenarios d' (projId params)
    ≤ Get.count_scenarios d (projId params) + 1
  ∧ (∀ sc, (Routes.handler dm env params payload st).1 = ReplyScenario sc →
           Get.count_scenarios d' (projId params)
           = Get.count_scenarios d (projId params) + 1).
Proof.
  simpl.
  destruct (routes_handler_tables dm env params payload st) as [[Hs _]|(_ & Hs & _)].
  - assert (∀ p, Get.count_scenarios
                   (Routes.db (Routes.handler dm env params payload st).2) p
                 = Get.count_scenarios (Routes.db st) p) as Hc.
    { intros p. unfold Get.count_scenarios. by rewrite Hs. }
    split; [intros; apply Hc|]. split; [rewrite Hc; lia|].
    intros sc Hsc. exfalso.
    assert (Routes.handler dm env params payload st
            = (ReplyScenario sc, (Routes.handler dm env params payload st).2)) as H.
    { rewrite <- Hsc. by destruct (Routes.handler dm env params payload st). }
    apply handler_replied_inv in H as (_ & _ & _ & _ & _ & Hs' & _).
    rewrite Hs in Hs'. apply (f_equal length) in Hs'. rewrite length_app in Hs'.
    simpl in Hs'. lia.
  - pose proof (λ p, count_scenarios_app _ _ _ p Hs) as Hc. simpl in Hc.
    split.
    { intros p Hp. rewrite Hc, decide_False by done. lia. }
    rewrite Hc, decide_True by done. split; [lia|done].
Qed.

Lemma filter_fresh_settings (P : Setting → Prop) `{∀ o, Decision (P o)} scId
    (l : list Setting) :
  Forall (λ o, set_scenario_id o < scId) l →
  filter (λ o, P o ∧ set_scenario_id o = scId) l = [].
Proof.
  induction 1 as [|x l Hx _ IH]; [done|].
  rewrite filter_cons, decide_False by (intros [_ ?]; lia). exact IH.
Qed.

Lemma select_scenario_fresh d d' x p :
  Forall (λ s, sc_id s < scenarios_id_seq d) (scenarios d) →
  scenarios d' = scenarios d ++ [x] →
  sc_id x = scenarios_id_seq d →
  sc_project_id x = p →
  select_scenario d' (sc_id x) p = [x].
Proof.
  intros Hall Hs Hid Hp. unfold select_scenario. rewrite Hs, filter_app.
  rewrite (filter_cons _ x), decide_True, filter_nil by done.
  replace (filter _ (scenarios d)) with (@nil Scenario); [done|].
  symmetry. clear Hs. induction Hall as [|y l Hy _ IH]; [done|].
  rewrite filter_cons, decide_False by (intros [? _]; lia). exact IH.
Qed.

(** X24: what the create route writes is what the get route reads.  In a
    store whose rows carry identifiers handed out by the sequence, after
    [handler] replied a scenario, the lookup of [loadScenario] finds the
    replied row, the [data] that [attachScenarioSettings] builds for it is
    the replied [data] with every value passed through [parseType], and the
    stored selection of admin areas is the text '[]'. *)
Theorem created_scenario_loads {V} (JSON_parse : jsval → Err + V)
    dm env params payload st sc st' :
  Forall (λ s, sc_id s < scenarios_id_seq (Routes.db st)) (scenarios (Routes.db st)) →
  Forall (λ o, set_scenario_id o < scenarios_id_seq (Routes.db st))
         (scenarios_settings (Routes.db st)) →
  Routes.handler dm env params payload st = (ReplyScenario sc, st') →
  head (Get.order_by_created_at
          (select_scenario (Routes.db st') (sc_id (row sc)) (projId params)))
  = Some (row sc)
  ∧ (∃ dat, sc_data sc = Some dat
            ∧ Get.attachScenarioSettings V JSON_parse (Routes.db st') (row sc)
              = Get.parseType V JSON_parse <$> (list_to_map dat : gmap string jsval))
  ∧ Get.select_selected (Routes.db st') (sc_id (row sc))
    = Some (mkSetting (sc_id (row sc)) "admin_areas" (JStr "[]")
                      (Routes.now env) (Routes.now env)).
Proof.
  intros Hsc Hset H.
  pose proof (routes_handler_success_tables _ _ _ _ _ _ _ H) as (Hrow & Hs & Hst).
  apply handler_replied_inv in H as (_ & _ & _ & _ & _ & _ & Hobj & _).
  assert (sc_id (row sc) = scenarios_id_seq (Routes.db st)) as Hid by (by rewrite Hrow).
  split.
  { rewrite (select_scenario_fresh (Routes.db st) (Routes.db st') (row sc) (projId params));
      [by rewrite order_by_created_at_singleton|done|done|done|by rewrite Hrow]. }
  split.
  - exists [("res_gen_at", JNum 0); ("rn_updated_at", JNum 0)].
    split; [by rewrite Hobj|].
    apply map_eq. intros k. rewrite attachScenarioSettings_lookup, Hst, filter_app.
    rewrite (filter_fresh_settings (λ o, set_key o = k)) by (by rewrite Hid).
    rewrite lookup_fmap. unfold initial_settings. simpl list_to_map.
    destruct (decide (k = "admin_areas")) as [->|Haa]; [done|].
    rewrite app_nil_l, !filter_cons, filter_nil. simpl set_key. simpl set_scenario_id.
    rewrite (decide_False (P := "admin_areas" = k ∧ _)) by (intros [? _]; done).
    destruct (decide (k = "res_gen_at")) as [->|Hr].
    { rewrite decide_True by done.
      rewrite (decide_False (P := "rn_updated_at" = "res_gen_at" ∧ _))
        by (intros [? _]; done).
      by rewrite lookup_insert_eq. }
    rewrite (decide_False (P := "res_gen_at" = k ∧ _)) by (intros [? _]; done).
    rewrite lookup_insert_ne by done.
    destruct (decide (k = "rn_updated_at")) as [->|Hu].
    { rewrite decide_True by done. by rewrite lookup_insert_eq. }
    rewrite (decide_False (P := "rn_updated_at" = k ∧ _)) by (intros [? _]; done).
    by rewrite lookup_insert_ne.
  - unfold Get.select_selected. rewrite Hst, filter_app.
    rewrite (filter_fresh_settings (λ o, set_key o = "admin_areas")) by (by rewrite Hid).
    unfold initial_settings. rewrite app_nil_l, !filter_cons, filter_nil.
    simpl set_key. simpl set_scenario_id.
    rewrite (decide_False (P := "res_gen_at" = "admin_areas" ∧ _)) by (intros [? _]; done).
    rewrite (decide_False (P := "rn_updated_at" = "admin_areas" ∧ _))
      by (intros [? _]; done).
    by rewrite decide_True.
Qed.

(** The areas of a project with no area flagged as selected. *)
Lemma map_result_total {A B} (f : A → B) (l : list A) :
  Get.map_result (λ x, inr (f x)) l = inr (f <$> l).
Proof. induction l as [|x l IH]; [done|]. simpl. by rewrite IH. Qed.

Lemma attachAdminAreas_no_selection {V} (JSON_parse : jsval → Err + V)
    (indexOf : V → Z → Err + Z) d aas scenario :
  Get.select_selected d (sc_id scenario) = None →
  Get.attachAdminAreas V JSON_parse indexOf d aas scenario
  = inr (match Get.select_admin_areas aas (sc_project_id scenario) with
         | [] => None
         | aa => Some (Get.sort_by_id (unselected <$> aa))
         end).
Proof.
  unfold Get.attachAdminAreas. intros ->.
  destruct (Get.select_admin_areas aas (sc_project_id scenario)) as [|a aa]; [done|].
  pose proof (map_result_total unselected (a :: aa)) as Hm. unfold unselected in Hm.
  by rewrite Hm.
Qed.

(** X25: the create route of [config/offline.js] writes no settings.  In
    a store whose settings belong to identifiers handed out by the
    sequence, for the scenario it replied [attachScenarioSettings] builds
    the empty object, and [attachAdminAreas] does not fail: it gives null
    for a project without admin areas, and otherwise the areas of the
    project in the order of [id], none of them selected. *)
Theorem offline_created_reads_empty {V} (JSON_parse : jsval → Err + V)
    (indexOf : V → Z → Err + Z) dm env params payload st sc aas :
  Forall (λ o, set_scenario_id o < scenarios_id_seq (Offline.db st))
         (scenarios_settings (Offline.db st)) →
  (Offline.handler dm env params payload st).1 = Some (ReplyScenario sc) →
  let d' := Offline.db (Offline.handler dm env params payload st).2 in
  Get.attachScenarioSettings V JSON_parse d' (row sc) = ∅
  ∧ Get.attachAdminAreas V JSON_parse indexOf d' aas (row sc)
    = inr (match Get.select_admin_areas aas (projId params) with
           | [] => None
           | aa => Some (Get.sort_by_id (unselected <$> aa))
           end).
Proof.
  intros Hset Hsc. simpl.
  destruct (offline_handler_tables dm env params payload st) as [Hst [Hs|(Hrow & Hs)]].
  { exfalso.
    destruct (offline_handler_cases dm env params payload st)
      as [(e & r & _ & Hr & Herr)|[Hch _]].
    - rewrite Hsc in Hr. injection Hr as <-. discriminate.
    - rewrite Hsc in Hch.
      apply offline_chain_factor in Hch as [(e & [=] & _)|(s & d1 & Hi & Hrest)].
      destruct Hrest as [(e & [=] & _)|(op & d3 & Hop & Hdis)].
      change (Offline.startOperation dm) with (Routes.startOperation dm) in Hop.
      apply startOperation_ok_inv in Hop.
      pose proof (start_and_log_tables d1 (projId params) (sc_id s)) as (_ & Hs' & _).
      rewrite <- Hop in Hs'. simpl in Hs'.
      apply offline_dispatch_inv in Hdis as (Hdb & _). simpl in Hdb.
      apply insert_scenario_inv in Hi as (_ & Hd1 & _).
      rewrite Hdb, Hs', Hd1 in Hs. simpl in Hs.
      apply (f_equal length) in Hs. rewrite length_app in Hs. simpl in Hs. lia. }
  specialize (Hrow sc Hsc).
  assert (sc_id (row sc) = scenarios_id_seq (Offline.db st)) as Hid by (by rewrite Hrow).
  assert (sc_project_id (row sc) = projId params) as Hp by (by rewrite Hrow).
  assert (filter (λ s, set_key s ≠ "admin_areas" ∧ set_scenario_id s = sc_id (row sc))
                 (scenarios_settings (Offline.db st)) = []) as Hf1.
  { apply (filter_fresh_settings (λ o, set_key o ≠ "admin_areas")). by rewrite Hid. }
  assert (filter (λ s, set_key s = "admin_areas" ∧ set_scenario_id s = sc_id (row sc))
                 (scenarios_settings (Offline.db st)) = []) as Hf2.
  { apply (filter_fresh_settings (λ o, set_key o = "admin_areas")). by rewrite Hid. }
  split.
  - unfold Get.attachScenarioSettings, Get.select_settings. by rewrite Hst, Hf1.
  - rewrite attachAdminAreas_no_selection, Hp; [done|].
    unfold Get.select_selected. by rewrite Hst, Hf2.
Qed.

(** ** The examples *)

Lemma restart_after_failure_witness :
  Db_wf ex_db
  ∧ Routes.startOperation ex_dm 1 3 ex_db = (inr ex_op, ex_db_started)
  ∧ op_id (start_and_log
             (Routes.createScenario_complete ex_dm (op_id ex_op) (Some ex_job_error)
                                             ex_db_started) 1 3).1
    = op_id ex_op + 1.
Proof.
  split; [exact ex_db_wf|]. split; [reflexivity|].
  apply (proj1 (restart_after_failure ex_dm 1 3 ex_db ex_op ex_db_started ex_job_error
                  ex_db_wf eq_refl)).
Defined.

Lemma temp_file_removed_witness :
  Routes.roadNetworkFile ex_payload_new = Some ex_file
  ∧ is_error_reply (Routes.handler ex_dm ex_env_putfail (mkParams 1 None) ex_payload_new
                                   ex_st).1 = true
  ∧ path ex_file
    ∈ Routes.removed_local
        (Routes.handler ex_dm ex_env_putfail (mkParams 1 None) ex_payload_new ex_st).2.
Proof.
  split; [reflexivity|]. split; [reflexivity|].
  apply (proj1 (proj1 (temp_file_removed ex_dm ex_env_putfail (mkParams 1 None)
                         ex_payload_new ex_st) ex_file eq_refl)).
  reflexivity.
Defined.

Lemma runner_payload_witness :
  Routes.DS_ENV ex_env ≠ Some "test"
  ∧ (Routes.handler ex_dm ex_env (mkParams 1 None) ex_payload ex_st).1
    = ReplyScenario ex_scenario
  ∧ ∃ sv,
      Routes.services (Routes.handler ex_dm ex_env (mkParams 1 None) ex_payload ex_st).2
      = [sv]
      ∧ service_data sv !! "scId" = Some (JNum 3)
      ∧ service_data sv !! "rnSourceScenarioId" = Some (JNum 1).
Proof.
  split; [done|]. split; [reflexivity|].
  destruct (runner_payload ex_dm ex_env (mkParams 1 None) ex_payload ex_st ex_scenario
              (Routes.handler ex_dm ex_env (mkParams 1 None) ex_payload ex_st).2
              ltac:(done) eq_refl)
    as (sv & opId & t & Hsv & _ & _ & _ & Hsc & _ & _ & _ & Hclone & _).
  exists sv. split; [exact Hsv|]. split; [exact Hsc|]. exact (Hclone eq_refl).
Defined.

Lemma failed_upload_leaves_operation_started_witness :
  Db_wf (Routes.db ex_st)
  ∧ is_error_reply (Routes.handler ex_dm ex_env_putfail (mkParams 1 None) ex_payload_new
                                   ex_st).1 = true
  ∧ Routes.services
      (Routes.handler ex_dm ex_env_putfail (mkParams 1 None) ex_payload_new ex_st).2
    = Routes.services ex_st.
Proof.
  split; [exact ex_db_wf|]. split; [reflexivity|].
  apply (failed_upload_leaves_operation_started ex_dm ex_env_putfail (mkParams 1 None)
           ex_payload_new ex_st ex_db_wf eq_refl).
  vm_compute. discriminate.
Defined.

Lemma ex_validated :
  validated (Routes.db ex_st) 1 (Routes.roadNetworkSource ex_payload)
            (Routes.roadNetworkSourceScenario ex_payload).
Proof.
  split; [by exists "active", []|]. intros _. exists 1. split; [reflexivity|done].
Defined.

Lemma create_request_succeeds_witness :
  validated (Routes.db ex_st) 1 (Routes.roadNetworkSource ex_payload)
            (Routes.roadNetworkSourceScenario ex_payload)
  ∧ no_operation_for (Routes.db ex_st) 1 (scenarios_id_seq (Routes.db ex_st))
  ∧ (Routes.handler ex_dm ex_env (mkParams 1 None) ex_payload ex_st).1
    = ReplyScenario ex_scenario.
Proof.
  split; [exact ex_validated|]. split; [reflexivity|].
  apply (create_request_succeeds ex_dm ex_env (mkParams 1 None) ex_payload ex_st
           eq_refl ex_validated eq_refl eq_refl eq_refl).
  intros H. discriminate H.
Defined.

Lemma duplicate_succeeds_witness :
  head (select_scenario (Routes.db ex_st) 1 1)
  = Some (mkScenario 1 "Main scenario" None "active" true 1 0 0)
  ∧ ∃ (n : N) sc st',
      (2 ≤ n)%N
      ∧ Routes.duplicate ex_dm ex_env 1 1 ex_st = Some (ReplyScenario sc, st')
      ∧ sc_name (row sc) = "Main scenario" +:+ " (" +:+ pretty n +:+ ")".
Proof.
  split; [reflexivity|].
  destruct (duplicate_succeeds ex_dm ex_env 1 1 ex_st
              (mkScenario 1 "Main scenario" None "active" true 1 0 0)
              eq_refl eq_refl) as (n & st' & Hn & _ & Hd).
  - by exists "active", [].
  - reflexivity.
  - reflexivity.
  - exists n. eexists _, st'. split; [exact Hn|]. split; [exact Hd|reflexivity].
Defined.

Lemma duplicate_numbers_increase_witness :
  Routes.findName ex_db 1 "Main scenario" = Some (candidate "Main scenario" 2)
  ∧ ∃ n',
      (2 < n')%N
      ∧ Routes.findName
          (set_scenarios
             (λ l, l ++ [mkScenario 3 (candidate "Main scenario" 2) None "pending" false
                                    1 7 7]) 4 ex_db)
          1 "Main scenario"
        = Some (candidate "Main scenario" n').
Proof.
  split; [reflexivity|].
  apply (duplicate_numbers_increase ex_db 1 "Main scenario" 2 None "pending" false 7 7
           (mkScenario 3 (candidate "Main scenario" 2) None "pending" false 1 7 7)).
  - reflexivity.
  - reflexivity.
Defined.

Lemma offline_upload_defers_runner_witness :
  Offline.roadNetworkSource ex_opayload_new = "new"
  ∧ (Offline.handler ex_dm ex_oenv (mkParams 1 None) ex_opayload_new ex_ost).1
    = Some (ReplyScenario
              (mkScenarioObj (mkScenario 3 "D" (Some "") "pending" false 1 1000 1000)
                             None None
                             (Some [("fileName", JStr (offline_fileName ex_oenv));
                                    ("presignedUrl", JStr "http://storage/upload")])))
  ∧ Offline.services
      (Offline.handler ex_dm ex_oenv (mkParams 1 None) ex_opayload_new ex_ost).2
    = Offline.services ex_ost.
Proof.
  split; [reflexivity|]. split; [reflexivity|].
  apply (offline_upload_defers_runner ex_dm ex_oenv (mkParams 1 None) ex_opayload_new
           ex_ost _ _ eq_refl eq_refl).
Defined.

Lemma offline_clone_closes_database_witness :
  Offline.roadNetworkSource ex_opayload_clone = "clone"
  ∧ Offline.DS_ENV ex_oenv_closefail ≠ Some "test"
  ∧ Offline.services
      (Offline.handler ex_dm ex_oenv_closefail (mkParams 1 None) ex_opayload_clone ex_ost).2
    = Offline.services ex_ost.
Proof.
  split; [reflexivity|]. split; [done|].
  apply (proj2 (offline_clone_closes_database ex_dm ex_oenv_closefail (mkParams 1 None)
                  ex_opayload_clone ex_ost eq_refl)
           (mkErr OtherError "database in use" None) ltac:(done) eq_refl).
Defined.

Lemma check_failure_replies_witness :
  select_project_status (Offline.db ex_ost) 7 = []
  ∧ Offline.handler ex_dm ex_oenv (mkParams 7 None) ex_opayload_clone ex_ost
    = (Some (ReplyNotFound (ex_dm ProjectNotFoundError)), ex_ost).
Proof.
  split; [reflexivity|].
  apply (proj1 (check_failure_replies ex_dm ex_env ex_oenv (mkParams 7 None) ex_payload
                  ex_opayload_clone ex_st ex_ost)).
  reflexivity.
Defined.

Lemma file_removal_refused_witness :
  filter (λ p, p_id p = 1) (Files.projects ex_fst) = [mkProject 1 "active"]
  ∧ Files.handler None 1 5 ex_fst
    = (Files.ReplyErrorResponse
         (Files.ProjectStatusError
            "Project no longer in the setup phase. Files can not be removed"), ex_fst).
Proof.
  split; [reflexivity|].
  apply (proj1 (proj2 (file_removal_refused None 1 5 ex_fst)) (mkProject 1 "active") []).
  - reflexivity.
  - simpl. discriminate.
Defined.

Lemma file_removal_effect_witness :
  (Files.handler None 2 5 ex_fst).1 = Files.ReplyDeleted
  ∧ ∀ f, f ∈ Files.projects_files (Files.handler None 2 5 ex_fst).2 → Files.pf_id f ≠ 5.
Proof.
  split; [reflexivity|].
  apply (proj2 (proj2 (proj2 (file_removal_effect None 2 5 ex_fst)))).
  reflexivity.
Defined.

Lemma file_removal_twice_witness :
  Files.handler None 2 5 ex_fst
  = (Files.ReplyDeleted, (Files.handler None 2 5 ex_fst).2)
  ∧ Files.handler None 2 5 (Files.handler None 2 5 ex_fst).2
    = (Files.ReplyErrorResponse Files.FileNotFoundError, (Files.handler None 2 5 ex_fst).2).
Proof.
  split; [reflexivity|].
  apply (file_removal_twice None None 2 5 ex_fst). reflexivity.
Defined.

Lemma file_removal_storage_failure_witness :
  Files.mkProjectFile 5 2 "project-2/profile" ∈ Files.projects_files ex_fst
  ∧ (Files.handler (Some "storage down") 2 5 ex_fst).1
    = Files.ReplyErrorResponse (Files.StorageError "storage down")
  ∧ Files.storage (Files.handler (Some "storage down") 2 5 ex_fst).2 = Files.storage ex_fst.
Proof.
  assert (Files.mkProjectFile 5 2 "project-2/profile" ∈ Files.projects_files ex_fst) as Hin.
  { simpl. apply list_elem_of_singleton. reflexivity. }
  split; [exact Hin|].
  destruct (file_removal_storage_failure "storage down" None 2 5 ex_fst
              (mkProject 2 "pending") [] (Files.mkProjectFile 5 2 "project-2/profile")
              eq_refl eq_refl Hin eq_refl eq_refl) as (H1 & H2 & _).
  split; [exact H1|exact H2].
Defined.

Lemma file_removal_excludes_create_witness :
  (Files.handler None 2 5 ex_fst).1 = Files.ReplyDeleted
  ∧ projects (Routes.db ex_st) = Files.projects ex_fst
  ∧ Routes.handler_chain ex_dm ex_env (mkParams 2 None) ex_payload ex_st
    = (inl (mkErr DataConflictError "Project setup not completed" None), ex_st).
Proof.
  split; [reflexivity|]. split; [reflexivity|].
  apply (file_removal_excludes_create None 2 5 ex_fst (Files.handler None 2 5 ex_fst).2
           ex_dm ex_env (mkParams 2 None) ex_payload ex_st);
    reflexivity.
Defined.

Lemma settings_attached_witness :
  "res_gen_at" ≠ "admin_areas"
  ∧ Get.attachScenarioSettings (Z + list Z) ex_parse ex_gdb
      (mkScenario 1 "Main scenario" None "active" true 1 0 0) !! "res_gen_at"
    = Some (inl (inl 0)).
Proof.
  split; [done|].
  rewrite (proj2 (settings_attached ex_parse ex_gdb
                    (mkScenario 1 "Main scenario" None "active" true 1 0 0)
                    "res_gen_at") ltac:(done)).
  reflexivity.
Defined.

Lemma admin_areas_attached_witness :
  Get.attachAdminAreas (Z + list Z) ex_parse ex_indexOf ex_gdb ex_aas
    (mkScenario 1 "Main scenario" None "active" true 1 0 0)
  = inr (Some [Get.mkAdminAreaItem 10 "South" "district" true;
               Get.mkAdminAreaItem 20 "North" "district" false])
  ∧ StronglySorted Get.id_le
      [Get.mkAdminAreaItem 10 "South" "district" true;
       Get.mkAdminAreaItem 20 "North" "district" false].
Proof.
  assert (Get.attachAdminAreas (Z + list Z) ex_parse ex_indexOf ex_gdb ex_aas
            (mkScenario 1 "Main scenario" None "active" true 1 0 0)
          = inr (Some [Get.mkAdminAreaItem 10 "South" "district" true;
                       Get.mkAdminAreaItem 20 "North" "district" false])) as H.
  { vm_compute. reflexivity. }
  split; [exact H|].
  exact (proj1 (proj2 (admin_areas_attached ex_parse ex_indexOf ex_gdb ex_aas _ _ H))).
Defined.

Lemma ex_gdb_ids : NoDup (sc_id <$> scenarios ex_gdb).
Proof. simpl. apply NoDup_cons. split; [|apply NoDup_singleton].
  intros H. apply list_elem_of_singleton in H. discriminate H.
Defined.

Lemma load_scenario_scoped_witness :
  NoDup (sc_id <$> scenarios ex_gdb)
  ∧ mkScenario 1 "Main scenario" None "active" true 1 0 0 ∈ scenarios ex_gdb
  ∧ ex_loadScenario ex_gdb ex_aas 2 1 = inl (new_error ex_dm ScenarioNotFoundError None).
Proof.
  assert (mkScenario 1 "Main scenario" None "active" true 1 0 0 ∈ scenarios ex_gdb) as Hin.
  { simpl. left. }
  split; [exact ex_gdb_ids|]. split; [exact Hin|].
  apply (proj2 (load_scenario_scoped ex_dm (Z + list Z) ex_parse ex_indexOf unit unit
                  ex_getData ex_getData ex_gdb ex_aas 2 1)
           ex_gdb_ids (mkScenario 1 "Main scenario" None "active" true 1 0 0) Hin eq_refl).
  simpl. discriminate.
Defined.

Lemma list_page_witness :
  NoDup (sc_id <$> scenarios ex_gdb)
  ∧ ∃ l, ex_list_handler ex_gdb ex_aas 1 2 1
         = Get.ReplyScenarios (Z + list Z) unit unit l 2
         ∧ Get.l_row (Z + list Z) unit unit <$> l
           = [mkScenario 2 "Second" None "active" false 1 5 5].
Proof.
  split; [exact ex_gdb_ids|].
  destruct (ex_list_handler ex_gdb ex_aas 1 2 1) as [l count|s|e] eqn:H;
    [|vm_compute in H; discriminate H..].
  exists l.
  pose proof (list_page ex_dm (Z + list Z) ex_parse ex_indexOf unit unit ex_getData
                ex_getData ex_gdb ex_aas 1 2 1 l count ex_gdb_ids H) as (Hc & Hrows & _).
  split; [by rewrite Hc|]. rewrite Hrows. reflexivity.
Defined.

Lemma master_reply_is_master_witness :
  Get.select_master ex_gdb 2 = None
  ∧ ex_master_handler ex_gdb ex_aas 2
    = Get.ReplyErrorResponse (Z + list Z) unit unit
        (new_error ex_dm ProjectNotFoundError None).
Proof.
  split; [reflexivity|].
  apply (proj1 (master_reply_is_master ex_dm (Z + list Z) ex_parse ex_indexOf unit unit
                  ex_getData ex_getData ex_gdb ex_aas 2)).
  reflexivity.
Defined.

Lemma create_counts_witness :
  (Routes.handler ex_dm ex_env (mkParams 1 None) ex_payload ex_st).1
  = ReplyScenario ex_scenario
  ∧ Get.count_scenarios
      (Routes.db (Routes.handler ex_dm ex_env (mkParams 1 None) ex_payload ex_st).2) 1
    = Get.count_scenarios (Routes.db ex_st) 1 + 1.
Proof.
  split; [reflexivity|].
  apply (proj2 (proj2 (create_counts ex_dm ex_env (mkParams 1 None) ex_payload ex_st))
           ex_scenario).
  reflexivity.
Defined.

Lemma created_scenario_loads_witness :
  Forall (λ s, sc_id s < scenarios_id_seq (Routes.db ex_st)) (scenarios (Routes.db ex_st))
  ∧ (Routes.handler ex_dm ex_env (mkParams 1 None) ex_payload ex_st).1
    = ReplyScenario ex_scenario
  ∧ head (Get.order_by_created_at
            (select_scenario
               (Routes.db (Routes.handler ex_dm ex_env (mkParams 1 None) ex_payload
                                          ex_st).2) 3 1))
    = Some (row ex_scenario).
Proof.
  assert (Forall (λ s, sc_id s < scenarios_id_seq (Routes.db ex_st))
                 (scenarios (Routes.db ex_st))) as Hs.
  { simpl. constructor; [reflexivity|constructor]. }
  split; [exact Hs|]. split; [reflexivity|].
  apply (proj1 (created_scenario_loads ex_parse ex_dm ex_env (mkParams 1 None) ex_payload
                  ex_st ex_scenario
                  (Routes.handler ex_dm ex_env (mkParams 1 None) ex_payload ex_st).2
                  Hs ltac:(constructor) eq_refl)).
Defined.

Lemma offline_created_reads_empty_witness :
  (Offline.handler ex_dm ex_oenv (mkParams 1 None) ex_opayload_clone ex_ost).1
  = Some (ReplyScenario
            (mkScenarioObj (mkScenario 3 "B" (Some "") "pending" false 1 1000 1000)
                           None None None))
  ∧ Get.attachScenarioSettings (Z + list Z) ex_parse
      (Offline.db (Offline.handler ex_dm ex_oenv (mkParams 1 None) ex_opayload_clone
                                   ex_ost).2)
      (mkScenario 3 "B" (Some "") "pending" false 1 1000 1000)
    = ∅.
Proof.
  split; [reflexivity|].
  apply (proj1 (offline_created_reads_empty ex_parse ex_indexOf ex_dm ex_oenv
                  (mkParams 1 None) ex_opayload_clone ex_ost
                  (mkScenarioObj (mkScenario 3 "B" (Some "") "pending" false 1 1000 1000)
                                 None None None)
                  ex_aas ltac:(constructor) eq_refl)).
Defined.
